(** * Camera and chroma-key property managers of the Varjo examples

    A shallow embedding of [CameraManager.cpp] and [ChromaKeyManager.cpp]
    (namespace [VarjoExamples]).  Both classes talk to the closed runtime
    through a session handle; here every runtime entry point is a [Call],
    a method is a finite tree of calls ([Prog]), and a tree is run against
    an arbitrary [Device], which answers each call and records it. *)

From Stdlib Require Import String ZArith List Bool Lia.
Import ListNotations.
Open Scope Z_scope.

(** ** Machine integers *)

Module Int.

(** [static_cast<int>(x)]: the low 32 bits, read as two's complement. *)
Definition to_int (x : Z) : Z := (x + 2 ^ 31) mod 2 ^ 32 - 2 ^ 31.

(** Conversion to [int64_t]. *)
Definition to_int64 (x : Z) : Z := (x + 2 ^ 63) mod 2 ^ 64 - 2 ^ 63.

(** Conversion of an integer operand to [size_t] (64 bits, unsigned). *)
Definition to_size_t (x : Z) : Z := x mod 2 ^ 64.

End Int.

(** ** Types of the SDK headers *)

(** [Varjo_types.h]: [typedef int32_t varjo_Bool], [typedef int64_t varjo_Error]. *)
Definition varjo_Bool := Z.
Definition varjo_False : varjo_Bool := 0.
Definition varjo_True : varjo_Bool := 1.

Definition varjo_Error := Z.
Definition varjo_NoError : varjo_Error := 0.
Definition varjo_Error_ChromaKeyNotLocked : varjo_Error := 710.

(** Modelled from the spec: the declarations of [Varjo_types_mr.h], which is
    not among the sources.  The property type, mode, data type, config type
    and lock type are 64-bit integer typedefs (the source prints them with
    [%lld]); the spec names their members, and they are numbered here in the
    order it names them.  Only the fact that the members differ is used, and
    that a value-initialised mode is the integer 0. *)
Definition varjo_CameraPropertyType := Z.
Definition varjo_CameraPropertyType_ExposureTime : varjo_CameraPropertyType := 1.
Definition varjo_CameraPropertyType_ISOValue : varjo_CameraPropertyType := 2.
Definition varjo_CameraPropertyType_WhiteBalance : varjo_CameraPropertyType := 3.
Definition varjo_CameraPropertyType_FlickerCompensation : varjo_CameraPropertyType := 4.
Definition varjo_CameraPropertyType_Sharpness : varjo_CameraPropertyType := 5.

Definition varjo_CameraPropertyMode := Z.
Definition varjo_CameraPropertyMode_Off : varjo_CameraPropertyMode := 0.
Definition varjo_CameraPropertyMode_Auto : varjo_CameraPropertyMode := 1.
Definition varjo_CameraPropertyMode_Manual : varjo_CameraPropertyMode := 2.

Definition varjo_CameraPropertyDataType := Z.
Definition varjo_CameraPropertyDataType_Bool : varjo_CameraPropertyDataType := 1.
Definition varjo_CameraPropertyDataType_Int : varjo_CameraPropertyDataType := 2.
Definition varjo_CameraPropertyDataType_Double : varjo_CameraPropertyDataType := 3.

Definition varjo_CameraPropertyConfigType := Z.
Definition varjo_CameraPropertyConfigType_List : varjo_CameraPropertyConfigType := 1.
Definition varjo_CameraPropertyConfigType_Range : varjo_CameraPropertyConfigType := 2.

Definition varjo_LockType := Z.
Definition varjo_LockType_Camera : varjo_LockType := 1.
Definition varjo_LockType_ChromaKey : varjo_LockType := 2.

Definition varjo_ChromaKeyType := Z.
Definition varjo_ChromaKeyType_Disabled : varjo_ChromaKeyType := 0.
Definition varjo_ChromaKeyType_HSV : varjo_ChromaKeyType := 1.

(** ** IEEE-754 binary64, by bit pattern

    A [double] is carried as its 64 bits, [0 <= bits < 2^64]. *)

Module Double.

Definition double := Z.

Definition sign (d : double) : Z := Z.shiftr d 63 mod 2.
Definition exponent (d : double) : Z := Z.shiftr d 52 mod 2 ^ 11.
Definition mantissa (d : double) : Z := d mod 2 ^ 52.

Definition is_nan (d : double) : bool :=
  (exponent d =? 2047) && negb (mantissa d =? 0).

Definition is_zero (d : double) : bool :=
  (exponent d =? 0) && (mantissa d =? 0).

(** [a == b] on doubles: false when either is a NaN, true on two zeros of
    any sign, otherwise equality of the patterns. *)
Definition eqb (a b : double) : bool :=
  negb (is_nan a) && negb (is_nan b)
  && ((a mod 2 ^ 64 =? b mod 2 ^ 64) || (is_zero a && is_zero b)).

(** The pattern of a normal number with the given fields. *)
Definition of_fields (s e m : Z) : double :=
  Z.lor (Z.shiftl s 63) (Z.lor (Z.shiftl e 52) m).

(** [1.0] is sign 0, biased exponent 1023, mantissa 0: [0x3FF0000000000000]. *)
Definition one : double := of_fields 0 1023 0.
Definition zero : double := 0.

(** The number a finite pattern stands for, times [2^1075]: a normal
    number is [(-1)^s * (2^52 + m) * 2^(e - 1075)], a subnormal one
    [(-1)^s * m * 2^(-1074)]. *)
Definition scaled (d : double) : Z :=
  (1 - 2 * sign d)
  * (if exponent d =? 0 then 2 * mantissa d
     else (2 ^ 52 + mantissa d) * 2 ^ exponent d).

End Double.

(** Modelled from the spec: [struct varjo_CameraPropertyValue], declared in
    the missing [Varjo_types_mr.h]; the spec calls it a tagged union over
    bool, int and double plus a type tag, and the source reads the members
    [type], [value.boolValue], [value.intValue] and [value.doubleValue].
    The three members share the union's eight bytes, kept here as [value],
    [0 <= value < 2^64]; each member is a view of them. *)
Record varjo_CameraPropertyValue : Type := mkValue {
  type : varjo_CameraPropertyDataType;
  value : Z
}.

(** [value.intValue], an [int64_t]. *)
Definition intValue (v : varjo_CameraPropertyValue) : Z :=
  Int.to_int64 (value v).

(** [value.doubleValue], a [double]. *)
Definition doubleValue (v : varjo_CameraPropertyValue) : Double.double :=
  value v mod 2 ^ 64.

(** [value.boolValue], a [varjo_Bool]: the first four bytes, which on the
    little-endian targets of the SDK are the low-order ones. *)
Definition boolValue (v : varjo_CameraPropertyValue) : varjo_Bool :=
  Int.to_int (value v).

(** The values a client can build: a tag with the matching member written
    into zeroed storage. *)
Definition int_value (n : Z) : varjo_CameraPropertyValue :=
  mkValue varjo_CameraPropertyDataType_Int (n mod 2 ^ 64).
Definition double_value (d : Double.double) : varjo_CameraPropertyValue :=
  mkValue varjo_CameraPropertyDataType_Double (d mod 2 ^ 64).
Definition bool_value (b : varjo_Bool) : varjo_CameraPropertyValue :=
  mkValue varjo_CameraPropertyDataType_Bool (b mod 2 ^ 32).

(** A value-initialised element, as [std::vector] creates them. *)
Definition zero_value : varjo_CameraPropertyValue := mkValue 0 0.

(** The same payload under another tag. *)
Definition retag (tag : varjo_CameraPropertyDataType)
    (val : varjo_CameraPropertyValue) : varjo_CameraPropertyValue :=
  mkValue tag (value val).

(** ** [CameraManager::findPropertyValueIndex] and [findPropertyModeIndex] *)

(** One pass of the loop body: the [switch] on the tag of the searched
    value, comparing the member it selects.  The entry's own tag is not
    read.  A tag outside the three cases matches nothing. *)
Definition value_matches (propertyValue val : varjo_CameraPropertyValue) : bool :=
  if type propertyValue =? varjo_CameraPropertyDataType_Bool then
    boolValue propertyValue =? boolValue val
  else if type propertyValue =? varjo_CameraPropertyDataType_Double then
    Double.eqb (doubleValue propertyValue) (doubleValue val)
  else if type propertyValue =? varjo_CameraPropertyDataType_Int then
    intValue propertyValue =? intValue val
  else false.

(** [for (int i = ...; i < bound; ++i)] over the elements from index [i] on. *)
Fixpoint find_value_from (propertyValue : varjo_CameraPropertyValue)
    (rest : list varjo_CameraPropertyValue) (i bound : Z) : Z :=
  match rest with
  | [] => -1
  | val :: rest' =>
      if i <? bound then
        if value_matches propertyValue val then i
        else find_value_from propertyValue rest' (i + 1) bound
      else -1
  end.

Definition findPropertyValueIndex (propertyValue : varjo_CameraPropertyValue)
    (values : list varjo_CameraPropertyValue) : Z :=
  find_value_from propertyValue values 0
    (Int.to_int (Z.of_nat (length values))).

(** [std::find] followed by [std::distance]: the offset of the first equal
    element, or [None] for [end()]. *)
Fixpoint find_mode (mode : varjo_CameraPropertyMode)
    (modes : list varjo_CameraPropertyMode) : option nat :=
  match modes with
  | [] => None
  | m :: modes' =>
      if m =? mode then Some O
      else match find_mode mode modes' with
           | Some d => Some (S d)
           | None => None
           end
  end.

Definition findPropertyModeIndex (mode : varjo_CameraPropertyMode)
    (modes : list varjo_CameraPropertyMode) : Z :=
  match find_mode mode modes with
  | None => -1
  | Some d => Int.to_int (Z.of_nat d)
  end.

(** Modelled from the spec: [struct varjo_ChromaKeyConfig] of the missing
    [Varjo_types_mr.h]: a type tag and the HSV parameters, three doubles
    each. *)
Module ChromaKeyConfig.
Record varjo_ChromaKeyConfig : Type := mk {
  type : varjo_ChromaKeyType;
  targetColor : list Double.double;
  tolerance : list Double.double;
  falloff : list Double.double
}.
End ChromaKeyConfig.
Definition varjo_ChromaKeyConfig : Type := ChromaKeyConfig.varjo_ChromaKeyConfig.

(** ** The runtime as a collaborator *)

(** Modelled from the spec: the session entry points of [Varjo_mr.h] and
    [Varjo.h] that the two managers call (section 6 of the spec lists them:
    lock/unlock, count and list queries, get/set of mode, value and config,
    reset, last error).  A count is a number of entries.  The two list
    queries answer with the entries the runtime writes into the caller's
    buffer. *)
Inductive Call : Type :=
| varjo_Lock (lockType : varjo_LockType)
| varjo_Unlock (lockType : varjo_LockType)
| varjo_GetError
| varjo_MRGetCameraPropertyModeCount (prop : varjo_CameraPropertyType)
| varjo_MRGetCameraPropertyModes (prop : varjo_CameraPropertyType) (maxSize : Z)
| varjo_MRGetCameraPropertyMode (prop : varjo_CameraPropertyType)
| varjo_MRSetCameraPropertyMode (prop : varjo_CameraPropertyType)
    (mode : varjo_CameraPropertyMode)
| varjo_MRGetCameraPropertyConfigType (prop : varjo_CameraPropertyType)
| varjo_MRGetCameraPropertyValueCount (prop : varjo_CameraPropertyType)
| varjo_MRGetCameraPropertyValues (prop : varjo_CameraPropertyType) (maxSize : Z)
| varjo_MRGetCameraPropertyValue (prop : varjo_CameraPropertyType)
| varjo_MRSetCameraPropertyValue (prop : varjo_CameraPropertyType)
    (value : varjo_CameraPropertyValue)
| varjo_MRResetCameraProperties
| varjo_MRGetChromaKeyConfigCount
| varjo_MRGetChromaKeyConfig (index : Z)
| varjo_MRSetChromaKeyConfig (index : Z) (config : varjo_ChromaKeyConfig)
| varjo_MRSetChromaKey (enabled : varjo_Bool).

(** What each entry point returns. *)
Definition Resp (c : Call) : Type :=
  match c with
  | varjo_Lock _ => varjo_Bool
  | varjo_GetError => varjo_Error
  | varjo_MRGetCameraPropertyModeCount _ => nat
  | varjo_MRGetCameraPropertyModes _ _ => list varjo_CameraPropertyMode
  | varjo_MRGetCameraPropertyMode _ => varjo_CameraPropertyMode
  | varjo_MRGetCameraPropertyConfigType _ => varjo_CameraPropertyConfigType
  | varjo_MRGetCameraPropertyValueCount _ => nat
  | varjo_MRGetCameraPropertyValues _ _ => list varjo_CameraPropertyValue
  | varjo_MRGetCameraPropertyValue _ => varjo_CameraPropertyValue
  | varjo_MRGetChromaKeyConfigCount => Z
  | varjo_MRGetChromaKeyConfig _ => varjo_ChromaKeyConfig
  | varjo_Unlock _
  | varjo_MRSetCameraPropertyMode _ _
  | varjo_MRSetCameraPropertyValue _ _
  | varjo_MRResetCameraProperties
  | varjo_MRSetChromaKeyConfig _ _
  | varjo_MRSetChromaKey _ => unit
  end.

(** The calls that change the device configuration. *)
Definition is_mutation (c : Call) : bool :=
  match c with
  | varjo_MRSetCameraPropertyMode _ _
  | varjo_MRSetCameraPropertyValue _ _
  | varjo_MRResetCameraProperties
  | varjo_MRSetChromaKeyConfig _ _
  | varjo_MRSetChromaKey _ => true
  | _ => false
  end.

Inductive LogLevel : Type := LOGD | LOGI | LOGW | LOGE | CRITICAL.

(** A method body: a finite tree.  [Vis c k] issues the call [c] and goes on
    with [k] on its answer; [Log] writes a log line (the format string of
    the source, arguments left out); [Undefined] is a point the C++ standard
    gives no behaviour to, and nothing follows it. *)
Inductive Prog (A : Type) : Type :=
| Ret (a : A)
| Undefined
| Log (level : LogLevel) (message : string) (k : Prog A)
| Vis (c : Call) (k : Resp c -> Prog A).

Arguments Ret {A} a.
Arguments Undefined {A}.
Arguments Log {A} level message k.
Arguments Vis {A} c k.

Fixpoint bind {A B : Type} (m : Prog A) (f : A -> Prog B) : Prog B :=
  match m with
  | Ret a => f a
  | Undefined => Undefined
  | Log l s k => Log l s (bind k f)
  | Vis c k => Vis c (fun r => bind (k r) f)
  end.

Definition call (c : Call) : Prog (Resp c) := Vis c Ret.
Definition log (level : LogLevel) (message : string) : Prog unit :=
  Log level message (Ret tt).

Declare Scope prog_scope.
Delimit Scope prog_scope with prog.
Notation "x <- m ;; k" := (bind m (fun x => k))
  (at level 61, m at next level, right associativity) : prog_scope.
Notation "m ;; k" := (bind m (fun _ => k))
  (at level 61, right associativity) : prog_scope.
Open Scope prog_scope.

(** What a run leaves behind: the calls with their answers and the log
    lines, oldest first. *)
Inductive Event : Type :=
| Called (c : Call) (r : Resp c)
| Logged (level : LogLevel) (message : string).

Definition Trace := list Event.

(** How a run ends: the body returns a result, or it reaches [Undefined]
    and stops there. *)
Inductive Outcome (A : Type) : Type :=
| Returned (a : A)
| Crashed.

Arguments Returned {A} a.
Arguments Crashed {A}.

(** A device answers every call from its state and moves to a new state.
    Nothing more is asked of it: it may refuse the lock, report errors,
    and change its lists between two queries. *)
Definition Device (St : Type) : Type := forall c : Call, St -> Resp c * St.

Fixpoint run {St A : Type} (dev : Device St) (p : Prog A) (s : St)
  : Outcome A * St * Trace :=
  match p with
  | Ret a => (Returned a, s, [])
  | Undefined => (Crashed, s, [])
  | Log l m k =>
      let '(o, s', t) := run dev k s in (o, s', Logged l m :: t)
  | Vis c k =>
      let (r, s1) := dev c s in
      let '(o, s', t) := run dev (k r) s1 in (o, s', Called c r :: t)
  end.

Definition outcome {St A} (x : Outcome A * St * Trace) : Outcome A := fst (fst x).
Definition final {St A} (x : Outcome A * St * Trace) : St := snd (fst x).
Definition trace {St A} (x : Outcome A * St * Trace) : Trace := snd x.

(** The calls of a trace, in order, and those among them that mutate. *)
Fixpoint calls (t : Trace) : list Call :=
  match t with
  | [] => []
  | Called c _ :: t' => c :: calls t'
  | Logged _ _ :: t' => calls t'
  end.

Fixpoint mutations (t : Trace) : list Call :=
  match t with
  | [] => []
  | Called c _ :: t' => if is_mutation c then c :: mutations t' else mutations t'
  | Logged _ _ :: t' => mutations t'
  end.

(** Modelled from the spec: the macro [CHECK_VARJO_ERR] of the missing
    [Globals.hpp]; every session call is followed by a query of the last
    error, which is logged when there is one, and the macro yields the
    error code (the source compares it with [varjo_NoError]). *)
Definition CHECK_VARJO_ERR : Prog varjo_Error :=
  err <- call varjo_GetError ;;
  (if err =? varjo_NoError then Ret tt
   else log LOGE "Varjo error") ;;
  Ret err.

(** [v[index % v.size()]] for an [int] index: the index is converted to
    [size_t]; a remainder by zero has no defined behaviour, and neither has
    an access past the end. *)
Definition modulo_index {A : Type} (v : list A) (index : Z) : Prog A :=
  if Z.of_nat (length v) =? 0 then Undefined
  else match nth_error v (Z.to_nat (Int.to_size_t index mod Z.of_nat (length v))) with
       | Some x => Ret x
       | None => Undefined
       end.

(** A vector of [n] value-initialised elements after the runtime wrote
    [written] into it from the front. *)
Definition filled {A : Type} (n : nat) (dflt : A) (written : list A) : list A :=
  firstn n written ++ repeat dflt (n - length written).

(** ** [CameraManager]

    The class has one member, the session handle; the session is the device
    a body is run against.  [assert(false)] in the string conversions is
    compiled out (release build); log arguments are not kept.  An index is
    an [int]; [index + 1] is written as it stands, the sum staying below
    [2^31] for every vector whose size an [int32_t] count can give. *)

Module CameraManager.

Definition getPropertyModeList (propertyType : varjo_CameraPropertyType)
  : Prog (list varjo_CameraPropertyMode) :=
  count <- call (varjo_MRGetCameraPropertyModeCount propertyType) ;;
  written <- call (varjo_MRGetCameraPropertyModes propertyType
                     (Int.to_int (Z.of_nat count))) ;;
  CHECK_VARJO_ERR ;;
  Ret (filled count 0 written).

Definition getPropertyValueList (propertyType : varjo_CameraPropertyType)
  : Prog (list varjo_CameraPropertyValue) :=
  conf <- call (varjo_MRGetCameraPropertyConfigType propertyType) ;;
  CHECK_VARJO_ERR ;;
  if negb (conf =? varjo_CameraPropertyConfigType_List) then
    log LOGE "Expected a property list." ;;
    Ret []
  else
    valueCount <- call (varjo_MRGetCameraPropertyValueCount propertyType) ;;
    written <- call (varjo_MRGetCameraPropertyValues propertyType
                       (Int.to_int (Z.of_nat valueCount))) ;;
    CHECK_VARJO_ERR ;;
    Ret (filled valueCount zero_value written).

Definition setPropertyValueToModuloIndex
    (propertyType : varjo_CameraPropertyType) (index : Z) : Prog unit :=
  supportedValues <- getPropertyValueList propertyType ;;
  nextPropertyValue <- modulo_index supportedValues index ;;
  log LOGI "Setting the camera property manual value to: %s" ;;
  call (varjo_MRSetCameraPropertyValue propertyType nextPropertyValue) ;;
  CHECK_VARJO_ERR ;;
  Ret tt.

Definition setPropertyModeToModuloIndex
    (type : varjo_CameraPropertyType) (index : Z) : Prog unit :=
  supportedModes <- getPropertyModeList type ;;
  nextPropertyMode <- modulo_index supportedModes index ;;
  log LOGI "Setting the camera property mode to: %s" ;;
  (if nextPropertyMode =? varjo_CameraPropertyMode_Manual then
     setPropertyValueToModuloIndex type 0
   else Ret tt) ;;
  call (varjo_MRSetCameraPropertyMode type nextPropertyMode) ;;
  CHECK_VARJO_ERR ;;
  Ret tt.

Definition setAutoMode (propertyType : varjo_CameraPropertyType) : Prog unit :=
  modes <- getPropertyModeList propertyType ;;
  match find_mode varjo_CameraPropertyMode_Auto modes with
  | None =>
      log LOGW "Auto not supported for property: %s" ;;
      Ret tt
  | Some _ =>
      ret <- call (varjo_Lock varjo_LockType_Camera) ;;
      CHECK_VARJO_ERR ;;
      if ret =? varjo_False then
        log LOGE "Could not change mixed reality camera settings." ;;
        Ret tt
      else
        call (varjo_MRSetCameraPropertyMode propertyType
                varjo_CameraPropertyMode_Auto) ;;
        CHECK_VARJO_ERR ;;
        call (varjo_Unlock varjo_LockType_Camera) ;;
        CHECK_VARJO_ERR ;;
        Ret tt
  end.

(** Lines 152-161: "Otherwise set the next mode", reached from both the
    non-Manual case and the Manual case with the last value selected. *)
Definition applyNextMode (type : varjo_CameraPropertyType)
    (currentMode : varjo_CameraPropertyMode)
    (supportedModes : list varjo_CameraPropertyMode) : Prog unit :=
  let currentModeIndex := findPropertyModeIndex currentMode supportedModes in
  (if currentModeIndex =? -1 then
     log LOGE "Error finding current mode: %d"
   else
     setPropertyModeToModuloIndex type (currentModeIndex + 1)) ;;
  call (varjo_Unlock varjo_LockType_Camera) ;;
  CHECK_VARJO_ERR ;;
  Ret tt.

Definition applyNextModeOrValue (type : varjo_CameraPropertyType) : Prog unit :=
  ret <- call (varjo_Lock varjo_LockType_Camera) ;;
  CHECK_VARJO_ERR ;;
  if ret =? varjo_False then
    log LOGE "Could not change mixed reality camera settings." ;;
    Ret tt
  else
    currentMode <- call (varjo_MRGetCameraPropertyMode type) ;;
    supportedModes <- getPropertyModeList type ;;
    if currentMode =? varjo_CameraPropertyMode_Manual then
      currentValue <- call (varjo_MRGetCameraPropertyValue type) ;;
      supportedValues <- getPropertyValueList type ;;
      let currentValueIndex :=
        findPropertyValueIndex currentValue supportedValues in
      if currentValueIndex =? -1 then
        log LOGE "Error finding current value: %d" ;;
        call (varjo_Unlock varjo_LockType_Camera) ;;
        CHECK_VARJO_ERR ;;
        Ret tt
      else if currentValueIndex + 1
                <? Int.to_int (Z.of_nat (length supportedValues)) then
        setPropertyValueToModuloIndex type (currentValueIndex + 1) ;;
        call (varjo_Unlock varjo_LockType_Camera) ;;
        CHECK_VARJO_ERR ;;
        Ret tt
      else applyNextMode type currentMode supportedModes
    else applyNextMode type currentMode supportedModes.

Definition resetPropertiesToDefaults : Prog unit :=
  ret <- call (varjo_Lock varjo_LockType_Camera) ;;
  CHECK_VARJO_ERR ;;
  if ret =? varjo_False then
    log LOGE "Could not lock camera config for resetting camera properties." ;;
    Ret tt
  else
    call varjo_MRResetCameraProperties ;;
    CHECK_VARJO_ERR ;;
    call (varjo_Unlock varjo_LockType_Camera) ;;
    CHECK_VARJO_ERR ;;
    Ret tt.

End CameraManager.

(** ** [ChromaKeyManager]

    Besides the session the class keeps the config count and the two shadow
    flags; a method takes the object and returns it updated. *)

Module ChromaKeyManager.

(** Modelled from the spec: the data members, declared in the missing
    [ChromaKeyManager.hpp]; the spec gives the component two shadow booleans
    and a cached slot count, and the source names them. *)
Record ChromaKeyManager : Type := mk {
  m_count : Z;
  m_configLocked : bool;
  m_chromaKeyEnabled : bool
}.

Definition set_configLocked (this : ChromaKeyManager) (b : bool) :=
  mk (m_count this) b (m_chromaKeyEnabled this).
Definition set_chromaKeyEnabled (this : ChromaKeyManager) (b : bool) :=
  mk (m_count this) (m_configLocked this) b.

(** The macro [CHECK_CONFIG_LOCK]: a log line, and nothing else. *)
Definition CHECK_CONFIG_LOCK (this : ChromaKeyManager) : Prog unit :=
  if negb (m_configLocked this) then
    log LOGE "Config lock required for this action."
  else Ret tt.

Definition print (config : varjo_ChromaKeyConfig) : Prog unit :=
  if ChromaKeyConfig.type config =? varjo_ChromaKeyType_Disabled then
    log LOGD "%s type=%s"
  else if ChromaKeyConfig.type config =? varjo_ChromaKeyType_HSV then
    log LOGD "%s type=%s, color=(%.3f, %.2f, %.2f), tolerance=(%.2f, %.2f, %.2f), falloff=(%.2f, %.2f, %.2f)"
  else
    log LOGD "%s type=Unknown(%d)".

Definition lockConfig (this : ChromaKeyManager)
  : Prog (bool * ChromaKeyManager) :=
  log LOGD "Locking chroma key config." ;;
  if m_configLocked this then
    log LOGW "Config already locked." ;;
    Ret (m_configLocked this, this)
  else
    ret <- call (varjo_Lock varjo_LockType_ChromaKey) ;;
    let this := set_configLocked this (negb (ret =? 0)) in
    CHECK_VARJO_ERR ;;
    (if negb (m_configLocked this) then
       log LOGE "Getting chroma key config lock failed."
     else Ret tt) ;;
    Ret (m_configLocked this, this).

Definition unlockConfig (this : ChromaKeyManager) : Prog ChromaKeyManager :=
  log LOGD "Unlocking chroma key config." ;;
  if negb (m_configLocked this) then
    log LOGW "Config already unlocked." ;;
    Ret this
  else
    CHECK_CONFIG_LOCK this ;;
    call (varjo_Unlock varjo_LockType_ChromaKey) ;;
    CHECK_VARJO_ERR ;;
    Ret (set_configLocked this false).

Definition toggleChromaKeying (this : ChromaKeyManager) (enabled : bool)
  : Prog (bool * ChromaKeyManager) :=
  log LOGI "Toggle chroma keying: %s" ;;
  if Bool.eqb enabled (m_chromaKeyEnabled this) then
    log LOGW (if enabled then "Feature already enabled."
              else "Feature already disabled.") ;;
    Ret (false, this)
  else
    call (varjo_MRSetChromaKey (if enabled then varjo_True else varjo_False)) ;;
    err <- CHECK_VARJO_ERR ;;
    if err =? varjo_NoError then
      Ret (true, set_chromaKeyEnabled this enabled)
    else
      Ret (false, this).

Definition getConfig (this : ChromaKeyManager) (index : Z)
  : Prog varjo_ChromaKeyConfig :=
  config <- call (varjo_MRGetChromaKeyConfig index) ;;
  CHECK_VARJO_ERR ;;
  print config ;;
  Ret config.

Definition setConfig (this : ChromaKeyManager) (index : Z)
    (config : varjo_ChromaKeyConfig) : Prog bool :=
  print config ;;
  CHECK_CONFIG_LOCK this ;;
  call (varjo_MRSetChromaKeyConfig index config) ;;
  err <- CHECK_VARJO_ERR ;;
  Ret (err =? varjo_NoError).

End ChromaKeyManager.

(** ** A well-behaved session

    Modelled from the spec: the mock session of its design notes, a device
    whose mode list, config type and value list are fixed per property,
    that stores the mode and the manual value it is given, grants a lock
    unless another client holds it, and reports no error.  Nothing changes
    in it except through the calls. *)

Module Sim.

Record Session : Type := mk {
  lockedElsewhere : varjo_LockType -> bool;
  lockHeld : varjo_LockType -> bool;
  modes : varjo_CameraPropertyType -> list varjo_CameraPropertyMode;
  configType : varjo_CameraPropertyType -> varjo_CameraPropertyConfigType;
  values : varjo_CameraPropertyType -> list varjo_CameraPropertyValue;
  mode : varjo_CameraPropertyType -> varjo_CameraPropertyMode;
  value : varjo_CameraPropertyType -> varjo_CameraPropertyValue;
  defaultMode : varjo_CameraPropertyType -> varjo_CameraPropertyMode;
  defaultValue : varjo_CameraPropertyType -> varjo_CameraPropertyValue;
  chromaKeyConfigs : list varjo_ChromaKeyConfig;
  chromaKeyEnabled : bool
}.

Definition upd {A : Type} (f : Z -> A) (k : Z) (a : A) : Z -> A :=
  fun k' => if k' =? k then a else f k'.

Definition with_lockHeld (s : Session) (h : varjo_LockType -> bool) :=
  mk (lockedElsewhere s) h (modes s) (configType s) (values s) (mode s)
     (value s) (defaultMode s) (defaultValue s) (chromaKeyConfigs s)
     (chromaKeyEnabled s).
Definition with_mode (s : Session)
    (m : varjo_CameraPropertyType -> varjo_CameraPropertyMode) :=
  mk (lockedElsewhere s) (lockHeld s) (modes s) (configType s) (values s) m
     (value s) (defaultMode s) (defaultValue s) (chromaKeyConfigs s)
     (chromaKeyEnabled s).
Definition with_value (s : Session)
    (v : varjo_CameraPropertyType -> varjo_CameraPropertyValue) :=
  mk (lockedElsewhere s) (lockHeld s) (modes s) (configType s) (values s)
     (mode s) v (defaultMode s) (defaultValue s) (chromaKeyConfigs s)
     (chromaKeyEnabled s).
Definition with_chromaKeyConfigs (s : Session) (l : list varjo_ChromaKeyConfig) :=
  mk (lockedElsewhere s) (lockHeld s) (modes s) (configType s) (values s)
     (mode s) (value s) (defaultMode s) (defaultValue s) l
     (chromaKeyEnabled s).
Definition with_chromaKeyEnabled (s : Session) (b : bool) :=
  mk (lockedElsewhere s) (lockHeld s) (modes s) (configType s) (values s)
     (mode s) (value s) (defaultMode s) (defaultValue s)
     (chromaKeyConfigs s) b.

Fixpoint replace_nth {A : Type} (l : list A) (n : nat) (a : A) : list A :=
  match l, n with
  | [], _ => []
  | _ :: l', O => a :: l'
  | x :: l', S n' => x :: replace_nth l' n' a
  end.

Definition device : Device Session := fun c =>
  match c as c0 return Session -> Resp c0 * Session with
  | varjo_Lock t => fun s =>
      if lockedElsewhere s t || lockHeld s t then (varjo_False, s)
      else (varjo_True, with_lockHeld s (upd (lockHeld s) t true))
  | varjo_Unlock t => fun s =>
      (tt, with_lockHeld s (upd (lockHeld s) t false))
  | varjo_GetError => fun s => (varjo_NoError, s)
  | varjo_MRGetCameraPropertyModeCount p => fun s => (length (modes s p), s)
  | varjo_MRGetCameraPropertyModes p maxSize => fun s =>
      (firstn (Z.to_nat maxSize) (modes s p), s)
  | varjo_MRGetCameraPropertyMode p => fun s => (mode s p, s)
  | varjo_MRSetCameraPropertyMode p m => fun s =>
      (tt, with_mode s (upd (mode s) p m))
  | varjo_MRGetCameraPropertyConfigType p => fun s => (configType s p, s)
  | varjo_MRGetCameraPropertyValueCount p => fun s => (length (values s p), s)
  | varjo_MRGetCameraPropertyValues p maxSize => fun s =>
      (firstn (Z.to_nat maxSize) (values s p), s)
  | varjo_MRGetCameraPropertyValue p => fun s => (value s p, s)
  | varjo_MRSetCameraPropertyValue p v => fun s =>
      (tt, with_value s (upd (value s) p v))
  | varjo_MRResetCameraProperties => fun s =>
      (tt, with_value (with_mode s (defaultMode s)) (defaultValue s))
  | varjo_MRGetChromaKeyConfigCount => fun s =>
      (Z.of_nat (length (chromaKeyConfigs s)), s)
  | varjo_MRGetChromaKeyConfig i => fun s =>
      (nth (Z.to_nat i) (chromaKeyConfigs s)
         (ChromaKeyConfig.mk varjo_ChromaKeyType_Disabled [] [] []), s)
  | varjo_MRSetChromaKeyConfig i config => fun s =>
      (tt, with_chromaKeyConfigs s
             (replace_nth (chromaKeyConfigs s) (Z.to_nat i) config))
  | varjo_MRSetChromaKey enabled => fun s =>
      (tt, with_chromaKeyEnabled s (negb (enabled =? varjo_False)))
  end.

(** A session with one and the same configuration for every property. *)
Definition uniform (ms : list varjo_CameraPropertyMode)
    (conf : varjo_CameraPropertyConfigType)
    (vs : list varjo_CameraPropertyValue)
    (m : varjo_CameraPropertyMode) (v : varjo_CameraPropertyValue) : Session :=
  mk (fun _ => false) (fun _ => false) (fun _ => ms) (fun _ => conf)
     (fun _ => vs) (fun _ => m) (fun _ => v)
     (fun _ => m) (fun _ => v) [] false.

(** One call of [applyNextModeOrValue] on the session. *)
Definition advance (type : varjo_CameraPropertyType) (s : Session) : Session :=
  final (run device (CameraManager.applyNextModeOrValue type) s).

(** The pair the property shows: its mode and its manual value. *)
Definition shown (type : varjo_CameraPropertyType) (s : Session)
  : varjo_CameraPropertyMode * varjo_CameraPropertyValue :=
  (mode s type, value s type).

End Sim.

Definition three_modes : list varjo_CameraPropertyMode :=
  [varjo_CameraPropertyMode_Off; varjo_CameraPropertyMode_Auto;
   varjo_CameraPropertyMode_Manual].
Definition two_values : list varjo_CameraPropertyValue :=
  [int_value 100; int_value 200].
Definition manual_200 : Sim.Session :=
  Sim.uniform three_modes varjo_CameraPropertyConfigType_List two_values
    varjo_CameraPropertyMode_Manual (int_value 200).

(** ** Reasoning about runs *)

(** [wp p Q]: whatever the runtime answers, the outcome and the trace of
    [p] satisfy [Q]. *)
Fixpoint wp {A : Type} (p : Prog A) (Q : Outcome A -> Trace -> Prop) : Prop :=
  match p with
  | Ret a => Q (Returned a) []
  | Undefined => Q Crashed []
  | Log l m k => wp k (fun o t => Q o (Logged l m :: t))
  | Vis c k => forall r : Resp c, wp (k r) (fun o t => Q o (Called c r :: t))
  end.

(** ** The lock discipline, read off a trace *)

(** How many times the lock was released. *)
Fixpoint unlocks (lockType : varjo_LockType) (t : Trace) : nat :=
  match t with
  | [] => O
  | Called (varjo_Unlock l) _ :: t' =>
      if l =? lockType then S (unlocks lockType t') else unlocks lockType t'
  | _ :: t' => unlocks lockType t'
  end.

(** The answers to the requests for the lock, in order. *)
Fixpoint lock_answers (lockType : varjo_LockType) (t : Trace) : list varjo_Bool :=
  match t with
  | [] => []
  | Called c r :: t' =>
      match c as c0 return Resp c0 -> list varjo_Bool with
      | varjo_Lock l => fun granted =>
          if l =? lockType then granted :: lock_answers lockType t'
          else lock_answers lockType t'
      | _ => fun _ => lock_answers lockType t'
      end r
  | Logged _ _ :: t' => lock_answers lockType t'
  end.

(** How many of the requests were granted: the source takes every answer
    but [varjo_False] for a grant. *)
Definition grants (lockType : varjo_LockType) (t : Trace) : nat :=
  length (filter (fun g => negb (g =? varjo_False)) (lock_answers lockType t)).

Inductive LockPhase : Type := Free | Held.

(** One event seen by an observer of the camera lock.  A granted request
    takes the lock, a refused one leaves it free; a release needs the lock
    held; so does every mutating call; a request while the lock is held, or
    a call on another lock, is out of order.  [None] is a violation. *)
Definition lock_step (phase : LockPhase) (e : Event) : option LockPhase :=
  match e with
  | Logged _ _ => Some phase
  | Called c r =>
      match c as c0 return Resp c0 -> option LockPhase with
      | varjo_Lock l => fun granted =>
          if l =? varjo_LockType_Camera then
            match phase with
            | Free => if granted =? varjo_False then Some Free else Some Held
            | Held => None
            end
          else None
      | varjo_Unlock l => fun _ =>
          if l =? varjo_LockType_Camera then
            match phase with
            | Held => Some Free
            | Free => None
            end
          else None
      | c' => fun _ =>
          if is_mutation c' then
            match phase with
            | Held => Some Held
            | Free => None
            end
          else Some phase
      end r
  end.

Fixpoint discipline (phase : LockPhase) (t : Trace) : option LockPhase :=
  match t with
  | [] => Some phase
  | e :: t' =>
      match lock_step phase e with
      | Some phase' => discipline phase' t'
      | None => None
      end
  end.

(** The three mutating operations of [CameraManager]. *)
Inductive Operation : Type :=
| SetAutoMode (propertyType : varjo_CameraPropertyType)
| ApplyNextModeOrValue (type : varjo_CameraPropertyType)
| ResetPropertiesToDefaults.

Definition body (op : Operation) : Prog unit :=
  match op with
  | SetAutoMode p => CameraManager.setAutoMode p
  | ApplyNextModeOrValue p => CameraManager.applyNextModeOrValue p
  | ResetPropertiesToDefaults => CameraManager.resetPropertiesToDefaults
  end.

(** Operations one after the other, as a caller issues them. *)
Fixpoint sequence (ops : list Operation) : Prog unit :=
  match ops with
  | [] => Ret tt
  | op :: ops' => body op ;; sequence ops'
  end.

(** *** Traces of the helper methods *)

Fixpoint touches_lock (t : Trace) : bool :=
  match t with
  | [] => false
  | Called (varjo_Lock _) _ :: _ | Called (varjo_Unlock _) _ :: _ => true
  | _ :: t' => touches_lock t'
  end.

(** A trace that neither touches a lock nor mutates, and one that only
    leaves the locks alone. *)
Definition reads_only (t : Trace) : Prop :=
  touches_lock t = false /\ mutations t = [].
Definition leaves_locks (t : Trace) : Prop := touches_lock t = false.

(** What is asked of one operation.  It requests the camera lock at most
    once.  Without a request, or with the request refused, it returns having
    issued no mutating call and no release.  With the request granted, a run
    that returns has released the lock exactly once; a run that stops at
    undefined behaviour has not released it. *)
Definition operation_spec (o : Outcome unit) (t : Trace) : Prop :=
  match lock_answers varjo_LockType_Camera t with
  | [] =>
      o = Returned tt /\ mutations t = []
      /\ unlocks varjo_LockType_Camera t = O
  | [granted] =>
      if granted =? varjo_False then
        o = Returned tt /\ mutations t = []
        /\ unlocks varjo_LockType_Camera t = O
      else
        (o = Returned tt -> unlocks varjo_LockType_Camera t = 1%nat)
        /\ (o = Crashed -> unlocks varjo_LockType_Camera t = O)
  | _ => False
  end.

(** What is asked of a trace as a whole: the observer of the lock never
    sees a violation, and when the run returns the lock is free again and
    there are as many releases as grants. *)
Definition disciplined (o : Outcome unit) (t : Trace) : Prop :=
  exists phase,
    discipline Free t = Some phase
    /\ (o = Returned tt ->
        phase = Free
        /\ unlocks varjo_LockType_Camera t = grants varjo_LockType_Camera t).

(** The answers to the error queries, in order. *)
Fixpoint errors (t : Trace) : list varjo_Error :=
  match t with
  | [] => []
  | Called c r :: t' =>
      match c as c0 return Resp c0 -> list varjo_Error with
      | varjo_GetError => fun err => err :: errors t'
      | _ => fun _ => errors t'
      end r
  | Logged _ _ :: t' => errors t'
  end.

(** A session in trouble: it refuses every lock, has nothing to list, and
    answers every error query with [err]. *)
Definition failing (err : varjo_Error) : Device unit := fun c =>
  match c as c0 return unit -> Resp c0 * unit with
  | varjo_Lock _ => fun s => (varjo_False, s)
  | varjo_Unlock _ => fun s => (tt, s)
  | varjo_GetError => fun s => (err, s)
  | varjo_MRGetCameraPropertyModeCount _ => fun s => (O, s)
  | varjo_MRGetCameraPropertyModes _ _ => fun s => ([], s)
  | varjo_MRGetCameraPropertyMode _ => fun s => (varjo_CameraPropertyMode_Off, s)
  | varjo_MRSetCameraPropertyMode _ _ => fun s => (tt, s)
  | varjo_MRGetCameraPropertyConfigType _ => fun s =>
      (varjo_CameraPropertyConfigType_Range, s)
  | varjo_MRGetCameraPropertyValueCount _ => fun s => (O, s)
  | varjo_MRGetCameraPropertyValues _ _ => fun s => ([], s)
  | varjo_MRGetCameraPropertyValue _ => fun s => (zero_value, s)
  | varjo_MRSetCameraPropertyValue _ _ => fun s => (tt, s)
  | varjo_MRResetCameraProperties => fun s => (tt, s)
  | varjo_MRGetChromaKeyConfigCount => fun s => (0, s)
  | varjo_MRGetChromaKeyConfig _ => fun s =>
      (ChromaKeyConfig.mk varjo_ChromaKeyType_Disabled [] [] [], s)
  | varjo_MRSetChromaKeyConfig _ _ => fun s => (tt, s)
  | varjo_MRSetChromaKey _ => fun s => (tt, s)
  end.

Definition disabled_config : varjo_ChromaKeyConfig :=
  ChromaKeyConfig.mk varjo_ChromaKeyType_Disabled [] [] [].

(** ** The cycle of one property on a well-behaved session *)

Module Cycle.

(** "Otherwise set the next mode", on the pair shown. *)
Definition next_mode (ms : list varjo_CameraPropertyMode)
    (vs : list varjo_CameraPropertyValue)
    (m : varjo_CameraPropertyMode) (v : varjo_CameraPropertyValue)
  : varjo_CameraPropertyMode * varjo_CameraPropertyValue :=
  let j := findPropertyModeIndex m ms in
  if j =? -1 then (m, v)
  else
    let m' := nth (Z.to_nat ((j + 1) mod Z.of_nat (length ms))) ms 0 in
    if m' =? varjo_CameraPropertyMode_Manual then (m', nth 0 vs zero_value)
    else (m', v).

(** The pair shown after one [applyNextModeOrValue], for a property whose
    value list is a discrete list: the next value while in Manual mode
    with values left, else the next mode, with the first value when that
    mode is Manual. *)
Definition next (ms : list varjo_CameraPropertyMode)
    (vs : list varjo_CameraPropertyValue)
    (st : varjo_CameraPropertyMode * varjo_CameraPropertyValue)
  : varjo_CameraPropertyMode * varjo_CameraPropertyValue :=
  let (m, v) := st in
  if m =? varjo_CameraPropertyMode_Manual then
    let i := findPropertyValueIndex v vs in
    if i =? -1 then (m, v)
    else if i + 1 <? Z.of_nat (length vs) then
      (m, nth (Z.to_nat (i + 1)) vs zero_value)
    else next_mode ms vs m v
  else next_mode ms vs m v.

(** The number of steps of the cycle: one per mode, and with Manual among
    the modes one per value in place of the one for Manual. *)
Definition period (ms : list varjo_CameraPropertyMode)
    (vs : list varjo_CameraPropertyValue) : nat :=
  match find_mode varjo_CameraPropertyMode_Manual ms with
  | Some _ => (length ms - 1 + length vs)%nat
  | None => length ms
  end.

(** The count the spec gives: [|modes| * max(|values|, 1)]. *)
Definition stated_period (ms : list varjo_CameraPropertyMode)
    (vs : list varjo_CameraPropertyValue) : nat :=
  (length ms * Nat.max (length vs) 1)%nat.

End Cycle.

(** The session is ready for a client: nobody holds the camera lock, and
    the lists of the property are short enough for an [int32_t] count. *)
Definition ready (type : varjo_CameraPropertyType) (s : Sim.Session) : Prop :=
  Sim.lockedElsewhere s varjo_LockType_Camera = false
  /\ Sim.lockHeld s varjo_LockType_Camera = false
  /\ Z.of_nat (length (Sim.modes s type)) < 2 ^ 31
  /\ Z.of_nat (length (Sim.values s type)) < 2 ^ 31.

(** The value list [getPropertyValueList] obtains from the session: the
    values of a property configured as a discrete list, and none otherwise. *)
Definition offered (type : varjo_CameraPropertyType) (s : Sim.Session)
  : list varjo_CameraPropertyValue :=
  if Sim.configType s type =? varjo_CameraPropertyConfigType_List
  then Sim.values s type else [].

(** [ensures dev p s Q]: the run of [p] on the device [dev] from the state
    [s] ends in an outcome, a state and a trace that satisfy [Q]. *)
Definition ensures {St A : Type} (dev : Device St) (p : Prog A) (s : St)
    (Q : Outcome A -> St -> Trace -> Prop) : Prop :=
  Q (outcome (run dev p s)) (final (run dev p s)) (trace (run dev p s)).

(** Two states of one and the same device: the same lists, config types
    and foreign locks. *)
Definition same_device (s s' : Sim.Session) : Prop :=
  Sim.lockedElsewhere s' = Sim.lockedElsewhere s
  /\ Sim.modes s' = Sim.modes s
  /\ Sim.configType s' = Sim.configType s
  /\ Sim.values s' = Sim.values s.

(** The sessions of the scenarios: modes Off, Auto, Manual and values
    100, 200, seen in Manual mode at 100, in Manual mode at 200 (defined
    above), and in Auto mode; and a property with modes Auto, Manual whose
    values are a range, not a list. *)
Definition manual_100 : Sim.Session :=
  Sim.uniform three_modes varjo_CameraPropertyConfigType_List two_values
    varjo_CameraPropertyMode_Manual (int_value 100).
Definition auto_200 : Sim.Session :=
  Sim.uniform three_modes varjo_CameraPropertyConfigType_List two_values
    varjo_CameraPropertyMode_Auto (int_value 200).
Definition auto_range : Sim.Session :=
  Sim.uniform [varjo_CameraPropertyMode_Auto; varjo_CameraPropertyMode_Manual]
    varjo_CameraPropertyConfigType_Range [] varjo_CameraPropertyMode_Auto
    zero_value.

(** ** The order of the two set-calls *)

(** An observer of the value queries and the mutating calls.  It keeps the
    latest count answered, the vector the client holds after the latest
    values query (for which property, and its elements), and the latest
    mutating call.  Each call setting a mode to Manual must come right
    after, as far as mutating calls go, a call setting the value of the
    same property to the first element of that vector. *)
Fixpoint preset_before_manual (count : nat)
    (fetched : varjo_CameraPropertyType * list varjo_CameraPropertyValue)
    (last : option Call) (t : Trace) : Prop :=
  match t with
  | [] => True
  | Logged _ _ :: t' => preset_before_manual count fetched last t'
  | Called c r :: t' =>
      match c as c0 return Resp c0 -> Prop with
      | varjo_MRGetCameraPropertyValueCount _ => fun n =>
          preset_before_manual n fetched last t'
      | varjo_MRGetCameraPropertyValues q _ => fun written =>
          preset_before_manual count (q, filled count zero_value written)
            last t'
      | varjo_MRSetCameraPropertyMode p m => fun _ =>
          (m = varjo_CameraPropertyMode_Manual ->
           exists v,
             last = Some (varjo_MRSetCameraPropertyValue p v)
             /\ fst fetched = p
             /\ nth_error (snd fetched) 0 = Some v)
          /\ preset_before_manual count fetched
               (Some (varjo_MRSetCameraPropertyMode p m)) t'
      | c' => fun _ =>
          preset_before_manual count fetched
            (if is_mutation c' then Some c' else last) t'
      end r
  end.

(** Whether a trace sets a mode at all. *)
Fixpoint sets_mode (t : Trace) : bool :=
  match t with
  | [] => false
  | Called (varjo_MRSetCameraPropertyMode _ _) _ :: _ => true
  | _ :: t' => sets_mode t'
  end.

(** The pair shown at position [q] of the cycle when Manual is the mode of
    index [a]: the modes before Manual, then Manual with each value in
    turn, then the modes after Manual.  Outside Manual the value shown is
    whatever value [w] is stored. *)
Definition state_at (ms : list varjo_CameraPropertyMode)
    (vs : list varjo_CameraPropertyValue) (a q : nat)
    (w : varjo_CameraPropertyValue)
  : varjo_CameraPropertyMode * varjo_CameraPropertyValue :=
  if (q <? a)%nat then (nth q ms 0, w)
  else if (q <? a + length vs)%nat then
    (varjo_CameraPropertyMode_Manual, nth (q - a) vs zero_value)
  else (nth (q + 1 - length vs) ms 0, w).

(** Every value of the list is found at its own index: the list has no
    two entries that compare equal and none that differs from itself. *)
Definition values_distinct (vs : list varjo_CameraPropertyValue) : Prop :=
  forall i, (i < length vs)%nat ->
            findPropertyValueIndex (nth i vs zero_value) vs = Z.of_nat i.

(** The mutating calls one [applyNextModeOrValue] can issue for the
    property [p]: none, the next value alone, the next mode alone, or the
    first value followed by the mode Manual. *)
Definition one_step_of_the_cycle (p : varjo_CameraPropertyType)
    (cs : list Call) : Prop :=
  cs = []
  \/ (exists v, cs = [varjo_MRSetCameraPropertyValue p v])
  \/ (exists m, cs = [varjo_MRSetCameraPropertyMode p m])
  \/ (exists v,
        cs = [varjo_MRSetCameraPropertyValue p v;
              varjo_MRSetCameraPropertyMode p varjo_CameraPropertyMode_Manual]).

(** ** The string conversions and the print methods of [CameraManager]

    These methods only read the session.  Three things they lean on are
    defined outside the repository's sources and are taken as given: the
    text [operator<<] of the stream library writes for an integer and, in
    fixed notation with a precision, for a double; what [assert(false)]
    does (nothing in a release build, termination in a debug build); and
    the macro [CRITICAL] of the missing [Globals.hpp].  A [Host] supplies
    them; the last two are bodies of their own, so that a host may stop the
    program there. *)

Record Host : Type := mkHost {
  show_integer : Z -> string;
  show_fixed : nat -> Double.double -> string;
  assert_false : Prog unit;
  critical : string -> Prog unit
}.

(** A host whose [assert] and [CRITICAL] do not talk to the session. *)
Definition quiet (h : Host) : Prop :=
  wp (assert_false h) (fun _ t => calls t = [])
  /\ forall message, wp (critical h message) (fun _ t => calls t = []).

(** The release build writing to a log: [assert] is compiled out and
    [CRITICAL] is one more log line.  Numbers are not spelled out. *)
Definition release_host : Host :=
  mkHost (fun _ => "<integer>"%string) (fun _ _ => "<double>"%string) (Ret tt)
         (fun message => log CRITICAL message).

Module Printing.

Definition propertyTypeToString (h : Host)
    (propertyType : varjo_CameraPropertyType) : Prog string :=
  if propertyType =? varjo_CameraPropertyType_ExposureTime then
    Ret "Exposure Time"%string
  else if propertyType =? varjo_CameraPropertyType_ISOValue then
    Ret "ISO Value"%string
  else if propertyType =? varjo_CameraPropertyType_WhiteBalance then
    Ret "White Balance"%string
  else if propertyType =? varjo_CameraPropertyType_FlickerCompensation then
    Ret "Flicker Compensation"%string
  else if propertyType =? varjo_CameraPropertyType_Sharpness then
    Ret "Sharpness"%string
  else
    assert_false h ;;
    Ret "Unknown"%string.

Definition propertyModeToString (h : Host)
    (propertyMode : varjo_CameraPropertyMode) : Prog string :=
  if propertyMode =? varjo_CameraPropertyMode_Off then Ret "Off"%string
  else if propertyMode =? varjo_CameraPropertyMode_Auto then Ret "Auto"%string
  else if propertyMode =? varjo_CameraPropertyMode_Manual then Ret "Manual"%string
  else
    assert_false h ;;
    Ret "Unknown"%string.

(** In the Bool case the source has
    [ss << propertyValue.value.boolValue ? "true" : "false"], where [<<]
    binds tighter than [?:]: the integer is written to the stream and the
    conditional's result is dropped.  In the default case nothing is
    written and the stream is returned empty. *)
Definition propertyValueToString (h : Host)
    (propertyValue : varjo_CameraPropertyValue) : Prog string :=
  if type propertyValue =? varjo_CameraPropertyDataType_Bool then
    Ret (show_integer h (boolValue propertyValue))
  else if type propertyValue =? varjo_CameraPropertyDataType_Int then
    Ret (show_integer h (intValue propertyValue))
  else if type propertyValue =? varjo_CameraPropertyDataType_Double then
    Ret (show_fixed h 2 (doubleValue propertyValue))
  else
    critical h "Invalid type: %lld" ;;
    Ret EmptyString.

Definition getPropertyAsString (h : Host) (type : varjo_CameraPropertyType)
  : Prog string :=
  mode <- call (varjo_MRGetCameraPropertyMode type) ;;
  CHECK_VARJO_ERR ;;
  if mode =? varjo_CameraPropertyMode_Manual then
    propVal <- call (varjo_MRGetCameraPropertyValue type) ;;
    CHECK_VARJO_ERR ;;
    propertyValueToString h propVal
  else
    propertyModeToString h mode.

(** The character ['\n'] that opens two of the format strings. *)
Definition newline : Ascii.ascii := Ascii.ascii_of_nat 10.

(** A range-based [for] over a vector. *)
Fixpoint for_each {A : Type} (l : list A) (body : A -> Prog unit) : Prog unit :=
  match l with
  | [] => Ret tt
  | x :: l' => body x ;; for_each l' body
  end.

(** The initializer list of [printCurrentPropertyConfig]. *)
Definition property_types : list varjo_CameraPropertyType :=
  [varjo_CameraPropertyType_ExposureTime; varjo_CameraPropertyType_ISOValue;
   varjo_CameraPropertyType_WhiteBalance;
   varjo_CameraPropertyType_FlickerCompensation;
   varjo_CameraPropertyType_Sharpness].

(** The two arguments of the log call are evaluated before it, in an order
    the language leaves open; only the second talks to the session. *)
Definition printCurrentPropertyConfig (h : Host) : Prog unit :=
  log LOGI (String newline "Current camera config") ;;
  for_each property_types (fun propertyType =>
    propertyTypeToString h propertyType ;;
    getPropertyAsString h propertyType ;;
    log LOGI "  %s: %s").

Definition printSupportedPropertyModesAndValues (h : Host)
    (propertyType : varjo_CameraPropertyType) : Prog unit :=
  modes <- CameraManager.getPropertyModeList propertyType ;;
  values <- CameraManager.getPropertyValueList propertyType ;;
  propertyTypeToString h propertyType ;;
  log LOGI (String newline
              "  Camera properties: %s (mode count: %d) (manual value count: %d)") ;;
  (if (0 <? length modes)%nat then
     log LOGI "    Supported modes:" ;;
     for_each modes (fun mode =>
       propertyModeToString h mode ;;
       log LOGI "        %s: %lld")
   else Ret tt) ;;
  (if (0 <? length values)%nat then
     log LOGI "    Supported manual values:" ;;
     for_each values (fun value =>
       propertyValueToString h value ;;
       log LOGI "        %s")
   else Ret tt).

Definition printSupportedProperties (h : Host) : Prog unit :=
  log LOGI "Camera properties:" ;;
  printSupportedPropertyModesAndValues h varjo_CameraPropertyType_ExposureTime ;;
  printSupportedPropertyModesAndValues h varjo_CameraPropertyType_ISOValue ;;
  printSupportedPropertyModesAndValues h varjo_CameraPropertyType_WhiteBalance ;;
  printSupportedPropertyModesAndValues h
    varjo_CameraPropertyType_FlickerCompensation ;;
  printSupportedPropertyModesAndValues h varjo_CameraPropertyType_Sharpness.

End Printing.

(** What a trace asks about the current configuration: the properties whose
    mode it queries, those whose value it queries, and those whose mode was
    answered Manual, each in the order of the calls. *)
Fixpoint mode_queries (t : Trace) : list varjo_CameraPropertyType :=
  match t with
  | [] => []
  | Called (varjo_MRGetCameraPropertyMode p) _ :: t' => p :: mode_queries t'
  | _ :: t' => mode_queries t'
  end.

Fixpoint value_queries (t : Trace) : list varjo_CameraPropertyType :=
  match t with
  | [] => []
  | Called (varjo_MRGetCameraPropertyValue p) _ :: t' => p :: value_queries t'
  | _ :: t' => value_queries t'
  end.

Fixpoint manual_answers (t : Trace) : list varjo_CameraPropertyType :=
  match t with
  | [] => []
  | Called c r :: t' =>
      match c as c0 return Resp c0 -> list varjo_CameraPropertyType with
      | varjo_MRGetCameraPropertyMode p => fun mode =>
          if mode =? varjo_CameraPropertyMode_Manual
          then p :: manual_answers t' else manual_answers t'
      | _ => fun _ => manual_answers t'
      end r
  | Logged _ _ :: t' => manual_answers t'
  end.

(** A stretch of trace that asks nothing about the current configuration. *)
Definition asks_nothing (t : Trace) : Prop :=
  mode_queries t = [] /\ value_queries t = [] /\ manual_answers t = [].

(** ** Sequences of [ChromaKeyManager] calls *)

(** The public methods of the object, with their arguments. *)
Inductive Method : Type :=
| LockConfig
| UnlockConfig
| ToggleChromaKeying (enabled : bool)
| GetConfig (index : Z)
| SetConfig (index : Z) (config : varjo_ChromaKeyConfig).

(** A caller that invokes a method and drops what it returns. *)
Definition invoke (m : Method) (this : ChromaKeyManager.ChromaKeyManager)
  : Prog ChromaKeyManager.ChromaKeyManager :=
  match m with
  | LockConfig =>
      r <- ChromaKeyManager.lockConfig this ;; Ret (snd r)
  | UnlockConfig => ChromaKeyManager.unlockConfig this
  | ToggleChromaKeying enabled =>
      r <- ChromaKeyManager.toggleChromaKeying this enabled ;; Ret (snd r)
  | GetConfig index =>
      ChromaKeyManager.getConfig this index ;; Ret this
  | SetConfig index config =>
      ChromaKeyManager.setConfig this index config ;; Ret this
  end.

Fixpoint invoke_all (ms : list Method)
    (this : ChromaKeyManager.ChromaKeyManager)
  : Prog ChromaKeyManager.ChromaKeyManager :=
  match ms with
  | [] => Ret this
  | m :: ms' => this' <- invoke m this ;; invoke_all ms' this'
  end.

(** An observer of the chroma key lock that keeps what the answers so far
    tell the client: whether it holds the lock.  A request is in order only
    while the client does not hold the lock, and its answer decides; a
    release is in order only while it does; a call on another lock is out
    of order.  [None] is a violation. *)
Definition chroma_lock_step (held : bool) (e : Event) : option bool :=
  match e with
  | Logged _ _ => Some held
  | Called c r =>
      match c as c0 return Resp c0 -> option bool with
      | varjo_Lock l => fun granted =>
          if l =? varjo_LockType_ChromaKey then
            if held then None else Some (negb (granted =? varjo_False))
          else None
      | varjo_Unlock l => fun _ =>
          if l =? varjo_LockType_ChromaKey then
            if held then Some false else None
          else None
      | _ => fun _ => Some held
      end r
  end.

Fixpoint chroma_lock (held : bool) (t : Trace) : option bool :=
  match t with
  | [] => Some held
  | e :: t' =>
      match chroma_lock_step held e with
      | Some held' => chroma_lock held' t'
      | None => None
      end
  end.

(** The object and the well-behaved session agree: on who holds the chroma
    key lock and on whether chroma keying is on. *)
Definition in_sync (this : ChromaKeyManager.ChromaKeyManager)
    (s : Sim.Session) : Prop :=
  ChromaKeyManager.m_configLocked this = Sim.lockHeld s varjo_LockType_ChromaKey
  /\ ChromaKeyManager.m_chromaKeyEnabled this = Sim.chromaKeyEnabled s.

(** ** Failures the manager reports

    Whether a trace holds a failure report of the manager itself: a line at
    level [LOGE] or [LOGW] other than the one [CHECK_VARJO_ERR] writes for
    an error of the session. *)
Fixpoint reports_failure (t : Trace) : bool :=
  match t with
  | [] => false
  | Logged level message :: t' =>
      match level with
      | LOGE | LOGW =>
          negb (String.eqb message "Varjo error") || reports_failure t'
      | _ => reports_failure t'
      end
  | Called _ _ :: t' => reports_failure t'
  end.

(** ** Properties that cannot be advanced

    A property of the well-behaved session from which [applyNextModeOrValue]
    finds no way on: it is in Manual mode with a value that the search does
    not find among the values offered, or in another mode that is not
    among the supported ones. *)
Definition stuck (type : varjo_CameraPropertyType) (s : Sim.Session) : Prop :=
  (Sim.mode s type = varjo_CameraPropertyMode_Manual
   /\ findPropertyValueIndex (Sim.value s type) (offered type s) = -1)
  \/ (Sim.mode s type <> varjo_CameraPropertyMode_Manual
      /\ ~ In (Sim.mode s type) (Sim.modes s type)).

(** A mutating call that leaves the mode and the value of the property
    [type] alone. *)
Definition spares (type : varjo_CameraPropertyType) (c : Call) : Prop :=
  match c with
  | varjo_MRSetCameraPropertyMode p _
  | varjo_MRSetCameraPropertyValue p _ => p <> type
  | varjo_MRResetCameraProperties => False
  | _ => True
  end.

(** ** Construction of a [ChromaKeyManager]

    The constructor stores the session and the count it answers; no error
    query follows.  The two flags get their in-class initial values, which
    the missing [ChromaKeyManager.hpp] holds: they are taken as given. *)
Definition construct (configLocked chromaKeyEnabled : bool)
  : Prog ChromaKeyManager.ChromaKeyManager :=
  count <- call varjo_MRGetChromaKeyConfigCount ;;
  Ret (ChromaKeyManager.mk count configLocked chromaKeyEnabled).

(** The answers to the queries of the config count, in order. *)
Fixpoint count_answers (t : Trace) : list Z :=
  match t with
  | [] => []
  | Called c r :: t' =>
      match c as c0 return Resp c0 -> list Z with
      | varjo_MRGetChromaKeyConfigCount => fun count => count :: count_answers t'
      | _ => fun _ => count_answers t'
      end r
  | Logged _ _ :: t' => count_answers t'
  end.

(** ** What a run is told about the current value and the value list

    The answers to the queries of the current mode and of the current
    value, in the order of the calls. *)
Fixpoint mode_answers (t : Trace) : list varjo_CameraPropertyMode :=
  match t with
  | [] => []
  | Called c r :: t' =>
      match c as c0 return Resp c0 -> list varjo_CameraPropertyMode with
      | varjo_MRGetCameraPropertyMode _ => fun mode => mode :: mode_answers t'
      | _ => fun _ => mode_answers t'
      end r
  | Logged _ _ :: t' => mode_answers t'
  end.

Fixpoint value_answers (t : Trace) : list varjo_CameraPropertyValue :=
  match t with
  | [] => []
  | Called c r :: t' =>
      match c as c0 return Resp c0 -> list varjo_CameraPropertyValue with
      | varjo_MRGetCameraPropertyValue _ => fun v => v :: value_answers t'
      | _ => fun _ => value_answers t'
      end r
  | Logged _ _ :: t' => value_answers t'
  end.

(** The value vectors [getPropertyValueList] hands to its callers, in
    order, read off the answers: the empty vector for a config type other
    than List, and else the vector of the count answered last, filled with
    what the values query wrote. *)
Fixpoint value_fetches (count : nat) (t : Trace)
  : list (list varjo_CameraPropertyValue) :=
  match t with
  | [] => []
  | Called c r :: t' =>
      match c as c0
        return Resp c0 -> list (list varjo_CameraPropertyValue) with
      | varjo_MRGetCameraPropertyConfigType _ => fun conf =>
          if conf =? varjo_CameraPropertyConfigType_List
          then value_fetches count t'
          else [] :: value_fetches count t'
      | varjo_MRGetCameraPropertyValueCount _ => fun n => value_fetches n t'
      | varjo_MRGetCameraPropertyValues _ _ => fun written =>
          filled count zero_value written :: value_fetches count t'
      | _ => fun _ => value_fetches count t'
      end r
  | Logged _ _ :: t' => value_fetches count t'
  end.

(** A stretch of trace without any of these queries. *)
Definition tells_nothing (t : Trace) : Prop :=
  forall count rest,
    mode_answers (t ++ rest) = mode_answers rest
    /\ value_answers (t ++ rest) = value_answers rest
    /\ value_fetches count (t ++ rest) = value_fetches count rest.

(** ** A session whose value list changes

    The spec lets the value list change between two queries.  This session
    is the well-behaved one, except that once a client has fetched the
    values, every value list shrinks to its first entry. *)
Definition shrink_values (s : Sim.Session) : Sim.Session :=
  Sim.mk (Sim.lockedElsewhere s) (Sim.lockHeld s) (Sim.modes s)
    (Sim.configType s) (fun p => firstn 1 (Sim.values s p)) (Sim.mode s)
    (Sim.value s) (Sim.defaultMode s) (Sim.defaultValue s)
    (Sim.chromaKeyConfigs s) (Sim.chromaKeyEnabled s).

Definition shrinking : Device Sim.Session := fun c =>
  match c as c0 return Sim.Session -> Resp c0 * Sim.Session with
  | varjo_MRGetCameraPropertyValues p maxSize => fun s =>
      (firstn (Z.to_nat maxSize) (Sim.values s p), shrink_values s)
  | c' => Sim.device c'
  end.

(** ** Empty lists

    Whether some list query of a trace left the client with an empty
    vector: a count of zero, or a config type other than List. *)
Fixpoint fetched_empty (t : Trace) : bool :=
  match t with
  | [] => false
  | Called c r :: t' =>
      match c as c0 return Resp c0 -> bool with
      | varjo_MRGetCameraPropertyModeCount _ => fun n =>
          (n =? 0)%nat || fetched_empty t'
      | varjo_MRGetCameraPropertyValueCount _ => fun n =>
          (n =? 0)%nat || fetched_empty t'
      | varjo_MRGetCameraPropertyConfigType _ => fun conf =>
          negb (conf =? varjo_CameraPropertyConfigType_List)
          || fetched_empty t'
      | _ => fun _ => fetched_empty t'
      end r
  | Logged _ _ :: t' => fetched_empty t'
  end.

(** * Properties *)

(** ** [findPropertyValueIndex] *)

Example find_int_200 :
  findPropertyValueIndex (int_value 200) [int_value 100; int_value 200] = 1.
Proof. reflexivity. Qed.

Example double_one_is_one : Double.scaled Double.one = 1 * 2 ^ 1075.
Proof. reflexivity. Qed.

Example double_one_pattern : Double.one = 4607182418800017408.
Proof. reflexivity. Qed.

Lemma to_int_small (x : Z) : 0 <= x < 2 ^ 31 -> Int.to_int x = x.
Proof.
  intros H. unfold Int.to_int.
  rewrite Z.mod_small; lia.
Qed.

Lemma value_matches_retag (tag : varjo_CameraPropertyDataType)
    (propertyValue val : varjo_CameraPropertyValue) :
  value_matches propertyValue (retag tag val) = value_matches propertyValue val.
Proof. reflexivity. Qed.

Lemma find_value_from_retag (tag : varjo_CameraPropertyDataType)
    (propertyValue : varjo_CameraPropertyValue)
    (rest : list varjo_CameraPropertyValue) :
  forall i bound,
    find_value_from propertyValue (map (retag tag) rest) i bound
    = find_value_from propertyValue rest i bound.
Proof.
  induction rest as [|val rest IH]; intros i bound; simpl; [reflexivity|].
  rewrite value_matches_retag, IH. reflexivity.
Qed.

(** The loop from index [i] on, when the bound lies past the last element:
    the first matching element, or -1 when none matches. *)
Lemma find_value_from_first (propertyValue : varjo_CameraPropertyValue)
    (rest : list varjo_CameraPropertyValue) :
  forall i bound,
    0 <= i -> i + Z.of_nat (length rest) <= bound ->
    let r := find_value_from propertyValue rest i bound in
    (r = -1 /\ forall val, In val rest -> value_matches propertyValue val = false)
    \/ (i <= r < i + Z.of_nat (length rest)
        /\ (exists val, nth_error rest (Z.to_nat (r - i)) = Some val
                        /\ value_matches propertyValue val = true)
        /\ forall j val, (j < Z.to_nat (r - i))%nat ->
                         nth_error rest j = Some val ->
                         value_matches propertyValue val = false).
Proof.
  induction rest as [|val rest IH]; intros i bound Hi Hb; simpl.
  - left. split; [reflexivity|]. intros val [].
  - simpl length in Hb. rewrite Nat2Z.inj_succ in Hb.
    destruct (i <? bound) eqn:Hlt; [|apply Z.ltb_ge in Hlt; lia].
    destruct (value_matches propertyValue val) eqn:Hm.
    + right. rewrite Z.sub_diag. simpl. split; [lia|]. split.
      * exists val. now split.
      * intros j val' Hj. lia.
    + destruct (IH (i + 1) bound ltac:(lia) ltac:(lia)) as [[Hr Hall]|(Hr & (v & Hv & Hmv) & Hbefore)].
      * left. split; [exact Hr|]. intros val' [<-|Hin]; auto.
      * right. split; [lia|].
        replace (Z.to_nat (find_value_from propertyValue rest (i + 1) bound - i))
          with (S (Z.to_nat (find_value_from propertyValue rest (i + 1) bound - (i + 1))))
          by lia.
        split.
        -- exists v. now split.
        -- intros [|j] val' Hj Hnth; simpl in Hnth.
           ++ now inversion Hnth; subst.
           ++ apply (Hbefore j); [lia|exact Hnth].
Qed.

(** C2, as stated, fails: the entry [int(0x3FF0000000000000)] carries the
    tag Int, the searched [double(1.0)] the tag Double, and the search
    answers index 0, since the eight bytes of the entry read as a double
    are 1.0. *)
Lemma double_one_matches_int_entry :
  ~ (forall (propertyValue : varjo_CameraPropertyValue)
            (values : list varjo_CameraPropertyValue),
        (forall val, In val values -> type val <> type propertyValue) ->
        findPropertyValueIndex propertyValue values = -1).
Proof.
  intros H.
  specialize (H (double_value Double.one) [int_value 4607182418800017408]).
  assert (Htags : forall val,
             In val [int_value 4607182418800017408] ->
             type val <> type (double_value Double.one)).
  { intros val [<-|[]]. simpl. discriminate. }
  specialize (H Htags). vm_compute in H. discriminate.
Qed.

Example double_one_among_int_entries :
  findPropertyValueIndex (double_value Double.one)
    [int_value 7; int_value 4607182418800017408] = 1
  /\ findPropertyValueIndex (double_value Double.zero) [int_value 0] = 0
  /\ findPropertyValueIndex (bool_value varjo_True) [int_value 1] = 0.
Proof. repeat split. Qed.

(** C2, amended.  [findPropertyValueIndex] compares, entry by entry, the
    union member that the tag of the searched value selects, and answers
    the index of the first entry for which the comparison holds, or -1
    when it holds for none.  The tag of an entry is never read: giving all
    entries another tag does not change the answer. *)
Theorem findPropertyValueIndex_first_match_by_searched_tag :
  forall (propertyValue : varjo_CameraPropertyValue)
         (values : list varjo_CameraPropertyValue),
    Z.of_nat (length values) < 2 ^ 31 ->
    let r := findPropertyValueIndex propertyValue values in
    (forall tag,
        findPropertyValueIndex propertyValue (map (retag tag) values) = r)
    /\ ((r = -1
         /\ forall val, In val values ->
                        value_matches propertyValue val = false)
        \/ (0 <= r < Z.of_nat (length values)
            /\ (exists val, nth_error values (Z.to_nat r) = Some val
                            /\ value_matches propertyValue val = true)
            /\ forall j val, (j < Z.to_nat r)%nat ->
                             nth_error values j = Some val ->
                             value_matches propertyValue val = false)).
Proof.
  intros propertyValue values Hlen r; subst r.
  unfold findPropertyValueIndex. split.
  - intros tag. now rewrite length_map, find_value_from_retag.
  - rewrite to_int_small by lia.
    pose proof (find_value_from_first propertyValue values 0
                  (Z.of_nat (length values)) ltac:(lia) ltac:(lia)) as H.
    cbv zeta in H. rewrite Z.sub_0_r in H. exact H.
Qed.

Lemma findPropertyValueIndex_witness :
  Z.of_nat (length [int_value 100; int_value 200]) < 2 ^ 31
  /\ let r := findPropertyValueIndex (int_value 200)
                [int_value 100; int_value 200] in
     (forall tag,
         findPropertyValueIndex (int_value 200)
           (map (retag tag) [int_value 100; int_value 200]) = r)
     /\ ((r = -1
          /\ forall val, In val [int_value 100; int_value 200] ->
                         value_matches (int_value 200) val = false)
         \/ (0 <= r < Z.of_nat (length [int_value 100; int_value 200])
             /\ (exists val,
                    nth_error [int_value 100; int_value 200] (Z.to_nat r)
                    = Some val
                    /\ value_matches (int_value 200) val = true)
             /\ forall j val, (j < Z.to_nat r)%nat ->
                              nth_error [int_value 100; int_value 200] j
                              = Some val ->
                              value_matches (int_value 200) val = false)).
Proof.
  split; [reflexivity|].
  apply (findPropertyValueIndex_first_match_by_searched_tag (int_value 200)
           [int_value 100; int_value 200]).
  reflexivity.
Defined.

(** ** Runs and [wp] *)

Lemma run_bind {St A B : Type} (dev : Device St) (m : Prog A)
    (f : A -> Prog B) (s : St) :
  run dev (bind m f) s =
  match run dev m s with
  | (Returned a, s1, t1) =>
      let '(o, s2, t2) := run dev (f a) s1 in (o, s2, t1 ++ t2)
  | (Crashed, s1, t1) => (Crashed, s1, t1)
  end.
Proof.
  revert s; induction m as [a| |l msg k IH|c k IH]; intros s; simpl.
  - destruct (run dev (f a) s) as [[o s2] t2]; reflexivity.
  - reflexivity.
  - rewrite IH. destruct (run dev k s) as [[[a|] s1] t1]; simpl; trivial.
    destruct (run dev (f a) s1) as [[o s2] t2]; reflexivity.
  - destruct (dev c s) as [r s1]. rewrite IH.
    destruct (run dev (k r) s1) as [[[a|] s2] t1]; simpl; trivial.
    destruct (run dev (f a) s2) as [[o s3] t2]; reflexivity.
Qed.

Lemma wp_mono {A : Type} (p : Prog A) :
  forall Q Q' : Outcome A -> Trace -> Prop,
    (forall o t, Q o t -> Q' o t) -> wp p Q -> wp p Q'.
Proof.
  induction p as [a| |l m k IH|c k IH]; simpl; intros Q Q' HQ H; auto.
  - eapply IH; [|exact H]. intros; auto.
  - intros r. eapply IH; [|exact (H r)]. intros; auto.
Qed.

Lemma wp_bind {A B : Type} (m : Prog A) (f : A -> Prog B) :
  forall Q : Outcome B -> Trace -> Prop,
    wp m (fun o t1 =>
            match o with
            | Returned a => wp (f a) (fun o' t2 => Q o' (t1 ++ t2))
            | Crashed => Q Crashed t1
            end) ->
    wp (bind m f) Q.
Proof.
  induction m as [a| |l msg k IH|c k IH]; simpl; intros Q H; auto.
Qed.

Lemma wp_sound {St A : Type} (dev : Device St) (p : Prog A) :
  forall (Q : Outcome A -> Trace -> Prop) (s : St),
    wp p Q -> Q (outcome (run dev p s)) (trace (run dev p s)).
Proof.
  unfold outcome, trace.
  induction p as [a| |l m k IH|c k IH]; simpl; intros Q s H; auto.
  - specialize (IH _ s H). destruct (run dev k s) as [[o s'] t]; exact IH.
  - destruct (dev c s) as [r s1]. specialize (IH r _ s1 (H r)).
    destruct (run dev (k r) s1) as [[o s'] t]; exact IH.
Qed.

(** A step of a proof by [wp]: the helper satisfies [P], and the rest is
    shown for whatever satisfies [P]. *)
Lemma wp_bind_post {A B : Type} (m : Prog A) (f : A -> Prog B)
    (P : Outcome A -> Trace -> Prop) (Q : Outcome B -> Trace -> Prop) :
  wp m P ->
  (forall o t1, P o t1 ->
     match o with
     | Returned a => wp (f a) (fun o' t2 => Q o' (t1 ++ t2))
     | Crashed => Q Crashed t1
     end) ->
  wp (bind m f) Q.
Proof.
  intros Hm Hf. apply wp_bind. eapply wp_mono; [|exact Hm]. exact Hf.
Qed.

Lemma wp_call_bind {B : Type} (c : Call) (f : Resp c -> Prog B)
    (Q : Outcome B -> Trace -> Prop) :
  (forall r, wp (f r) (fun o t => Q o (Called c r :: t))) ->
  wp (bind (call c) f) Q.
Proof. intros H; simpl; exact H. Qed.

Lemma wp_log_bind {B : Type} (l : LogLevel) (m : string) (f : unit -> Prog B)
    (Q : Outcome B -> Trace -> Prop) :
  wp (f tt) (fun o t => Q o (Logged l m :: t)) ->
  wp (bind (log l m) f) Q.
Proof. intros H; simpl; exact H. Qed.

Lemma wp_ret_bind {A B : Type} (a : A) (f : A -> Prog B)
    (Q : Outcome B -> Trace -> Prop) :
  wp (f a) Q -> wp (bind (Ret a) f) Q.
Proof. intros H; exact H. Qed.

Ltac wp_call := apply wp_call_bind; intro.
Ltac wp_ret := apply wp_ret_bind.
Ltac wp_log := apply wp_log_bind.

Ltac wp_if :=
  match goal with
  | |- wp (if ?b then _ else _) _ => destruct b eqn:?
  | |- wp (match ?x with _ => _ end) _ => destruct x eqn:?
  | |- wp (bind (if ?b then _ else _) _) _ => destruct b eqn:?
  end.

(** ** Traces under concatenation *)

Lemma mutations_app (t1 t2 : Trace) :
  mutations (t1 ++ t2) = mutations t1 ++ mutations t2.
Proof.
  induction t1 as [|[c r|l m] t1 IH]; simpl; [reflexivity| |exact IH].
  destruct (is_mutation c); simpl; now rewrite IH.
Qed.

Lemma touches_lock_app (t1 t2 : Trace) :
  touches_lock (t1 ++ t2) = touches_lock t1 || touches_lock t2.
Proof.
  induction t1 as [|[c r|l m] t1 IH]; simpl; [reflexivity| |exact IH].
  destruct c; simpl; auto.
Qed.

Lemma unlocks_app (l : varjo_LockType) (t1 t2 : Trace) :
  unlocks l (t1 ++ t2) = (unlocks l t1 + unlocks l t2)%nat.
Proof.
  induction t1 as [|[c r|lv m] t1 IH]; simpl; [reflexivity| |exact IH].
  destruct c; simpl; try exact IH.
  destruct (lockType =? l); simpl; now rewrite IH.
Qed.

Lemma lock_answers_app (l : varjo_LockType) (t1 t2 : Trace) :
  lock_answers l (t1 ++ t2) = lock_answers l t1 ++ lock_answers l t2.
Proof.
  induction t1 as [|[c r|lv m] t1 IH]; simpl; [reflexivity| |exact IH].
  destruct c; simpl; try exact IH.
  destruct (lockType =? l); simpl; now rewrite IH.
Qed.

Lemma grants_app (l : varjo_LockType) (t1 t2 : Trace) :
  grants l (t1 ++ t2) = (grants l t1 + grants l t2)%nat.
Proof. unfold grants. now rewrite lock_answers_app, filter_app, length_app. Qed.

Lemma discipline_app (phase : LockPhase) (t1 t2 : Trace) :
  discipline phase (t1 ++ t2) =
  match discipline phase t1 with
  | Some phase' => discipline phase' t2
  | None => None
  end.
Proof.
  revert phase; induction t1 as [|e t1 IH]; intros phase; simpl; [reflexivity|].
  destruct (lock_step phase e); [apply IH|reflexivity].
Qed.

Lemma leaves_locks_unlocks (l : varjo_LockType) (t : Trace) :
  leaves_locks t -> unlocks l t = O.
Proof.
  unfold leaves_locks.
  induction t as [|[c r|lv m] t IH]; simpl; [reflexivity| |exact IH].
  destruct c; simpl; try discriminate; exact IH.
Qed.

Lemma leaves_locks_answers (l : varjo_LockType) (t : Trace) :
  leaves_locks t -> lock_answers l t = [].
Proof.
  unfold leaves_locks.
  induction t as [|[c r|lv m] t IH]; simpl; [reflexivity| |exact IH].
  destruct c; simpl; try discriminate; exact IH.
Qed.

Lemma leaves_locks_grants (l : varjo_LockType) (t : Trace) :
  leaves_locks t -> grants l t = O.
Proof. intros H. unfold grants. now rewrite leaves_locks_answers. Qed.

Lemma leaves_locks_held (t : Trace) :
  leaves_locks t -> discipline Held t = Some Held.
Proof.
  unfold leaves_locks.
  induction t as [|[c r|lv m] t IH]; simpl; [reflexivity| |exact IH].
  destruct c; simpl; try discriminate; exact IH.
Qed.

Lemma reads_only_discipline (phase : LockPhase) (t : Trace) :
  reads_only t -> discipline phase t = Some phase.
Proof.
  unfold reads_only. intros [Hl Hm]; revert Hl Hm.
  induction t as [|[c r|lv m] t IH]; simpl; [reflexivity| |exact IH].
  destruct c; simpl; try discriminate; exact IH.
Qed.

Lemma reads_only_leaves_locks (t : Trace) : reads_only t -> leaves_locks t.
Proof. now intros [H _]. Qed.

Lemma reads_only_mutations (t : Trace) : reads_only t -> mutations t = [].
Proof. now intros [_ H]. Qed.

Lemma reads_only_app (t1 t2 : Trace) :
  reads_only t1 -> reads_only t2 -> reads_only (t1 ++ t2).
Proof.
  intros [H1 H2] [H3 H4]. split.
  - now rewrite touches_lock_app, H1, H3.
  - now rewrite mutations_app, H2, H4.
Qed.

Lemma leaves_locks_app (t1 t2 : Trace) :
  leaves_locks t1 -> leaves_locks t2 -> leaves_locks (t1 ++ t2).
Proof.
  unfold leaves_locks. intros H1 H2. now rewrite touches_lock_app, H1, H2.
Qed.

Lemma reads_only_nil : reads_only [].
Proof. now split. Qed.

Lemma leaves_locks_nil : leaves_locks [].
Proof. reflexivity. Qed.

Lemma reads_only_cons (e : Event) (t : Trace) :
  reads_only [e] -> reads_only t -> reads_only (e :: t).
Proof. intros H1 H2. exact (reads_only_app [e] t H1 H2). Qed.

Lemma leaves_locks_cons (e : Event) (t : Trace) :
  leaves_locks [e] -> leaves_locks t -> leaves_locks (e :: t).
Proof. intros H1 H2. exact (leaves_locks_app [e] t H1 H2). Qed.

(** Goals [reads_only] and [leaves_locks] over a trace put together from
    events and the traces of helpers. *)
Ltac trace_class :=
  rewrite ?app_nil_r;
  repeat
    (try assumption;
     match goal with
     | |- reads_only [] => apply reads_only_nil
     | |- leaves_locks [] => apply leaves_locks_nil
     | H : reads_only ?t |- leaves_locks ?t => exact (reads_only_leaves_locks t H)
     | |- reads_only (_ :: _) =>
         apply reads_only_cons; [solve [split; reflexivity]|]
     | |- leaves_locks (_ :: _) => apply leaves_locks_cons; [reflexivity|]
     | |- reads_only (_ ++ _) => apply reads_only_app
     | |- leaves_locks (_ ++ _) => apply leaves_locks_app
     end).

Lemma wp_CHECK_VARJO_ERR :
  wp CHECK_VARJO_ERR (fun o t => (exists e, o = Returned e) /\ reads_only t).
Proof.
  unfold CHECK_VARJO_ERR. wp_call. wp_if; simpl; (split; [eauto|now split]).
Qed.

Ltac wp_check :=
  eapply wp_bind_post;
  [apply wp_CHECK_VARJO_ERR
  |let o := fresh "o" in let t := fresh "t" in
   let e := fresh "e" in let Hq := fresh "Hcheck" in
   intros o t [[e ->] Hq]].

Lemma wp_getPropertyModeList (p : varjo_CameraPropertyType) :
  wp (CameraManager.getPropertyModeList p)
     (fun o t => (exists l, o = Returned l) /\ reads_only t).
Proof.
  unfold CameraManager.getPropertyModeList.
  wp_call. wp_call. wp_check. simpl. split; [eauto|trace_class].
Qed.

Lemma wp_getPropertyValueList (p : varjo_CameraPropertyType) :
  wp (CameraManager.getPropertyValueList p)
     (fun o t => (exists l, o = Returned l) /\ reads_only t).
Proof.
  unfold CameraManager.getPropertyValueList.
  wp_call. wp_check. wp_if.
  - wp_log. simpl. split; [eauto|trace_class].
  - wp_call. wp_call. wp_check. simpl. split; [eauto|trace_class].
Qed.

Ltac wp_helper lemma :=
  eapply wp_bind_post;
  [apply lemma
  |let o := fresh "o" in let t := fresh "t" in
   let H := fresh "Hhelper" in intros o t H; cbv beta in H].

Lemma wp_modulo_index {A : Type} (v : list A) (index : Z) :
  wp (modulo_index v index) (fun o t => t = []).
Proof.
  unfold modulo_index. wp_if; [reflexivity|]. wp_if; reflexivity.
Qed.

Lemma wp_setPropertyValueToModuloIndex (p : varjo_CameraPropertyType) (i : Z) :
  wp (CameraManager.setPropertyValueToModuloIndex p i)
     (fun o t => leaves_locks t).
Proof.
  unfold CameraManager.setPropertyValueToModuloIndex.
  wp_helper wp_getPropertyValueList. destruct Hhelper as [[l ->] Hl].
  wp_helper (@wp_modulo_index varjo_CameraPropertyValue). subst.
  destruct o as [v|]; [|simpl; trace_class].
  wp_log. wp_call. wp_check. simpl. trace_class.
Qed.

Lemma wp_setPropertyModeToModuloIndex (p : varjo_CameraPropertyType) (i : Z) :
  wp (CameraManager.setPropertyModeToModuloIndex p i)
     (fun o t => leaves_locks t).
Proof.
  unfold CameraManager.setPropertyModeToModuloIndex.
  wp_helper wp_getPropertyModeList. destruct Hhelper as [[l ->] Hl].
  wp_helper (@wp_modulo_index varjo_CameraPropertyMode). subst.
  destruct o as [m|]; [|simpl; trace_class].
  wp_log. wp_if.
  - wp_helper wp_setPropertyValueToModuloIndex.
    destruct o as [[]|]; [|simpl; trace_class].
    wp_call. wp_check. simpl. trace_class.
  - wp_ret. wp_call. wp_check. simpl. trace_class.
Qed.

(** ** The lock discipline of [CameraManager] *)

(** Measures of a trace put together from events and helper traces. *)
Ltac trace_eval :=
  repeat
    (simpl;
     rewrite ?lock_answers_app, ?unlocks_app, ?mutations_app, ?discipline_app,
       ?grants_app, ?app_nil_r;
     repeat match goal with
       | |- context [lock_answers ?l ?t] =>
           is_var t; rewrite (leaves_locks_answers l t) by trace_class
       | |- context [grants ?l ?t] =>
           is_var t; rewrite (leaves_locks_grants l t) by trace_class
       | |- context [unlocks ?l ?t] =>
           is_var t; rewrite (leaves_locks_unlocks l t) by trace_class
       | |- context [mutations ?t] =>
           is_var t; rewrite (reads_only_mutations t) by trace_class
       | |- context [discipline ?ph ?t] =>
           is_var t;
           first [ rewrite (reads_only_discipline ph t) by trace_class
                 | rewrite (leaves_locks_held t) by trace_class ]
       | H : (?b =? ?c) = _ |- context [?b =? ?c] => rewrite H
       end).

Ltac finish_spec :=
  unfold operation_spec, disciplined, grants; trace_eval;
  repeat split; try reflexivity; try discriminate; eauto.

Lemma wp_resetPropertiesToDefaults :
  wp CameraManager.resetPropertiesToDefaults
     (fun o t => operation_spec o t /\ disciplined o t).
Proof.
  unfold CameraManager.resetPropertiesToDefaults.
  wp_call. wp_check. wp_if.
  - wp_log. simpl wp. finish_spec.
  - wp_call. wp_check. wp_call. wp_check. simpl wp. finish_spec.
Qed.

Lemma wp_setAutoMode (p : varjo_CameraPropertyType) :
  wp (CameraManager.setAutoMode p)
     (fun o t => operation_spec o t /\ disciplined o t).
Proof.
  unfold CameraManager.setAutoMode.
  wp_helper wp_getPropertyModeList. destruct Hhelper as [[l ->] Hl].
  wp_if.
  - wp_call. wp_check. wp_if.
    + wp_log. simpl wp. finish_spec.
    + wp_call. wp_check. wp_call. wp_check. simpl wp. finish_spec.
  - wp_log. simpl wp. finish_spec.
Qed.

Lemma wp_applyNextMode (p : varjo_CameraPropertyType)
    (currentMode : varjo_CameraPropertyMode)
    (supportedModes : list varjo_CameraPropertyMode) :
  wp (CameraManager.applyNextMode p currentMode supportedModes)
     (fun o t =>
        lock_answers varjo_LockType_Camera t = []
        /\ match o with
           | Returned _ =>
               discipline Held t = Some Free
               /\ unlocks varjo_LockType_Camera t = 1%nat
           | Crashed =>
               discipline Held t = Some Held
               /\ unlocks varjo_LockType_Camera t = O
           end).
Proof.
  unfold CameraManager.applyNextMode.
  wp_if.
  - wp_log. wp_call. wp_check. simpl wp. trace_eval. auto.
  - wp_helper wp_setPropertyModeToModuloIndex.
    destruct o as [[]|].
    + wp_call. wp_check. simpl wp. trace_eval. auto.
    + trace_eval. auto.
Qed.

Lemma wp_applyNextModeOrValue (p : varjo_CameraPropertyType) :
  wp (CameraManager.applyNextModeOrValue p)
     (fun o t => operation_spec o t /\ disciplined o t).
Proof.
  unfold CameraManager.applyNextModeOrValue.
  wp_call. wp_check. wp_if.
  { wp_log. simpl wp. finish_spec. }
  wp_call. wp_helper wp_getPropertyModeList.
  destruct Hhelper as [[supportedModes ->] Hmodes].
  assert (Hnext : forall tm, reads_only tm ->
    wp (CameraManager.applyNextMode p r0 supportedModes)
      (fun o' t2 =>
         operation_spec o'
           (Called (varjo_Lock varjo_LockType_Camera) r
            :: t ++ Called (varjo_MRGetCameraPropertyMode p) r0 :: tm ++ t2)
         /\ disciplined o'
           (Called (varjo_Lock varjo_LockType_Camera) r
            :: t ++ Called (varjo_MRGetCameraPropertyMode p) r0 :: tm ++ t2))).
  { intros tm Htm. eapply wp_mono; [|apply wp_applyNextMode].
    intros o t2 [Ha Hd]. unfold operation_spec, disciplined, grants.
    trace_eval. rewrite Ha. simpl.
    destruct o as [[]|]; destruct Hd as [Hd Hu]; rewrite Hd, Hu;
      repeat split; try reflexivity; try discriminate; eauto.
    exists Held; split; [reflexivity|discriminate]. }
  wp_if.
  - wp_call. wp_helper wp_getPropertyValueList.
    destruct Hhelper as [[supportedValues ->] Hvalues].
    wp_if.
    + wp_log. wp_call. wp_check. simpl wp. finish_spec.
    + wp_if.
      * wp_helper wp_setPropertyValueToModuloIndex.
        destruct o as [[]|].
        -- wp_call. wp_check. simpl wp. finish_spec.
        -- finish_spec. exists Held; split; [reflexivity|discriminate].
      * eapply wp_mono; cycle 1.
        -- apply (Hnext (t0 ++ Called (varjo_MRGetCameraPropertyValue p) r1 :: t1)).
           trace_class.
        -- intros o tt0. cbv beta. rewrite <- !app_assoc. simpl. intros H; exact H.
  - exact (Hnext t0 Hmodes).
Qed.

Lemma wp_body (op : Operation) :
  wp (body op) (fun o t => operation_spec o t /\ disciplined o t).
Proof.
  destruct op; simpl body.
  - apply wp_setAutoMode.
  - apply wp_applyNextModeOrValue.
  - apply wp_resetPropertiesToDefaults.
Qed.

Lemma disciplined_app (o : Outcome unit) (t1 t2 : Trace) :
  disciplined (Returned tt) t1 -> disciplined o t2 -> disciplined o (t1 ++ t2).
Proof.
  intros (ph1 & Hd1 & H1) (ph2 & Hd2 & H2).
  destruct (H1 eq_refl) as [-> Hu1].
  exists ph2. rewrite discipline_app, Hd1. split; [exact Hd2|].
  intros Ho. destruct (H2 Ho) as [-> Hu2].
  split; [reflexivity|]. rewrite unlocks_app, grants_app. lia.
Qed.

Lemma wp_sequence (ops : list Operation) : wp (sequence ops) disciplined.
Proof.
  induction ops as [|op ops IH]; simpl sequence.
  - simpl. exists Free. repeat split.
  - eapply wp_bind_post; [apply wp_body|].
    intros [[]|] t1 [_ Hd].
    + eapply wp_mono; [|exact IH].
      intros o t2 H2. now apply disciplined_app.
    + exact Hd.
Qed.

Lemma wp_setAutoMode_returns (p : varjo_CameraPropertyType) :
  wp (CameraManager.setAutoMode p) (fun o t => o = Returned tt).
Proof.
  unfold CameraManager.setAutoMode.
  wp_helper wp_getPropertyModeList. destruct Hhelper as [[l ->] Hl].
  wp_if.
  - wp_call. wp_check. wp_if.
    + wp_log. reflexivity.
    + wp_call. wp_check. wp_call. wp_check. reflexivity.
  - wp_log. reflexivity.
Qed.

Lemma wp_resetPropertiesToDefaults_returns :
  wp CameraManager.resetPropertiesToDefaults (fun o t => o = Returned tt).
Proof.
  unfold CameraManager.resetPropertiesToDefaults.
  wp_call. wp_check. wp_if.
  - wp_log. reflexivity.
  - wp_call. wp_check. wp_call. wp_check. reflexivity.
Qed.

(** X26.  Whatever the runtime answers, each of [setAutoMode],
    [applyNextModeOrValue] and [resetPropertiesToDefaults] asks for the
    camera lock at most once; when the lock is refused (or not asked for)
    the operation returns with no mutating call and no release issued; when
    it is granted, every run that returns has released it exactly once, and
    a run that stops at an undefined access has released nothing.
    [setAutoMode] and [resetPropertiesToDefaults] always return.  Over any
    sequence of operations no mutating call and no release happens outside
    a grant, and a sequence that returns has as many releases as grants and
    leaves the lock free. *)
Theorem camera_lock_released_on_every_return :
  forall (St : Type) (dev : Device St) (s : St),
    (forall op : Operation,
        operation_spec (outcome (run dev (body op) s))
                       (trace (run dev (body op) s)))
    /\ (forall p : varjo_CameraPropertyType,
          outcome (run dev (CameraManager.setAutoMode p) s) = Returned tt)
    /\ outcome (run dev CameraManager.resetPropertiesToDefaults s) = Returned tt
    /\ (forall ops : list Operation,
          disciplined (outcome (run dev (sequence ops) s))
                      (trace (run dev (sequence ops) s))).
Proof.
  intros St dev s. split; [|split; [|split]].
  - intros op.
    exact (proj1 (wp_sound dev (body op) _ s (wp_body op))).
  - intros p.
    exact (wp_sound dev (CameraManager.setAutoMode p) _ s
             (wp_setAutoMode_returns p)).
  - exact (wp_sound dev CameraManager.resetPropertiesToDefaults _ s
             wp_resetPropertiesToDefaults_returns).
  - intros ops. exact (wp_sound dev (sequence ops) _ s (wp_sequence ops)).
Qed.

(** On the failing session the lock is refused: the call returns after the
    request and its error query, with nothing mutated and nothing released. *)
Example refused_lock_on_the_failing_session :
  let r := run (failing varjo_NoError)
             (CameraManager.applyNextModeOrValue
                varjo_CameraPropertyType_ExposureTime) tt in
  outcome r = Returned tt
  /\ calls (trace r) = [varjo_Lock varjo_LockType_Camera; varjo_GetError]
  /\ lock_answers varjo_LockType_Camera (trace r) = [varjo_False].
Proof. repeat split. Qed.

(** ** [ChromaKeyManager] *)

(** C7.  [toggleChromaKeying(enabled)] with [enabled] equal to the shadow
    flag returns false, leaves the object as it is and issues no call at
    all.  With [enabled] different it issues one call to the device,
    [varjo_MRSetChromaKey], and then asks the session for the error of that
    call.  When the error is [varjo_NoError] it returns true and the shadow
    flag of the object is [enabled] from then on; otherwise it returns false
    and the shadow flag is what it was.  The lock flag and the cached count
    are untouched either way. *)
Theorem toggleChromaKeying_spec :
  forall (St : Type) (dev : Device St) (s : St)
         (this : ChromaKeyManager.ChromaKeyManager) (enabled : bool),
    let r := run dev (ChromaKeyManager.toggleChromaKeying this enabled) s in
    if Bool.eqb enabled (ChromaKeyManager.m_chromaKeyEnabled this) then
      outcome r = Returned (false, this) /\ calls (trace r) = []
    else
      exists err this',
        calls (trace r)
        = [varjo_MRSetChromaKey (if enabled then varjo_True else varjo_False);
           varjo_GetError]
        /\ mutations (trace r)
           = [varjo_MRSetChromaKey (if enabled then varjo_True else varjo_False)]
        /\ errors (trace r) = [err]
        /\ outcome r = Returned (err =? varjo_NoError, this')
        /\ this' = (if err =? varjo_NoError
                    then ChromaKeyManager.set_chromaKeyEnabled this enabled
                    else this)
        /\ ChromaKeyManager.m_chromaKeyEnabled this'
           = (if err =? varjo_NoError then enabled
              else ChromaKeyManager.m_chromaKeyEnabled this)
        /\ ChromaKeyManager.m_configLocked this'
           = ChromaKeyManager.m_configLocked this
        /\ ChromaKeyManager.m_count this' = ChromaKeyManager.m_count this.
Proof.
  intros St dev s this enabled r; subst r.
  apply (wp_sound dev (ChromaKeyManager.toggleChromaKeying this enabled)
           (fun o t =>
              if Bool.eqb enabled (ChromaKeyManager.m_chromaKeyEnabled this) then
                o = Returned (false, this) /\ calls t = []
              else
                exists err this',
                  calls t
                  = [varjo_MRSetChromaKey
                       (if enabled then varjo_True else varjo_False);
                     varjo_GetError]
                  /\ mutations t
                     = [varjo_MRSetChromaKey
                          (if enabled then varjo_True else varjo_False)]
                  /\ errors t = [err]
                  /\ o = Returned (err =? varjo_NoError, this')
                  /\ this' = (if err =? varjo_NoError
                              then ChromaKeyManager.set_chromaKeyEnabled this
                                     enabled
                              else this)
                  /\ ChromaKeyManager.m_chromaKeyEnabled this'
                     = (if err =? varjo_NoError then enabled
                        else ChromaKeyManager.m_chromaKeyEnabled this)
                  /\ ChromaKeyManager.m_configLocked this'
                     = ChromaKeyManager.m_configLocked this
                  /\ ChromaKeyManager.m_count this'
                     = ChromaKeyManager.m_count this)).
  unfold ChromaKeyManager.toggleChromaKeying, CHECK_VARJO_ERR.
  destruct (Bool.eqb enabled (ChromaKeyManager.m_chromaKeyEnabled this)); simpl.
  - split; reflexivity.
  - intros u err.
    destruct (err =? varjo_NoError) eqn:E; simpl; rewrite ?E; simpl;
      exists err; eexists; rewrite ?E; repeat split.
Qed.

(** C8.  [setConfig(index, config)] on an object whose lock shadow is
    unlocked logs "Config lock required for this action." and then still
    issues [varjo_MRSetChromaKeyConfig index config], its only call besides
    the error query that follows; the boolean returned is true exactly when
    that query answers [varjo_NoError]. *)
Theorem setConfig_unlocked_warns_and_proceeds :
  forall (St : Type) (dev : Device St) (s : St)
         (this : ChromaKeyManager.ChromaKeyManager) (index : Z)
         (config : varjo_ChromaKeyConfig),
    ChromaKeyManager.m_configLocked this = false ->
    let r := run dev (ChromaKeyManager.setConfig this index config) s in
    exists err pre post,
      trace r
      = pre ++ Logged LOGE "Config lock required for this action."
            :: Called (varjo_MRSetChromaKeyConfig index config) tt
            :: Called varjo_GetError err :: post
      /\ calls pre = [] /\ calls post = []
      /\ outcome r = Returned (err =? varjo_NoError).
Proof.
  intros St dev s this index config Hunlocked r; subst r.
  apply (wp_sound dev (ChromaKeyManager.setConfig this index config)
           (fun o t =>
              exists err pre post,
                t = pre ++ Logged LOGE "Config lock required for this action."
                        :: Called (varjo_MRSetChromaKeyConfig index config) tt
                        :: Called varjo_GetError err :: post
                /\ calls pre = [] /\ calls post = []
                /\ o = Returned (err =? varjo_NoError))).
  unfold ChromaKeyManager.setConfig, ChromaKeyManager.CHECK_CONFIG_LOCK,
    ChromaKeyManager.print, CHECK_VARJO_ERR.
  rewrite Hunlocked.
  destruct (ChromaKeyConfig.type config =? varjo_ChromaKeyType_Disabled);
    [|destruct (ChromaKeyConfig.type config =? varjo_ChromaKeyType_HSV)];
    simpl; intros u err; simpl in u; destruct u;
    destruct (err =? varjo_NoError) eqn:E; simpl; rewrite ?E; simpl;
    exists err; rewrite E;
    (eexists [_]; eexists; repeat split; reflexivity).
Qed.

Lemma setConfig_unlocked_witness :
  ChromaKeyManager.m_configLocked (ChromaKeyManager.mk 1 false false) = false
  /\ let r := run (failing varjo_Error_ChromaKeyNotLocked)
                (ChromaKeyManager.setConfig (ChromaKeyManager.mk 1 false false)
                   0 disabled_config) tt in
     exists err pre post,
       trace r
       = pre ++ Logged LOGE "Config lock required for this action."
             :: Called (varjo_MRSetChromaKeyConfig 0 disabled_config) tt
             :: Called varjo_GetError err :: post
       /\ calls pre = [] /\ calls post = []
       /\ outcome r = Returned (err =? varjo_NoError).
Proof.
  split; [reflexivity|].
  apply (setConfig_unlocked_warns_and_proceeds unit
           (failing varjo_Error_ChromaKeyNotLocked) tt
           (ChromaKeyManager.mk 1 false false) 0 disabled_config).
  reflexivity.
Defined.

(** C10.  [unlockConfig] on an object whose lock shadow is locked issues
    [varjo_Unlock] for the chroma-key lock, asks for the error, and returns
    the object with [m_configLocked] false, whatever error the runtime
    reports for the unlock. *)
Theorem unlockConfig_clears_shadow_whatever_the_error :
  forall (St : Type) (dev : Device St) (s : St)
         (this : ChromaKeyManager.ChromaKeyManager),
    ChromaKeyManager.m_configLocked this = true ->
    let r := run dev (ChromaKeyManager.unlockConfig this) s in
    exists err this',
      calls (trace r) = [varjo_Unlock varjo_LockType_ChromaKey; varjo_GetError]
      /\ errors (trace r) = [err]
      /\ outcome r = Returned this'
      /\ this' = ChromaKeyManager.set_configLocked this false
      /\ ChromaKeyManager.m_configLocked this' = false.
Proof.
  intros St dev s this Hlocked r; subst r.
  apply (wp_sound dev (ChromaKeyManager.unlockConfig this)
           (fun o t =>
              exists err this',
                calls t = [varjo_Unlock varjo_LockType_ChromaKey; varjo_GetError]
                /\ errors t = [err]
                /\ o = Returned this'
                /\ this' = ChromaKeyManager.set_configLocked this false
                /\ ChromaKeyManager.m_configLocked this' = false)).
  unfold ChromaKeyManager.unlockConfig, ChromaKeyManager.CHECK_CONFIG_LOCK,
    CHECK_VARJO_ERR.
  rewrite Hlocked. simpl. intros u err.
  destruct (err =? varjo_NoError); simpl;
    exists err, (ChromaKeyManager.set_configLocked this false); repeat split.
Qed.

Lemma unlockConfig_witness :
  ChromaKeyManager.m_configLocked (ChromaKeyManager.mk 1 true false) = true
  /\ let r := run (failing varjo_Error_ChromaKeyNotLocked)
                (ChromaKeyManager.unlockConfig (ChromaKeyManager.mk 1 true false))
                tt in
     exists err this',
       calls (trace r) = [varjo_Unlock varjo_LockType_ChromaKey; varjo_GetError]
       /\ errors (trace r) = [err]
       /\ outcome r = Returned this'
       /\ this' = ChromaKeyManager.set_configLocked
                    (ChromaKeyManager.mk 1 true false) false
       /\ ChromaKeyManager.m_configLocked this' = false.
Proof.
  split; [reflexivity|].
  apply (unlockConfig_clears_shadow_whatever_the_error unit
           (failing varjo_Error_ChromaKeyNotLocked) tt
           (ChromaKeyManager.mk 1 true false)).
  reflexivity.
Defined.

(** On the failing session the unlock does report an error, and the shadow
    is cleared all the same. *)
Example unlockConfig_on_error :
  let r := run (failing varjo_Error_ChromaKeyNotLocked)
             (ChromaKeyManager.unlockConfig (ChromaKeyManager.mk 1 true false))
             tt in
  errors (trace r) = [varjo_Error_ChromaKeyNotLocked]
  /\ outcome r = Returned (ChromaKeyManager.mk 1 false false).
Proof. split; reflexivity. Qed.

(** ** Runs on the well-behaved session *)

Lemma ensures_bind {St A B : Type} (dev : Device St) (m : Prog A)
    (f : A -> Prog B) (s : St) (P : Outcome A -> St -> Trace -> Prop)
    (Q : Outcome B -> St -> Trace -> Prop) :
  ensures dev m s P ->
  (forall o s1 t1, P o s1 t1 ->
     match o with
     | Returned a => ensures dev (f a) s1 (fun o' s2 t2 => Q o' s2 (t1 ++ t2))
     | Crashed => Q Crashed s1 t1
     end) ->
  ensures dev (bind m f) s Q.
Proof.
  unfold ensures, outcome, final, trace. intros Hm Hf. rewrite run_bind.
  destruct (run dev m s) as [[[a|] s1] t1]; simpl in *.
  - specialize (Hf _ _ _ Hm). simpl in Hf.
    destruct (run dev (f a) s1) as [[o s2] t2]. exact Hf.
  - exact (Hf _ _ _ Hm).
Qed.

Lemma ensures_call {St B : Type} (dev : Device St) (c : Call)
    (f : Resp c -> Prog B) (s : St) (Q : Outcome B -> St -> Trace -> Prop) :
  ensures dev (f (fst (dev c s))) (snd (dev c s))
    (fun o s' t => Q o s' (Called c (fst (dev c s)) :: t)) ->
  ensures dev (bind (call c) f) s Q.
Proof.
  unfold ensures, outcome, final, trace. simpl.
  destruct (dev c s) as [r s1]. simpl.
  destruct (run dev (f r) s1) as [[o s2] t2]. auto.
Qed.

Lemma ensures_log {St B : Type} (dev : Device St) (l : LogLevel) (msg : string)
    (f : unit -> Prog B) (s : St) (Q : Outcome B -> St -> Trace -> Prop) :
  ensures dev (f tt) s (fun o s' t => Q o s' (Logged l msg :: t)) ->
  ensures dev (bind (log l msg) f) s Q.
Proof.
  unfold ensures, outcome, final, trace. simpl.
  destruct (run dev (f tt) s) as [[o s2] t2]. auto.
Qed.

Lemma ensures_ret_bind {St A B : Type} (dev : Device St) (a : A)
    (f : A -> Prog B) (s : St) (Q : Outcome B -> St -> Trace -> Prop) :
  ensures dev (f a) s Q -> ensures dev (bind (Ret a) f) s Q.
Proof. intros H; exact H. Qed.

Lemma ensures_mono {St A : Type} (dev : Device St) (p : Prog A) (s : St)
    (P Q : Outcome A -> St -> Trace -> Prop) :
  ensures dev p s P -> (forall o s' t, P o s' t -> Q o s' t) ->
  ensures dev p s Q.
Proof. unfold ensures. auto. Qed.

Ltac run_call := apply ensures_call; simpl fst; simpl snd.
Ltac run_log := apply ensures_log.
Ltac run_ret := apply ensures_ret_bind.
Ltac run_helper lemma :=
  eapply ensures_bind;
  [apply lemma
  |let o := fresh "o" in let s := fresh "s" in let t := fresh "t" in
   let H := fresh "Hhelper" in intros o s t H; cbv beta in H].

Lemma filled_exact {A : Type} (dflt : A) (l : list A) :
  filled (length l) dflt (firstn (length l) l) = l.
Proof.
  unfold filled. rewrite !firstn_all, Nat.sub_diag. simpl. apply app_nil_r.
Qed.

Lemma sim_CHECK_VARJO_ERR (s : Sim.Session) :
  ensures Sim.device CHECK_VARJO_ERR s
    (fun o s' t =>
       o = Returned varjo_NoError /\ s' = s
       /\ t = [Called varjo_GetError varjo_NoError]).
Proof. repeat split. Qed.

Ltac run_check :=
  eapply ensures_bind;
  [apply sim_CHECK_VARJO_ERR
  |let o := fresh "o" in let s := fresh "s" in let t := fresh "t" in
   intros o s t (-> & -> & ->)].

Lemma sim_getPropertyModeList (p : varjo_CameraPropertyType) (s : Sim.Session) :
  Z.of_nat (length (Sim.modes s p)) < 2 ^ 31 ->
  ensures Sim.device (CameraManager.getPropertyModeList p) s
    (fun o s' t => o = Returned (Sim.modes s p) /\ s' = s /\ reads_only t).
Proof.
  intros Hlen. unfold CameraManager.getPropertyModeList.
  run_call. run_call. run_check. unfold ensures. simpl.
  rewrite to_int_small by lia. rewrite Nat2Z.id, filled_exact.
  repeat split.
Qed.

Lemma sim_getPropertyValueList (p : varjo_CameraPropertyType) (s : Sim.Session) :
  Z.of_nat (length (Sim.values s p)) < 2 ^ 31 ->
  ensures Sim.device (CameraManager.getPropertyValueList p) s
    (fun o s' t => o = Returned (offered p s) /\ s' = s /\ reads_only t).
Proof.
  intros Hlen. unfold CameraManager.getPropertyValueList, offered.
  run_call. run_check.
  destruct (Sim.configType s p =? varjo_CameraPropertyConfigType_List); simpl negb; cbv iota.
  - run_call. run_call. run_check. unfold ensures. simpl.
    rewrite to_int_small by lia. rewrite Nat2Z.id, filled_exact.
    repeat split.
  - run_log. unfold ensures. simpl. repeat split.
Qed.

Lemma offered_length (p : varjo_CameraPropertyType) (s : Sim.Session) :
  (length (offered p s) <= length (Sim.values s p))%nat.
Proof.
  unfold offered. destruct (_ =? _); simpl; lia.
Qed.

Lemma modulo_index_in_bounds {A : Type} (dflt : A) (v : list A) (index : Z) :
  v <> [] ->
  modulo_index v index
  = Ret (nth (Z.to_nat (Int.to_size_t index mod Z.of_nat (length v))) v dflt).
Proof.
  intros Hv. unfold modulo_index.
  assert (Hlen : 0 < Z.of_nat (length v)) by (destruct v; [congruence|simpl; lia]).
  destruct (Z.of_nat (length v) =? 0) eqn:E; [apply Z.eqb_eq in E; lia|].
  pose proof (Z.mod_pos_bound (Int.to_size_t index) _ Hlen) as Hb.
  destruct (nth_error v _) eqn:Hn.
  - now rewrite (nth_error_nth _ _ dflt Hn).
  - apply nth_error_None in Hn. lia.
Qed.

Lemma modulo_index_small {A : Type} (dflt : A) (v : list A) (i : nat) :
  (i < length v)%nat -> Z.of_nat (length v) < 2 ^ 31 ->
  modulo_index v (Z.of_nat i) = Ret (nth i v dflt).
Proof.
  intros Hi Hlen.
  rewrite (modulo_index_in_bounds dflt) by (destruct v; [simpl in Hi; lia|congruence]).
  unfold Int.to_size_t.
  rewrite (Z.mod_small (Z.of_nat i)) by lia.
  rewrite Z.mod_small by lia. now rewrite Nat2Z.id.
Qed.

Lemma sim_setPropertyValueToModuloIndex (p : varjo_CameraPropertyType)
    (s : Sim.Session) (i : nat) :
  Z.of_nat (length (Sim.values s p)) < 2 ^ 31 ->
  (i < length (offered p s))%nat ->
  ensures Sim.device
    (CameraManager.setPropertyValueToModuloIndex p (Z.of_nat i)) s
    (fun o s' t =>
       let v := nth i (offered p s) zero_value in
       o = Returned tt
       /\ s' = Sim.with_value s (Sim.upd (Sim.value s) p v)
       /\ mutations t = [varjo_MRSetCameraPropertyValue p v]
       /\ leaves_locks t).
Proof.
  intros Hlen Hi. unfold CameraManager.setPropertyValueToModuloIndex.
  run_helper sim_getPropertyValueList; [exact Hlen|].
  destruct Hhelper as (-> & -> & Hreads).
  rewrite (modulo_index_small zero_value);
    [|exact Hi|pose proof (offered_length p s); lia].
  run_ret. run_log. run_call. run_check. unfold ensures. simpl.
  repeat split.
  - trace_eval. reflexivity.
  - trace_class.
Qed.

Lemma sim_setPropertyModeToModuloIndex (p : varjo_CameraPropertyType)
    (s : Sim.Session) (index : Z) :
  0 <= index < 2 ^ 32 ->
  Sim.modes s p <> [] ->
  Z.of_nat (length (Sim.modes s p)) < 2 ^ 31 ->
  Z.of_nat (length (Sim.values s p)) < 2 ^ 31 ->
  let m' := nth (Z.to_nat (index mod Z.of_nat (length (Sim.modes s p))))
              (Sim.modes s p) 0 in
  (m' = varjo_CameraPropertyMode_Manual -> offered p s <> []) ->
  ensures Sim.device (CameraManager.setPropertyModeToModuloIndex p index) s
    (fun o s' t =>
       o = Returned tt
       /\ s' = (if m' =? varjo_CameraPropertyMode_Manual then
                  Sim.with_mode
                    (Sim.with_value s
                       (Sim.upd (Sim.value s) p (nth 0 (offered p s) zero_value)))
                    (Sim.upd (Sim.mode s) p m')
                else Sim.with_mode s (Sim.upd (Sim.mode s) p m'))
       /\ mutations t
          = (if m' =? varjo_CameraPropertyMode_Manual then
               [varjo_MRSetCameraPropertyValue p (nth 0 (offered p s) zero_value)]
             else [])
            ++ [varjo_MRSetCameraPropertyMode p m']
       /\ leaves_locks t).
Proof.
  intros Hindex Hms Hlm Hlv m' Hoffered.
  unfold CameraManager.setPropertyModeToModuloIndex.
  run_helper sim_getPropertyModeList; [exact Hlm|].
  destruct Hhelper as (-> & -> & Hreads).
  rewrite (modulo_index_in_bounds 0) by assumption.
  unfold Int.to_size_t. rewrite (Z.mod_small index) by lia.
  change (nth (Z.to_nat (index mod Z.of_nat (length (Sim.modes s p))))
            (Sim.modes s p) 0) with m'.
  clearbody m'. run_ret. run_log.
  destruct (m' =? varjo_CameraPropertyMode_Manual) eqn:Em.
  - apply Z.eqb_eq in Em.
    assert (H0 : (0 < length (offered p s))%nat).
    { specialize (Hoffered Em). destruct (offered p s); [congruence|simpl; lia]. }
    run_helper (sim_setPropertyValueToModuloIndex p s 0 Hlv H0).
    destruct Hhelper as (-> & -> & Hmut & Hlocks).
    run_call. run_check. unfold ensures. simpl. repeat split.
    + trace_eval. now rewrite Hmut.
    + trace_class.
  - run_ret. run_call. run_check. unfold ensures. simpl. repeat split.
    + trace_eval. reflexivity.
    + trace_class.
Qed.

Lemma find_mode_bound (m : varjo_CameraPropertyMode)
    (ms : list varjo_CameraPropertyMode) (d : nat) :
  find_mode m ms = Some d -> (d < length ms)%nat /\ nth d ms 0 = m.
Proof.
  revert d; induction ms as [|x ms IH]; intros d; simpl; [discriminate|].
  destruct (x =? m) eqn:E.
  - intros [= <-]. apply Z.eqb_eq in E. split; [lia|exact E].
  - destruct (find_mode m ms) as [d'|]; [|discriminate].
    intros [= <-]. destruct (IH d' eq_refl). split; [lia|assumption].
Qed.

Lemma find_mode_none (m : varjo_CameraPropertyMode)
    (ms : list varjo_CameraPropertyMode) :
  find_mode m ms = None -> ~ In m ms.
Proof.
  induction ms as [|x ms IH]; simpl; [tauto|].
  destruct (x =? m) eqn:E; [discriminate|].
  destruct (find_mode m ms); [discriminate|].
  intros _ [H|H]; [apply Z.eqb_neq in E; contradiction|now apply IH].
Qed.

Lemma findPropertyModeIndex_found (m : varjo_CameraPropertyMode)
    (ms : list varjo_CameraPropertyMode) (d : nat) :
  Z.of_nat (length ms) < 2 ^ 31 ->
  find_mode m ms = Some d -> findPropertyModeIndex m ms = Z.of_nat d.
Proof.
  intros Hlen Hd. unfold findPropertyModeIndex. rewrite Hd.
  apply find_mode_bound in Hd. apply to_int_small. lia.
Qed.

Lemma sim_applyNextMode (p : varjo_CameraPropertyType) (s : Sim.Session) :
  Z.of_nat (length (Sim.modes s p)) < 2 ^ 31 ->
  Z.of_nat (length (Sim.values s p)) < 2 ^ 31 ->
  (In varjo_CameraPropertyMode_Manual (Sim.modes s p) -> offered p s <> []) ->
  ensures Sim.device
    (CameraManager.applyNextMode p (Sim.mode s p) (Sim.modes s p)) s
    (fun o s' t =>
       o = Returned tt
       /\ Sim.shown p s'
          = Cycle.next_mode (Sim.modes s p) (offered p s)
              (Sim.mode s p) (Sim.value s p)
       /\ same_device s s'
       /\ Sim.lockHeld s' varjo_LockType_Camera = false
       /\ unlocks varjo_LockType_Camera t = 1%nat
       /\ lock_answers varjo_LockType_Camera t = []).
Proof.
  intros Hlm Hlv Hoffered.
  unfold CameraManager.applyNextMode, Cycle.next_mode.
  destruct (find_mode (Sim.mode s p) (Sim.modes s p)) as [d|] eqn:Hfind.
  - rewrite (findPropertyModeIndex_found _ _ d Hlm Hfind).
    destruct (find_mode_bound _ _ _ Hfind) as [Hd _].
    destruct (Z.of_nat d =? -1) eqn:E; [apply Z.eqb_eq in E; lia|].
    assert (Hms : Sim.modes s p <> [])
      by (destruct (Sim.modes s p); [simpl in Hd; lia|congruence]).
    run_helper (sim_setPropertyModeToModuloIndex p s (Z.of_nat d + 1)
                  ltac:(lia) Hms Hlm Hlv).
    { intros Hm. apply Hoffered. rewrite <- Hm. apply nth_In.
      pose proof (Z.mod_pos_bound (Z.of_nat d + 1)
                    (Z.of_nat (length (Sim.modes s p))) ltac:(lia)). lia. }
    destruct Hhelper as (-> & -> & Hmut & Hlocks).
    run_call. run_check. unfold ensures. simpl.
    set (m' := nth _ (Sim.modes s p) 0).
    destruct (m' =? varjo_CameraPropertyMode_Manual) eqn:Em;
      unfold Sim.shown, same_device, Sim.upd; simpl; rewrite !Z.eqb_refl;
      repeat split; trace_eval; reflexivity.
  - unfold findPropertyModeIndex. rewrite Hfind.
    change (-1 =? -1) with true. cbv beta iota zeta.
    run_log. run_call. run_check. unfold ensures. simpl.
    unfold Sim.shown, same_device, Sim.upd. simpl. repeat split.
Qed.

Lemma findPropertyValueIndex_range (v : varjo_CameraPropertyValue)
    (vs : list varjo_CameraPropertyValue) :
  Z.of_nat (length vs) < 2 ^ 31 ->
  findPropertyValueIndex v vs = -1
  \/ 0 <= findPropertyValueIndex v vs < Z.of_nat (length vs).
Proof.
  intros Hlen. unfold findPropertyValueIndex. rewrite to_int_small by lia.
  destruct (find_value_from_first v vs 0 (Z.of_nat (length vs))
              ltac:(lia) ltac:(lia)) as [[H _]|[H _]]; [now left|right; lia].
Qed.

Lemma sim_applyNextModeOrValue (p : varjo_CameraPropertyType) (s : Sim.Session) :
  ready p s ->
  (In varjo_CameraPropertyMode_Manual (Sim.modes s p) -> offered p s <> []) ->
  ensures Sim.device (CameraManager.applyNextModeOrValue p) s
    (fun o s' t =>
       o = Returned tt
       /\ Sim.shown p s'
          = Cycle.next (Sim.modes s p) (offered p s) (Sim.shown p s)
       /\ same_device s s'
       /\ Sim.lockHeld s' varjo_LockType_Camera = false
       /\ unlocks varjo_LockType_Camera t = 1%nat
       /\ lock_answers varjo_LockType_Camera t = [varjo_True]).
Proof.
  intros (Hfree & Hheld & Hlm & Hlv) Hoffered.
  unfold CameraManager.applyNextModeOrValue.
  run_call. rewrite Hfree, Hheld. simpl orb. cbv iota. simpl fst. simpl snd.
  run_check. change (varjo_True =? varjo_False) with false. cbv iota.
  run_call.
  set (s1 := Sim.with_lockHeld s
               (Sim.upd (Sim.lockHeld s) varjo_LockType_Camera true)).
  run_helper (sim_getPropertyModeList p s1 Hlm).
  destruct Hhelper as (-> & -> & Hreads).
  change (Sim.modes s1 p) with (Sim.modes s p).
  change (Sim.mode s1 p) with (Sim.mode s p).
  assert (Hnext :
    forall tm, reads_only tm ->
      ensures Sim.device
        (CameraManager.applyNextMode p (Sim.mode s p) (Sim.modes s p)) s1
        (fun o' s2 t2 =>
           o' = Returned tt
           /\ Sim.shown p s2
              = Cycle.next_mode (Sim.modes s p) (offered p s)
                  (Sim.mode s p) (Sim.value s p)
           /\ same_device s s2
           /\ Sim.lockHeld s2 varjo_LockType_Camera = false
           /\ unlocks varjo_LockType_Camera
                (Called (varjo_Lock varjo_LockType_Camera) varjo_True
                 :: [Called varjo_GetError varjo_NoError]
                 ++ Called (varjo_MRGetCameraPropertyMode p) (Sim.mode s p)
                 :: tm ++ t2) = 1%nat
           /\ lock_answers varjo_LockType_Camera
                (Called (varjo_Lock varjo_LockType_Camera) varjo_True
                 :: [Called varjo_GetError varjo_NoError]
                 ++ Called (varjo_MRGetCameraPropertyMode p) (Sim.mode s p)
                 :: tm ++ t2) = [varjo_True])).
  { intros tm Htm.
    eapply ensures_mono; [apply (sim_applyNextMode p s1 Hlm Hlv Hoffered)|].
    intros o s2 t2 (Ho & Hshown & Hsame & Hh & Hu & Ha).
    split; [exact Ho|]. split; [exact Hshown|]. split; [exact Hsame|].
    split; [exact Hh|]. trace_eval. rewrite Hu, Ha. split; reflexivity. }
  unfold Cycle.next, Sim.shown at 2.
  destruct (Sim.mode s p =? varjo_CameraPropertyMode_Manual) eqn:Em.
  - run_call. simpl fst. simpl snd.
    change (Sim.value s1 p) with (Sim.value s p).
    run_helper (sim_getPropertyValueList p s1 Hlv).
    destruct Hhelper as (-> & -> & Hreads').
    change (offered p s1) with (offered p s).
    pose proof (offered_length p s) as Hol.
    destruct (findPropertyValueIndex_range (Sim.value s p) (offered p s)
                ltac:(lia)) as [Hidx|Hidx].
    + rewrite Hidx. change (-1 =? -1) with true. cbv iota.
      run_log. run_call. run_check. unfold ensures. simpl.
      unfold Sim.shown, same_device, Sim.upd. simpl.
      repeat split; trace_eval; reflexivity.
    + destruct (findPropertyValueIndex (Sim.value s p) (offered p s) =? -1)
        eqn:E; [apply Z.eqb_eq in E; lia|].
      rewrite to_int_small by lia.
      destruct (findPropertyValueIndex (Sim.value s p) (offered p s) + 1
                  <? Z.of_nat (length (offered p s))) eqn:Elt.
      * apply Z.ltb_lt in Elt.
        set (i := findPropertyValueIndex (Sim.value s p) (offered p s)) in *.
        replace (i + 1) with (Z.of_nat (Z.to_nat (i + 1))) at 1 by lia.
        run_helper (sim_setPropertyValueToModuloIndex p s1 (Z.to_nat (i + 1)) Hlv).
        { change (offered p s1) with (offered p s). lia. }
        destruct Hhelper as (-> & -> & Hmut & Hlocks).
        run_call. run_check. unfold ensures. simpl.
        unfold Sim.shown, same_device, Sim.upd. simpl.
        rewrite ?Z.eqb_refl.
        repeat split; trace_eval; reflexivity.
      * eapply ensures_mono.
        -- apply (Hnext (t ++ Called (varjo_MRGetCameraPropertyValue p)
                                (Sim.value s p) :: t0)).
           trace_class.
        -- intros o s2 t2 H. cbv beta in H. rewrite <- !app_assoc in H.
           exact H.
  - exact (Hnext t Hreads).
Qed.

Lemma calls_app (t1 t2 : Trace) : calls (t1 ++ t2) = calls t1 ++ calls t2.
Proof.
  induction t1 as [|[c r|l m] t1 IH]; simpl; [reflexivity| |exact IH].
  now rewrite IH.
Qed.

(** *** The mutating calls of one call, on any device *)

Lemma wp_setPropertyValue_mutations (p : varjo_CameraPropertyType) (i : Z) :
  wp (CameraManager.setPropertyValueToModuloIndex p i)
     (fun o t =>
        (o = Crashed /\ mutations t = [])
        \/ (o = Returned tt
            /\ exists v, mutations t = [varjo_MRSetCameraPropertyValue p v])).
Proof.
  unfold CameraManager.setPropertyValueToModuloIndex.
  wp_helper wp_getPropertyValueList. destruct Hhelper as [[l ->] Hl].
  wp_helper (@wp_modulo_index varjo_CameraPropertyValue). subst.
  destruct o as [v|].
  - wp_log. wp_call. wp_check. simpl wp. right. split; [reflexivity|].
    exists v. trace_eval. reflexivity.
  - left. split; [reflexivity|]. trace_eval. reflexivity.
Qed.

Lemma wp_setPropertyMode_mutations (p : varjo_CameraPropertyType) (i : Z) :
  wp (CameraManager.setPropertyModeToModuloIndex p i)
     (fun o t => one_step_of_the_cycle p (mutations t)).
Proof.
  unfold CameraManager.setPropertyModeToModuloIndex, one_step_of_the_cycle.
  wp_helper wp_getPropertyModeList. destruct Hhelper as [[l ->] Hl].
  wp_helper (@wp_modulo_index varjo_CameraPropertyMode). subst.
  destruct o as [m|]; [|left; trace_eval; reflexivity].
  wp_log. destruct (m =? varjo_CameraPropertyMode_Manual) eqn:Em.
  - apply Z.eqb_eq in Em. subst m.
    wp_helper wp_setPropertyValue_mutations.
    destruct Hhelper as [[-> Hmut]|[-> [v Hmut]]].
    + left. trace_eval. now rewrite Hmut.
    + wp_call. wp_check. simpl wp. right. right. right. exists v.
      trace_eval. now rewrite Hmut.
  - wp_ret. wp_call. wp_check. simpl wp. right. right. left. exists m.
    trace_eval. reflexivity.
Qed.

(** Whatever the runtime answers, one call of [applyNextModeOrValue] sets
    the value and the mode together only when it enters Manual mode. *)
Lemma mutations_of_applyNextModeOrValue :
  forall (St : Type) (dev : Device St) (s : St)
         (p : varjo_CameraPropertyType),
    one_step_of_the_cycle p
      (mutations (trace (run dev (CameraManager.applyNextModeOrValue p) s))).
Proof.
  intros St dev s p.
  apply (wp_sound dev (CameraManager.applyNextModeOrValue p)
           (fun o t => one_step_of_the_cycle p (mutations t))).
  assert (Hnext : forall m ms,
    wp (CameraManager.applyNextMode p m ms)
       (fun o t => one_step_of_the_cycle p (mutations t))).
  { intros m ms. unfold CameraManager.applyNextMode. wp_if.
    - wp_log. wp_call. wp_check. simpl wp. left. trace_eval. reflexivity.
    - wp_helper wp_setPropertyMode_mutations. destruct o as [[]|].
      + wp_call. wp_check. simpl wp. trace_eval. exact Hhelper.
      + exact Hhelper. }
  unfold CameraManager.applyNextModeOrValue.
  wp_call. wp_check. wp_if.
  { wp_log. simpl wp. left. trace_eval. reflexivity. }
  wp_call. wp_helper wp_getPropertyModeList.
  destruct Hhelper as [[supportedModes ->] Hmodes].
  wp_if.
  - wp_call. wp_helper wp_getPropertyValueList.
    destruct Hhelper as [[supportedValues ->] Hvalues].
    wp_if.
    + wp_log. wp_call. wp_check. simpl wp. left. trace_eval. reflexivity.
    + wp_if.
      * wp_helper wp_setPropertyValue_mutations.
        destruct Hhelper as [[-> Hmut]|[-> [v Hmut]]].
        -- left. trace_eval. now rewrite Hmut.
        -- wp_call. wp_check. simpl wp. right. left. exists v.
           trace_eval. now rewrite Hmut.
      * eapply wp_mono; [|apply Hnext].
        intros o t2 H. cbv beta in H. trace_eval. exact H.
  - eapply wp_mono; [|apply Hnext].
    intros o t2 H. cbv beta in H. trace_eval. exact H.
Qed.

Lemma calls_end_cons (e : Event) (t : Trace) (l : list Call) :
  (exists before, calls t = before ++ l) ->
  exists before, calls (e :: t) = before ++ l.
Proof.
  intros [before H]. destruct e as [c r|lv m]; simpl.
  - exists (c :: before). now rewrite H.
  - exists before. exact H.
Qed.

Lemma calls_end_app (t1 t2 : Trace) (l : list Call) :
  (exists before, calls t2 = before ++ l) ->
  exists before, calls (t1 ++ t2) = before ++ l.
Proof.
  intros [before H]. exists (calls t1 ++ before).
  now rewrite calls_app, H, app_assoc.
Qed.

(** X25.  On the well-behaved session ready for the client, whose lists
    do not change, with the property in Manual mode, configured as a
    discrete list, and its current value found in the value list at index
    [i] with [i + 1] below the length of the list: [applyNextModeOrValue]
    returns; its one mutating call sets the value at index [i + 1], and none
    sets the mode; the lock is released once, the release being the last
    call before the closing error query; the property is left in Manual
    mode with that value. *)
Theorem manual_with_values_left_sets_only_the_value :
  forall (p : varjo_CameraPropertyType) (s : Sim.Session) (i : Z),
    ready p s ->
    Sim.mode s p = varjo_CameraPropertyMode_Manual ->
    Sim.configType s p = varjo_CameraPropertyConfigType_List ->
    findPropertyValueIndex (Sim.value s p) (Sim.values s p) = i ->
    i <> -1 ->
    i + 1 < Z.of_nat (length (Sim.values s p)) ->
    let r := run Sim.device (CameraManager.applyNextModeOrValue p) s in
    let v := nth (Z.to_nat (i + 1)) (Sim.values s p) zero_value in
    outcome r = Returned tt
    /\ mutations (trace r) = [varjo_MRSetCameraPropertyValue p v]
    /\ unlocks varjo_LockType_Camera (trace r) = 1%nat
    /\ (exists before,
          calls (trace r)
          = before ++ [varjo_Unlock varjo_LockType_Camera; varjo_GetError])
    /\ Sim.shown p (final r) = (varjo_CameraPropertyMode_Manual, v)
    /\ Sim.lockHeld (final r) varjo_LockType_Camera = false.
Proof.
  intros p s i (Hfree & Hheld & Hlm & Hlv) Hmode Hconf Hidx Hfound Hleft r v.
  subst r v.
  assert (Hoff : offered p s = Sim.values s p).
  { unfold offered. rewrite Hconf. reflexivity. }
  assert (Hi : 0 <= i).
  { destruct (findPropertyValueIndex_range (Sim.value s p) (Sim.values s p) Hlv);
      lia. }
  change (ensures Sim.device (CameraManager.applyNextModeOrValue p) s
            (fun o s' t =>
               o = Returned tt
               /\ mutations t
                  = [varjo_MRSetCameraPropertyValue p
                       (nth (Z.to_nat (i + 1)) (Sim.values s p) zero_value)]
               /\ unlocks varjo_LockType_Camera t = 1%nat
               /\ (exists before,
                     calls t
                     = before
                       ++ [varjo_Unlock varjo_LockType_Camera; varjo_GetError])
               /\ Sim.shown p s'
                  = (varjo_CameraPropertyMode_Manual,
                     nth (Z.to_nat (i + 1)) (Sim.values s p) zero_value)
               /\ Sim.lockHeld s' varjo_LockType_Camera = false)).
  unfold CameraManager.applyNextModeOrValue.
  run_call. rewrite Hfree, Hheld. simpl orb. cbv iota. simpl fst. simpl snd.
  run_check. change (varjo_True =? varjo_False) with false. cbv iota.
  run_call.
  set (s1 := Sim.with_lockHeld s
               (Sim.upd (Sim.lockHeld s) varjo_LockType_Camera true)).
  run_helper (sim_getPropertyModeList p s1 Hlm).
  destruct Hhelper as (-> & -> & Hreads).
  change (Sim.mode s1 p) with (Sim.mode s p). rewrite Hmode.
  change (varjo_CameraPropertyMode_Manual =? varjo_CameraPropertyMode_Manual)
    with true. cbv iota.
  run_call. simpl fst. simpl snd.
  change (Sim.value s1 p) with (Sim.value s p).
  run_helper (sim_getPropertyValueList p s1 Hlv).
  destruct Hhelper as (-> & -> & Hreads').
  change (offered p s1) with (offered p s). rewrite Hoff, Hidx.
  destruct (i =? -1) eqn:E; [apply Z.eqb_eq in E; lia|].
  rewrite to_int_small by lia.
  destruct (i + 1 <? Z.of_nat (length (Sim.values s p))) eqn:Elt;
    [|apply Z.ltb_ge in Elt; lia].
  replace (i + 1) with (Z.of_nat (Z.to_nat (i + 1))) at 1 by lia.
  run_helper (sim_setPropertyValueToModuloIndex p s1 (Z.to_nat (i + 1)) Hlv).
  { change (offered p s1) with (offered p s). rewrite Hoff. lia. }
  destruct Hhelper as (-> & -> & Hmut & Hlocks).
  change (offered p s1) with (offered p s) in Hmut. rewrite Hoff in Hmut.
  change (offered p s1) with (offered p s). rewrite Hoff.
  run_call. run_check. unfold ensures. simpl.
  unfold Sim.shown, Sim.upd. simpl. rewrite Hmode, Z.eqb_refl.
  split; [reflexivity|]. split; [trace_eval; now rewrite Hmut|].
  split; [trace_eval; reflexivity|]. split; [|split; reflexivity].
  match goal with
  | |- exists before, _ :: _ :: _ :: calls ?x = _ =>
      assert (Hend : exists before,
                 calls x
                 = before ++ [varjo_Unlock varjo_LockType_Camera; varjo_GetError])
  end.
  { apply calls_end_app, calls_end_cons, calls_end_app, calls_end_app.
    exists []. reflexivity. }
  destruct Hend as [before ->]. eexists (_ :: _ :: _ :: before). reflexivity.
Qed.

Lemma manual_with_values_left_witness :
  ready varjo_CameraPropertyType_ExposureTime manual_100
  /\ let r := run Sim.device
                (CameraManager.applyNextModeOrValue
                   varjo_CameraPropertyType_ExposureTime) manual_100 in
     outcome r = Returned tt
     /\ mutations (trace r)
        = [varjo_MRSetCameraPropertyValue varjo_CameraPropertyType_ExposureTime
             (int_value 200)]
     /\ unlocks varjo_LockType_Camera (trace r) = 1%nat
     /\ (exists before,
           calls (trace r)
           = before ++ [varjo_Unlock varjo_LockType_Camera; varjo_GetError])
     /\ Sim.shown varjo_CameraPropertyType_ExposureTime (final r)
        = (varjo_CameraPropertyMode_Manual, int_value 200)
     /\ Sim.lockHeld (final r) varjo_LockType_Camera = false.
Proof.
  assert (Hready : ready varjo_CameraPropertyType_ExposureTime manual_100).
  { repeat split. }
  split; [exact Hready|].
  apply (manual_with_values_left_sets_only_the_value
           varjo_CameraPropertyType_ExposureTime manual_100 0 Hready);
    try reflexivity.
  discriminate.
Defined.

(** ** The scenario of the spec *)

(** C3, as stated, fails: from (Manual, 200) one call selects Off, the mode
    after Manual in the list taken round, and not Auto. *)
Lemma scenario_first_advance_is_not_auto :
  Sim.mode (Sim.advance varjo_CameraPropertyType_ExposureTime manual_200)
    varjo_CameraPropertyType_ExposureTime
  <> varjo_CameraPropertyMode_Auto.
Proof. vm_compute. discriminate. Qed.

(** C3, amended.  With modes Off, Auto, Manual and values 100, 200: from
    (Manual, 200) one call of [applyNextModeOrValue] sets the mode to Off
    and nothing else (index 1 is the last value, so the mode moves on, and
    Manual is the last mode, so it wraps to the first); from Auto one call
    sets the manual value to 100 and then the mode to Manual. *)
Theorem scenario_manual_200_then_auto :
  forall p : varjo_CameraPropertyType,
    (let r := run Sim.device (CameraManager.applyNextModeOrValue p) manual_200 in
     outcome r = Returned tt
     /\ mutations (trace r)
        = [varjo_MRSetCameraPropertyMode p varjo_CameraPropertyMode_Off]
     /\ Sim.shown p (final r) = (varjo_CameraPropertyMode_Off, int_value 200))
    /\ (let r := run Sim.device (CameraManager.applyNextModeOrValue p) auto_200 in
        outcome r = Returned tt
        /\ mutations (trace r)
           = [varjo_MRSetCameraPropertyValue p (int_value 100);
              varjo_MRSetCameraPropertyMode p varjo_CameraPropertyMode_Manual]
        /\ Sim.shown p (final r)
           = (varjo_CameraPropertyMode_Manual, int_value 100)).
Proof.
  intros p. split; cbv zeta; unfold Sim.shown; simpl; unfold Sim.upd;
    rewrite ?Z.eqb_refl; repeat split.
Qed.

(** ** The modulo access *)

(** C9.  [v[index % v.size()]] yields an element of [v] for every index
    when [v] is not empty, and has no defined behaviour on an empty [v].
    Whenever the runtime answers the config-type query with something other
    than List, [getPropertyValueList] returns the empty vector and
    [setPropertyValueToModuloIndex] runs into that access.
    [applyNextModeOrValue] gets there: on a property with modes Auto and
    Manual whose values are a range, in mode Auto, the call selects Manual,
    asks for the value list, and stops at the access, before any mutating
    call and with the lock still held. *)
Theorem modulo_access_needs_a_nonempty_list :
  (forall (A : Type) (x : A) (l : list A) (index : Z),
      exists y, modulo_index (x :: l) index = Ret y /\ In y (x :: l))
  /\ (forall (A : Type) (index : Z), modulo_index (@nil A) index = Undefined)
  /\ (forall (St : Type) (dev : Device St) (s : St)
             (p : varjo_CameraPropertyType),
         (fst (dev (varjo_MRGetCameraPropertyConfigType p) s)
          =? varjo_CameraPropertyConfigType_List) = true
         \/ (outcome (run dev (CameraManager.getPropertyValueList p) s)
             = Returned []
             /\ forall index,
                 outcome (run dev
                            (CameraManager.setPropertyValueToModuloIndex p index)
                            s)
                 = Crashed))
  /\ (let r := run Sim.device
                 (CameraManager.applyNextModeOrValue
                    varjo_CameraPropertyType_ExposureTime) auto_range in
      outcome r = Crashed
      /\ mutations (trace r) = []
      /\ unlocks varjo_LockType_Camera (trace r) = O
      /\ Sim.lockHeld (final r) varjo_LockType_Camera = true).
Proof.
  split; [|split; [|split]].
  - intros A x l index.
    rewrite (modulo_index_in_bounds x) by discriminate.
    eexists. split; [reflexivity|]. apply nth_In.
    pose proof (Z.mod_pos_bound (Int.to_size_t index)
                  (Z.of_nat (length (x :: l))) ltac:(simpl length; lia)).
    lia.
  - reflexivity.
  - intros St dev s p.
    destruct (fst (dev (varjo_MRGetCameraPropertyConfigType p) s)
              =? varjo_CameraPropertyConfigType_List) eqn:E; [now left|right].
    assert (Hlist :
      exists s' t,
        run dev (CameraManager.getPropertyValueList p) s = (Returned [], s', t)).
    { unfold CameraManager.getPropertyValueList, CHECK_VARJO_ERR. simpl.
      destruct (dev (varjo_MRGetCameraPropertyConfigType p) s) as [conf s1].
      simpl in E. destruct (dev varjo_GetError s1) as [err s2].
      destruct (err =? varjo_NoError); simpl; rewrite E; simpl; eauto. }
    destruct Hlist as (s' & t & Hrun). split.
    + unfold outcome. now rewrite Hrun.
    + intros index. unfold outcome, CameraManager.setPropertyValueToModuloIndex.
      rewrite run_bind, Hrun. reflexivity.
  - vm_compute. repeat split.
Qed.

(** ** The manual value is set before the mode *)

Lemma sets_mode_app (t1 t2 : Trace) :
  sets_mode (t1 ++ t2) = sets_mode t1 || sets_mode t2.
Proof.
  induction t1 as [|[c r|l m] t1 IH]; simpl; [reflexivity| |exact IH].
  destruct c; simpl; auto.
Qed.

Lemma reads_only_sets_no_mode (t : Trace) : reads_only t -> sets_mode t = false.
Proof.
  intros [_ Hm]. induction t as [|[c r|l m] t IH]; simpl in *; auto.
  destruct c; simpl in *; try discriminate; auto.
Qed.

Lemma preset_no_mode (t : Trace) :
  sets_mode t = false ->
  forall count fetched last, preset_before_manual count fetched last t.
Proof.
  induction t as [|[c r|l m] t IH]; simpl; intros H count fetched last; auto.
  destruct c; simpl in *; try discriminate; auto.
Qed.

Lemma preset_after_no_mode (t1 t2 : Trace) :
  sets_mode t1 = false ->
  (forall count fetched last, preset_before_manual count fetched last t2) ->
  forall count fetched last, preset_before_manual count fetched last (t1 ++ t2).
Proof.
  induction t1 as [|[c r|l m] t1 IH]; simpl; intros H H2 count fetched last; auto.
  destruct c; simpl in *; try discriminate; auto.
Qed.

Lemma preset_then_no_mode (t1 t2 : Trace) :
  sets_mode t2 = false ->
  forall count fetched last,
    preset_before_manual count fetched last t1 ->
    preset_before_manual count fetched last (t1 ++ t2).
Proof.
  intros H2. induction t1 as [|[c r|l m] t1 IH]; simpl;
    intros count fetched last H1.
  - now apply preset_no_mode.
  - destruct c; simpl in *; auto.
    destruct H1 as [Hc H1]. split; auto.
  - auto.
Qed.

Lemma wp_setPropertyValue_sets_no_mode (p : varjo_CameraPropertyType) (i : Z) :
  wp (CameraManager.setPropertyValueToModuloIndex p i)
     (fun o t => sets_mode t = false).
Proof.
  unfold CameraManager.setPropertyValueToModuloIndex.
  wp_helper wp_getPropertyValueList. destruct Hhelper as [[l ->] Hl].
  apply reads_only_sets_no_mode in Hl.
  wp_helper (@wp_modulo_index varjo_CameraPropertyValue). subst.
  destruct o as [v|]; [|now rewrite app_nil_r].
  wp_log. wp_call. wp_check. simpl.
  apply reads_only_sets_no_mode in Hcheck.
  rewrite !sets_mode_app, Hl. simpl. rewrite sets_mode_app, Hcheck. reflexivity.
Qed.

(** Every path of a small body, one by one. *)
Ltac wp_brute :=
  repeat
    (simpl;
     try match goal with
       | |- wp ?prog _ =>
           match prog with
           | context [if ?b then _ else _] => destruct b eqn:?
           | context [match ?x with _ => _ end] => destruct x eqn:?
           end
       | |- forall _, _ => intro
       end).

Lemma wp_setPropertyMode_preset (p : varjo_CameraPropertyType) (i : Z) :
  wp (CameraManager.setPropertyModeToModuloIndex p i)
     (fun o t =>
        forall count fetched last, preset_before_manual count fetched last t).
Proof.
  unfold CameraManager.setPropertyModeToModuloIndex.
  wp_helper wp_getPropertyModeList. destruct Hhelper as [[l ->] Hl].
  apply reads_only_sets_no_mode in Hl.
  wp_helper (@wp_modulo_index varjo_CameraPropertyMode). subst.
  destruct o as [m|]; [|rewrite app_nil_r; now apply preset_no_mode].
  eapply wp_mono;
    [intros o t2 H; apply (preset_after_no_mode t _ Hl); exact H|].
  wp_log.
  destruct (m =? varjo_CameraPropertyMode_Manual) eqn:Em.
  - unfold CameraManager.setPropertyValueToModuloIndex,
      CameraManager.getPropertyValueList, CHECK_VARJO_ERR, modulo_index.
    wp_brute;
      try exact I;
      (split; [intros _; eexists; repeat split; eassumption|exact I]).
  - wp_ret. wp_call. wp_check. simpl. intros count fetched last.
    split.
    + intros Hm. rewrite Hm in Em. discriminate.
    + apply preset_no_mode. rewrite app_nil_r.
      now apply reads_only_sets_no_mode.
Qed.

Lemma preset_cons_no_mode (e : Event) (t : Trace) :
  sets_mode [e] = false ->
  (forall count fetched last, preset_before_manual count fetched last t) ->
  forall count fetched last, preset_before_manual count fetched last (e :: t).
Proof. intros He Ht. exact (preset_after_no_mode [e] t He Ht). Qed.

Ltac no_mode :=
  repeat
    (simpl; rewrite ?sets_mode_app, ?app_nil_r;
     repeat match goal with
       | H : reads_only ?t |- context [sets_mode ?t] =>
           rewrite (reads_only_sets_no_mode t H)
       | H : sets_mode ?t = false |- context [sets_mode ?t] => rewrite H
       end);
  reflexivity.

(** Past the events and helper traces that set no mode, down to [H]. *)
Ltac past_prefix H :=
  repeat first
    [ exact H
    | apply preset_cons_no_mode; [reflexivity|]
    | apply preset_after_no_mode; [no_mode|] ].

Lemma wp_applyNextMode_preset (p : varjo_CameraPropertyType)
    (currentMode : varjo_CameraPropertyMode)
    (supportedModes : list varjo_CameraPropertyMode) :
  wp (CameraManager.applyNextMode p currentMode supportedModes)
     (fun o t =>
        forall count fetched last, preset_before_manual count fetched last t).
Proof.
  unfold CameraManager.applyNextMode. wp_if.
  - wp_log. wp_call. wp_check. simpl wp. apply preset_no_mode. no_mode.
  - wp_helper wp_setPropertyMode_preset. destruct o as [[]|].
    + wp_call. wp_check. simpl wp. intros count fetched last.
      apply preset_then_no_mode; [no_mode|apply Hhelper].
    + exact Hhelper.
Qed.

Lemma wp_applyNextModeOrValue_preset (p : varjo_CameraPropertyType) :
  wp (CameraManager.applyNextModeOrValue p)
     (fun o t =>
        forall count fetched last, preset_before_manual count fetched last t).
Proof.
  unfold CameraManager.applyNextModeOrValue.
  wp_call. wp_check. wp_if.
  { wp_log. simpl wp. apply preset_no_mode. no_mode. }
  wp_call. wp_helper wp_getPropertyModeList.
  destruct Hhelper as [[supportedModes ->] Hmodes].
  wp_if.
  - wp_call. wp_helper wp_getPropertyValueList.
    destruct Hhelper as [[supportedValues ->] Hvalues].
    wp_if.
    + wp_log. wp_call. wp_check. simpl wp. apply preset_no_mode. no_mode.
    + wp_if.
      * wp_helper wp_setPropertyValue_sets_no_mode.
        destruct o as [[]|].
        -- wp_call. wp_check. simpl wp. apply preset_no_mode. no_mode.
        -- apply preset_no_mode. no_mode.
      * eapply wp_mono; [|apply wp_applyNextMode_preset].
        intros o t2 H. cbv beta in H. past_prefix H.
  - eapply wp_mono; [|apply wp_applyNextMode_preset].
    intros o t2 H. cbv beta in H. past_prefix H.
Qed.

(** C6.  Whatever the runtime answers, in a run of [applyNextModeOrValue]
    every call that sets the mode to Manual has, as the latest mutating call
    before it, the call that sets the manual value of the same property to
    the first element of the value list fetched last; the mode is never set
    to Manual first. *)
Theorem manual_value_preset_before_manual_mode :
  forall (St : Type) (dev : Device St) (s : St)
         (p : varjo_CameraPropertyType),
    preset_before_manual O (p, []) None
      (trace (run dev (CameraManager.applyNextModeOrValue p) s)).
Proof.
  intros St dev s p.
  exact (wp_sound dev (CameraManager.applyNextModeOrValue p) _ s
           (wp_applyNextModeOrValue_preset p) O (p, []) None).
Qed.

(** The order on the scenario of the spec: from Auto, the value 100 is set,
    then the mode Manual. *)
Example preset_on_the_scenario :
  mutations (trace (run Sim.device
                      (CameraManager.applyNextModeOrValue
                         varjo_CameraPropertyType_ExposureTime) auto_200))
  = [varjo_MRSetCameraPropertyValue varjo_CameraPropertyType_ExposureTime
       (int_value 100);
     varjo_MRSetCameraPropertyMode varjo_CameraPropertyType_ExposureTime
       varjo_CameraPropertyMode_Manual].
Proof. reflexivity. Qed.

Example mode_first_is_rejected :
  ~ preset_before_manual O (1, []) None
      [Called (varjo_MRSetCameraPropertyMode 1 varjo_CameraPropertyMode_Manual) tt;
       Called (varjo_MRSetCameraPropertyValue 1 (int_value 100)) tt].
Proof. simpl. intros [H _]. destruct (H eq_refl) as (v & Hv & _). discriminate. Qed.

(** ** The cycle *)

Section CycleFacts.

Variable ms : list varjo_CameraPropertyMode.
Variable vs : list varjo_CameraPropertyValue.
Hypothesis Hnodup : NoDup ms.
Hypothesis Hlm : Z.of_nat (length ms) < 2 ^ 31.
Hypothesis Hlv : Z.of_nat (length vs) < 2 ^ 31.
Hypothesis Hdistinct : values_distinct vs.

Lemma find_mode_nth (j : nat) :
  (j < length ms)%nat -> find_mode (nth j ms 0) ms = Some j.
Proof using Hnodup.
  clear Hlm Hlv Hdistinct.
  revert j Hnodup.
  induction ms as [|x l IH]; intros j Hnd Hj; simpl in *; [lia|].
  inversion Hnd as [|? ? Hnotin Hnd']; subst.
  destruct j as [|j].
  - now rewrite Z.eqb_refl.
  - assert (Hin : In (nth j l 0) l) by (apply nth_In; lia).
    destruct (x =? nth j l 0) eqn:E.
    + apply Z.eqb_eq in E. congruence.
    + rewrite IH by (auto; lia). reflexivity.
Qed.

Lemma next_mode_at (j : nat) (v : varjo_CameraPropertyValue) :
  (j < length ms)%nat ->
  Cycle.next_mode ms vs (nth j ms 0) v
  = (let m' := nth (if (S j =? length ms)%nat then O else S j) ms 0 in
     if m' =? varjo_CameraPropertyMode_Manual
     then (m', nth 0 vs zero_value) else (m', v)).
Proof using Hnodup Hlm.
  clear Hlv Hdistinct.
  intros Hj. unfold Cycle.next_mode.
  rewrite (findPropertyModeIndex_found _ _ j Hlm (find_mode_nth j Hj)).
  destruct (Z.of_nat j =? -1) eqn:E; [apply Z.eqb_eq in E; lia|].
  replace (Z.to_nat ((Z.of_nat j + 1) mod Z.of_nat (length ms)))
    with (if (S j =? length ms)%nat then O else S j); [reflexivity|].
  destruct (S j =? length ms)%nat eqn:En.
  - apply Nat.eqb_eq in En.
    replace (Z.of_nat j + 1) with (Z.of_nat (length ms)) by lia.
    rewrite Z.mod_same by lia. reflexivity.
  - apply Nat.eqb_neq in En. rewrite Z.mod_small by lia. lia.
Qed.

Lemma next_at_manual (i : nat) :
  (i < length vs)%nat ->
  Cycle.next ms vs (varjo_CameraPropertyMode_Manual, nth i vs zero_value)
  = if (S i <? length vs)%nat
    then (varjo_CameraPropertyMode_Manual, nth (S i) vs zero_value)
    else Cycle.next_mode ms vs varjo_CameraPropertyMode_Manual
           (nth i vs zero_value).
Proof using Hlv Hdistinct.
  clear Hnodup Hlm.
  intros Hi. unfold Cycle.next.
  change (varjo_CameraPropertyMode_Manual =? varjo_CameraPropertyMode_Manual)
    with true. cbv iota.
  rewrite (Hdistinct i Hi).
  destruct (Z.of_nat i =? -1) eqn:E; [apply Z.eqb_eq in E; lia|].
  destruct (S i <? length vs)%nat eqn:En.
  - apply Nat.ltb_lt in En.
    destruct (Z.of_nat i + 1 <? Z.of_nat (length vs)) eqn:Ez;
      [|apply Z.ltb_ge in Ez; lia].
    replace (Z.to_nat (Z.of_nat i + 1)) with (S i) by lia. reflexivity.
  - apply Nat.ltb_ge in En.
    destruct (Z.of_nat i + 1 <? Z.of_nat (length vs)) eqn:Ez;
      [apply Z.ltb_lt in Ez; lia|reflexivity].
Qed.

Lemma next_at_other (m : varjo_CameraPropertyMode)
    (v : varjo_CameraPropertyValue) :
  m <> varjo_CameraPropertyMode_Manual ->
  Cycle.next ms vs (m, v) = Cycle.next_mode ms vs m v.
Proof using.
  clear Hnodup Hlm Hlv Hdistinct.
  intros Hm. unfold Cycle.next.
  destruct (m =? varjo_CameraPropertyMode_Manual) eqn:E;
    [apply Z.eqb_eq in E; contradiction|reflexivity].
Qed.

Lemma manual_only_at (a j : nat) :
  find_mode varjo_CameraPropertyMode_Manual ms = Some a ->
  (j < length ms)%nat ->
  (nth j ms 0 =? varjo_CameraPropertyMode_Manual) = (j =? a)%nat.
Proof using Hnodup.
  clear Hlm Hlv Hdistinct.
  intros Ha Hj. destruct (find_mode_bound _ _ _ Ha) as [Hlt Hnth].
  destruct (j =? a)%nat eqn:E.
  - apply Nat.eqb_eq in E. subst. now apply Z.eqb_eq.
  - apply Nat.eqb_neq in E. apply Z.eqb_neq. intros Heq.
    apply E. rewrite <- Hnth in Heq.
    exact (proj1 (NoDup_nth ms 0) Hnodup j a Hj Hlt Heq).
Qed.

Lemma manual_nowhere (j : nat) :
  find_mode varjo_CameraPropertyMode_Manual ms = None ->
  (j < length ms)%nat ->
  (nth j ms 0 =? varjo_CameraPropertyMode_Manual) = false.
Proof using.
  clear Hnodup Hlm Hlv Hdistinct.
  intros Hnone Hj. apply Z.eqb_neq. intros Heq.
  apply (find_mode_none _ _ Hnone). rewrite <- Heq. now apply nth_In.
Qed.

End CycleFacts.

Section CycleWithManual.

Variable ms : list varjo_CameraPropertyMode.
Variable vs : list varjo_CameraPropertyValue.
Variable a : nat.
Hypothesis Hnodup : NoDup ms.
Hypothesis Hlm : Z.of_nat (length ms) < 2 ^ 31.
Hypothesis Hlv : Z.of_nat (length vs) < 2 ^ 31.
Hypothesis Hdistinct : values_distinct vs.
Hypothesis Ha : find_mode varjo_CameraPropertyMode_Manual ms = Some a.
Hypothesis Hvs : vs <> [].

Let n := length ms.
Let k := length vs.
Let L := (n - 1 + k)%nat.

Ltac ltb_cases :=
  repeat match goal with
    | |- context [(?x <? ?y)%nat] =>
        let E := fresh "E" in
        destruct (x <? y)%nat eqn:E;
        [apply Nat.ltb_lt in E|apply Nat.ltb_ge in E]
    | |- context [(?x =? ?y)%nat] =>
        let E := fresh "E" in
        destruct (x =? y)%nat eqn:E;
        [apply Nat.eqb_eq in E|apply Nat.eqb_neq in E]
    end.

Lemma step_with_manual (q : nat) (w : varjo_CameraPropertyValue) :
  (q < L)%nat ->
  exists w',
    Cycle.next ms vs (state_at ms vs a q w)
    = state_at ms vs a (if (S q =? L)%nat then O else S q) w'.
Proof.
  intros Hq.
  destruct (find_mode_bound _ _ _ Ha) as [Han Hna]. fold n in Han.
  assert (Hk : (0 < k)%nat) by (subst k; destruct vs; [congruence|simpl; lia]).
  assert (Hmanual : forall j, (j < n)%nat ->
             (nth j ms 0 =? varjo_CameraPropertyMode_Manual) = (j =? a)%nat)
    by (intros; now apply manual_only_at).
  unfold state_at at 1. fold k.
  destruct (q <? a)%nat eqn:E1;
    [apply Nat.ltb_lt in E1|apply Nat.ltb_ge in E1].
  - (* a mode before Manual *)
    assert (Hqn : (q < n)%nat) by lia.
    rewrite next_at_other
      by (apply Z.eqb_neq; rewrite Hmanual by lia; apply Nat.eqb_neq; lia).
    rewrite next_mode_at by assumption. fold n.
    destruct (S q =? n)%nat eqn:E2; [apply Nat.eqb_eq in E2; lia|].
    cbv zeta. rewrite Hmanual by lia.
    destruct (S q =? L)%nat eqn:E3; [apply Nat.eqb_eq in E3; lia|].
    unfold state_at. fold k.
    destruct (S q =? a)%nat eqn:E4;
      [apply Nat.eqb_eq in E4|apply Nat.eqb_neq in E4].
    + exists w. ltb_cases; try lia.
      rewrite E4, Hna. replace (a - a)%nat with O by lia. reflexivity.
    + exists w. ltb_cases; try lia. reflexivity.
  - destruct (q <? a + k)%nat eqn:E2;
      [apply Nat.ltb_lt in E2|apply Nat.ltb_ge in E2].
    + (* Manual, at the value of index q - a *)
      rewrite next_at_manual by (assumption || (fold k; lia)). fold k.
      destruct (S (q - a) <? k)%nat eqn:E3;
        [apply Nat.ltb_lt in E3|apply Nat.ltb_ge in E3].
      * exists w. destruct (S q =? L)%nat eqn:E4;
          [apply Nat.eqb_eq in E4; lia|].
        unfold state_at. fold k. ltb_cases; try lia.
        replace (S q - a)%nat with (S (q - a)) by lia. reflexivity.
      * replace (Cycle.next_mode ms vs varjo_CameraPropertyMode_Manual
                   (nth (q - a) vs zero_value))
          with (Cycle.next_mode ms vs (nth a ms 0) (nth (q - a) vs zero_value))
          by (now rewrite Hna).
        rewrite next_mode_at by assumption. fold n.
        cbv zeta.
        destruct (S a =? n)%nat eqn:E4;
          [apply Nat.eqb_eq in E4|apply Nat.eqb_neq in E4].
        -- rewrite Hmanual by lia.
           destruct (S q =? L)%nat eqn:E5;
             [|apply Nat.eqb_neq in E5; lia].
           unfold state_at. fold k.
           destruct (0 =? a)%nat eqn:E6;
             [apply Nat.eqb_eq in E6|apply Nat.eqb_neq in E6].
           ++ exists w. ltb_cases; try lia.
              rewrite <- E6 at 1. rewrite <- E6 in Hna. rewrite Hna.
              reflexivity.
           ++ exists (nth (q - a) vs zero_value). ltb_cases; try lia.
              reflexivity.
        -- rewrite Hmanual by lia.
           destruct (S a =? a)%nat eqn:E5; [apply Nat.eqb_eq in E5; lia|].
           destruct (S q =? L)%nat eqn:E6; [apply Nat.eqb_eq in E6; lia|].
           exists (nth (q - a) vs zero_value).
           unfold state_at. fold k. ltb_cases; try lia.
           replace (S q + 1 - k)%nat with (S a) by lia. reflexivity.
    + (* a mode after Manual *)
      assert (Hj : (q + 1 - k < n)%nat) by lia.
      rewrite next_at_other
        by (apply Z.eqb_neq; rewrite Hmanual by lia; apply Nat.eqb_neq; lia).
      rewrite next_mode_at by assumption. fold n. cbv zeta.
      destruct (S (q + 1 - k) =? n)%nat eqn:E3;
        [apply Nat.eqb_eq in E3|apply Nat.eqb_neq in E3].
      * rewrite Hmanual by lia.
        destruct (S q =? L)%nat eqn:E5; [|apply Nat.eqb_neq in E5; lia].
        unfold state_at. fold k.
        destruct (0 =? a)%nat eqn:E6;
          [apply Nat.eqb_eq in E6|apply Nat.eqb_neq in E6].
        -- exists w. ltb_cases; try lia.
           rewrite <- E6 at 1. rewrite <- E6 in Hna. rewrite Hna.
           reflexivity.
        -- exists w. ltb_cases; try lia. reflexivity.
      * rewrite Hmanual by lia.
        destruct (S (q + 1 - k) =? a)%nat eqn:E5;
          [apply Nat.eqb_eq in E5; lia|].
        destruct (S q =? L)%nat eqn:E6; [apply Nat.eqb_eq in E6; lia|].
        exists w. unfold state_at. fold k. ltb_cases; try lia.
        replace (S q + 1 - k)%nat with (S (q + 1 - k)) by lia. reflexivity.
Qed.

End CycleWithManual.

Lemma step_without_manual (ms : list varjo_CameraPropertyMode)
    (vs : list varjo_CameraPropertyValue) (q : nat)
    (w : varjo_CameraPropertyValue) :
  NoDup ms -> Z.of_nat (length ms) < 2 ^ 31 ->
  find_mode varjo_CameraPropertyMode_Manual ms = None ->
  (q < length ms)%nat ->
  Cycle.next ms vs (nth q ms 0, w)
  = (nth (if (S q =? length ms)%nat then O else S q) ms 0, w).
Proof.
  intros Hnodup Hlm Hnone Hq.
  rewrite next_at_other
    by (apply Z.eqb_neq; now apply manual_nowhere).
  rewrite (next_mode_at ms vs Hnodup Hlm q w Hq). cbv zeta.
  rewrite manual_nowhere; [reflexivity|assumption|].
  destruct (S q =? length ms)%nat eqn:E; [lia|].
  apply Nat.eqb_neq in E. lia.
Qed.

(** Going round: a map that moves every position of a cycle of length [L]
    to the next one is back at the position it started from after any
    number of full turns. *)
Lemma iter_round {S W : Type} (f : S -> S) (at_ : nat -> W -> S) (L : nat) :
  (forall q w, (q < L)%nat ->
     exists w', f (at_ q w) = at_ (if (Datatypes.S q =? L)%nat then O
                                  else Datatypes.S q) w') ->
  forall m q w, (q < L)%nat ->
    exists w', Nat.iter m f (at_ q w) = at_ ((q + m) mod L)%nat w'.
Proof.
  intros Hstep m. induction m as [|m IH]; intros q w Hq.
  - exists w. simpl. now rewrite Nat.add_0_r, Nat.mod_small.
  - destruct (IH q w Hq) as [w1 H1]. simpl. rewrite H1.
    assert (Hr : ((q + m) mod L < L)%nat) by (apply Nat.mod_upper_bound; lia).
    destruct (Hstep _ w1 Hr) as [w2 H2]. exists w2. rewrite H2. f_equal.
    replace (q + Datatypes.S m)%nat with (Datatypes.S (q + m)) by lia.
    pose proof (Nat.div_mod_eq (q + m) L) as Hd.
    remember ((q + m) mod L)%nat as r eqn:Er.
    remember ((q + m) / L)%nat as d eqn:Ed.
    rewrite Hd. clear Hd Er Ed H1 H2 IH.
    destruct (Datatypes.S r =? L)%nat eqn:E.
    + apply Nat.eqb_eq in E.
      replace (Datatypes.S (L * d + r)) with (0 + (Datatypes.S d) * L)%nat
        by (simpl; rewrite (Nat.mul_comm L d); lia).
      rewrite Nat.Div0.mod_add. symmetry. apply Nat.mod_small. lia.
    + apply Nat.eqb_neq in E.
      replace (Datatypes.S (L * d + r)) with (Datatypes.S r + d * L)%nat
        by (rewrite (Nat.mul_comm L d); lia).
      rewrite Nat.Div0.mod_add. symmetry. apply Nat.mod_small. lia.
Qed.

Lemma whole_turns (q c L : nat) : (q < L)%nat -> ((q + c * L) mod L = q)%nat.
Proof. intros H. rewrite Nat.Div0.mod_add. now apply Nat.mod_small. Qed.

Lemma same_device_offered (p : varjo_CameraPropertyType) (s s' : Sim.Session) :
  same_device s s' -> offered p s' = offered p s.
Proof.
  intros (_ & _ & Hc & Hv). unfold offered. now rewrite Hc, Hv.
Qed.

Lemma same_device_trans (s1 s2 s3 : Sim.Session) :
  same_device s1 s2 -> same_device s2 s3 -> same_device s1 s3.
Proof.
  intros (A1 & A2 & A3 & A4) (B1 & B2 & B3 & B4).
  repeat split; congruence.
Qed.

Lemma same_device_ready (p : varjo_CameraPropertyType) (s s' : Sim.Session) :
  ready p s -> same_device s s' ->
  Sim.lockHeld s' varjo_LockType_Camera = false -> ready p s'.
Proof.
  intros (R1 & R2 & R3 & R4) (A1 & A2 & A3 & A4) Hheld.
  unfold ready. rewrite A1, A2, A4. auto.
Qed.

(** The session refines the cycle: [m] calls of [applyNextModeOrValue] show
    what [m] steps of [Cycle.next] give, and leave the session ready. *)
Lemma sim_iter (p : varjo_CameraPropertyType) (s : Sim.Session) (m : nat) :
  ready p s ->
  (In varjo_CameraPropertyMode_Manual (Sim.modes s p) -> offered p s <> []) ->
  ready p (Nat.iter m (Sim.advance p) s)
  /\ same_device s (Nat.iter m (Sim.advance p) s)
  /\ Sim.shown p (Nat.iter m (Sim.advance p) s)
     = Nat.iter m (Cycle.next (Sim.modes s p) (offered p s)) (Sim.shown p s).
Proof.
  intros Hready Hoffered. induction m as [|m (IHr & IHs & IHshown)].
  - simpl. split; [assumption|]. split; [repeat split|reflexivity].
  - simpl. set (sm := Nat.iter m (Sim.advance p) s) in *.
    assert (Hmodes : Sim.modes sm p = Sim.modes s p)
      by (destruct IHs as (_ & -> & _); reflexivity).
    pose proof (same_device_offered p s sm IHs) as Hoff.
    assert (Hoffered' : In varjo_CameraPropertyMode_Manual (Sim.modes sm p) ->
                        offered p sm <> [])
      by (rewrite Hmodes, Hoff; exact Hoffered).
    destruct (sim_applyNextModeOrValue p sm IHr Hoffered')
      as (_ & Hshown & Hsame & Hheld & _).
    fold (Sim.advance p sm) in Hshown, Hsame, Hheld.
    pose proof (same_device_trans _ _ _ IHs Hsame) as Hsame'.
    split; [exact (same_device_ready p s _ Hready Hsame' Hheld)|].
    split; [exact Hsame'|].
    rewrite Hshown, Hmodes, Hoff, IHshown. reflexivity.
Qed.

Lemma state_at_mode (ms : list varjo_CameraPropertyMode)
    (vs : list varjo_CameraPropertyValue) (a q : nat)
    (w w' : varjo_CameraPropertyValue) :
  fst (state_at ms vs a q w') = fst (state_at ms vs a q w)
  /\ (fst (state_at ms vs a q w) = varjo_CameraPropertyMode_Manual ->
      nth a ms 0 = varjo_CameraPropertyMode_Manual ->
      NoDup ms -> (a < length ms)%nat -> (q < length ms - 1 + length vs)%nat ->
      state_at ms vs a q w' = state_at ms vs a q w).
Proof.
  unfold state_at.
  destruct (q <? a)%nat eqn:E1.
  - simpl. split; [reflexivity|]. intros Hm Hna Hnd Ha Hq.
    apply Nat.ltb_lt in E1. rewrite <- Hna in Hm.
    apply (proj1 (NoDup_nth ms 0) Hnd) in Hm; lia.
  - destruct (q <? a + length vs)%nat eqn:E2; simpl; (split; [reflexivity|]).
    + reflexivity.
    + intros Hm Hna Hnd Ha Hq.
      apply Nat.ltb_ge in E1, E2. rewrite <- Hna in Hm.
      apply (proj1 (NoDup_nth ms 0) Hnd) in Hm; lia.
Qed.



Lemma three_modes_distinct : NoDup three_modes.
Proof.
  unfold three_modes. repeat constructor; simpl; intuition discriminate.
Qed.

Lemma two_values_distinct : values_distinct two_values.
Proof.
  intros [|[|i]] Hi; [reflexivity|reflexivity|simpl in Hi; lia].
Qed.


(** On the scenario the turn takes four calls, not six. *)
Example scenario_period :
  Cycle.period three_modes two_values = 4%nat
  /\ Cycle.stated_period three_modes two_values = 6%nat
  /\ Sim.shown varjo_CameraPropertyType_ExposureTime
       (Nat.iter 4 (Sim.advance varjo_CameraPropertyType_ExposureTime) manual_200)
     = Sim.shown varjo_CameraPropertyType_ExposureTime manual_200.
Proof. repeat split. Qed.


(** * Further properties of the two managers *)

(** ** The two searches *)

Lemma find_mode_first (m : varjo_CameraPropertyMode)
    (ms : list varjo_CameraPropertyMode) (d : nat) :
  find_mode m ms = Some d ->
  forall j, (j < d)%nat -> nth j ms 0 <> m.
Proof.
  revert d; induction ms as [|x ms IH]; intros d; simpl; [discriminate|].
  destruct (x =? m) eqn:E.
  - intros [= <-] j Hj. lia.
  - destruct (find_mode m ms) as [d'|]; [|discriminate].
    intros [= <-] [|j] Hj.
    + now apply Z.eqb_neq.
    + apply (IH d' eq_refl). lia.
Qed.

(** X1. [findPropertyModeIndex] answers -1 exactly when the mode is not in
    the list, and otherwise the index of its first occurrence. *)
Theorem findPropertyModeIndex_first_occurrence :
  forall (mode : varjo_CameraPropertyMode)
         (modes : list varjo_CameraPropertyMode),
    Z.of_nat (length modes) < 2 ^ 31 ->
    let r := findPropertyModeIndex mode modes in
    (r = -1 /\ ~ In mode modes)
    \/ (0 <= r < Z.of_nat (length modes)
        /\ nth (Z.to_nat r) modes 0 = mode
        /\ forall j, (j < Z.to_nat r)%nat -> nth j modes 0 <> mode).
Proof.
  intros mode modes Hlen r; subst r.
  destruct (find_mode mode modes) as [d|] eqn:Hfind.
  - right. rewrite (findPropertyModeIndex_found _ _ d Hlen Hfind).
    destruct (find_mode_bound _ _ _ Hfind) as [Hd Hnth].
    rewrite Nat2Z.id. split; [lia|]. split; [exact Hnth|].
    exact (find_mode_first _ _ _ Hfind).
  - left. unfold findPropertyModeIndex. rewrite Hfind.
    split; [reflexivity|now apply find_mode_none].
Qed.

Lemma findPropertyModeIndex_witness :
  Z.of_nat (length three_modes) < 2 ^ 31
  /\ let r := findPropertyModeIndex varjo_CameraPropertyMode_Auto three_modes in
     (r = -1 /\ ~ In varjo_CameraPropertyMode_Auto three_modes)
     \/ (0 <= r < Z.of_nat (length three_modes)
         /\ nth (Z.to_nat r) three_modes 0 = varjo_CameraPropertyMode_Auto
         /\ forall j, (j < Z.to_nat r)%nat ->
                      nth j three_modes 0 <> varjo_CameraPropertyMode_Auto).
Proof.
  split; [reflexivity|].
  apply (findPropertyModeIndex_first_occurrence varjo_CameraPropertyMode_Auto
           three_modes).
  reflexivity.
Defined.

(** A value can be searched for: its tag is Bool or Int, or it is Double
    and not a NaN. *)
Lemma value_matches_itself (v : varjo_CameraPropertyValue) :
  type v = varjo_CameraPropertyDataType_Bool
  \/ type v = varjo_CameraPropertyDataType_Int
  \/ (type v = varjo_CameraPropertyDataType_Double
      /\ Double.is_nan (doubleValue v) = false) ->
  value_matches v v = true.
Proof.
  unfold value_matches. intros [H|[H|[H Hnan]]]; rewrite H; simpl.
  - apply Z.eqb_refl.
  - apply Z.eqb_refl.
  - unfold Double.eqb. rewrite Hnan, Z.eqb_refl. reflexivity.
Qed.

(** X2. A value that is an element of the list is found, at its own position
    or before it, provided it is of type Bool or Int, or a Double other than
    a NaN. *)
Theorem findPropertyValueIndex_finds_elements :
  forall (v : varjo_CameraPropertyValue)
         (values : list varjo_CameraPropertyValue) (i : nat),
    Z.of_nat (length values) < 2 ^ 31 ->
    nth_error values i = Some v ->
    type v = varjo_CameraPropertyDataType_Bool
    \/ type v = varjo_CameraPropertyDataType_Int
    \/ (type v = varjo_CameraPropertyDataType_Double
        /\ Double.is_nan (doubleValue v) = false) ->
    0 <= findPropertyValueIndex v values <= Z.of_nat i.
Proof.
  intros v values i Hlen Hnth Htag.
  pose proof (value_matches_itself v Htag) as Hself.
  unfold findPropertyValueIndex in *. rewrite to_int_small in * by lia.
  pose proof (find_value_from_first v values 0 (Z.of_nat (length values))
                ltac:(lia) ltac:(lia)) as H.
  cbv zeta in H. rewrite Z.sub_0_r in H.
  destruct H as [[Hr Hall]|(Hr & _ & Hbefore)].
  - rewrite (Hall v (nth_error_In _ _ Hnth)) in Hself. discriminate.
  - split; [lia|].
    destruct (Z_le_gt_dec
                (find_value_from v values 0 (Z.of_nat (length values)))
                (Z.of_nat i)) as [Hle|Hgt]; [exact Hle|].
    rewrite (Hbefore i v ltac:(lia) Hnth) in Hself. discriminate.
Qed.

Lemma findPropertyValueIndex_finds_elements_witness :
  0 <= findPropertyValueIndex (int_value 200) [int_value 100; int_value 200]
    <= Z.of_nat 1.
Proof.
  apply (findPropertyValueIndex_finds_elements (int_value 200)
           [int_value 100; int_value 200] 1).
  - reflexivity.
  - reflexivity.
  - right; left; reflexivity.
Defined.

Lemma find_value_from_no_match (v : varjo_CameraPropertyValue)
    (rest : list varjo_CameraPropertyValue) :
  (forall val, value_matches v val = false) ->
  forall i bound, find_value_from v rest i bound = -1.
Proof.
  intros Hno. induction rest as [|val rest IH]; intros i bound; simpl.
  - reflexivity.
  - rewrite Hno, IH. now destruct (i <? bound).
Qed.

(** X3. A searched value that is a NaN of type Double, or whose tag is none
    of Bool, Int and Double, is found in no list, not even in one that holds
    the very same value. *)
Theorem findPropertyValueIndex_never_finds :
  forall (v : varjo_CameraPropertyValue)
         (values : list varjo_CameraPropertyValue),
    (type v = varjo_CameraPropertyDataType_Double
     /\ Double.is_nan (doubleValue v) = true)
    \/ (type v <> varjo_CameraPropertyDataType_Bool
        /\ type v <> varjo_CameraPropertyDataType_Int
        /\ type v <> varjo_CameraPropertyDataType_Double) ->
    findPropertyValueIndex v values = -1.
Proof.
  intros v values H. unfold findPropertyValueIndex.
  apply find_value_from_no_match. intros val. unfold value_matches.
  destruct H as [[Ht Hnan]|(Hb & Hi & Hd)].
  - rewrite Ht. simpl. unfold Double.eqb. now rewrite Hnan.
  - apply Z.eqb_neq in Hb, Hi, Hd. now rewrite Hb, Hd, Hi.
Qed.

Lemma findPropertyValueIndex_never_finds_witness :
  findPropertyValueIndex
    (double_value (Double.of_fields 0 2047 1))
    [double_value (Double.of_fields 0 2047 1)] = -1.
Proof.
  apply (findPropertyValueIndex_never_finds
           (double_value (Double.of_fields 0 2047 1))
           [double_value (Double.of_fields 0 2047 1)]).
  left. split; reflexivity.
Defined.

(** ** The print methods *)

Lemma calls_nil_reads_only (t : Trace) : calls t = [] -> reads_only t.
Proof.
  induction t as [|[c r|l m] t IH]; simpl; intros H.
  - apply reads_only_nil.
  - discriminate.
  - apply reads_only_cons; [split; reflexivity|auto].
Qed.

Lemma reads_only_cons_inv (e : Event) (t : Trace) :
  reads_only (e :: t) -> reads_only t.
Proof.
  unfold reads_only. destruct e as [c r|l m]; simpl.
  - destruct c; simpl; intros [H1 H2]; try discriminate; now split.
  - auto.
Qed.

Lemma wp_bind_reads {A B : Type} (m : Prog A) (f : A -> Prog B) :
  wp m (fun _ t => reads_only t) ->
  (forall a, wp (f a) (fun _ t => reads_only t)) ->
  wp (bind m f) (fun _ t => reads_only t).
Proof.
  intros Hm Hf. eapply wp_bind_post; [exact Hm|].
  intros [a|] t1 H1; cbv beta in *.
  - eapply wp_mono; [|apply Hf]. intros o t2 H2. now apply reads_only_app.
  - exact H1.
Qed.

Lemma wp_log_reads (l : LogLevel) (m : string) :
  wp (log l m) (fun _ t => reads_only t).
Proof. simpl. apply reads_only_cons; [split; reflexivity|apply reads_only_nil]. Qed.

Lemma wp_ret_reads {A : Type} (a : A) : wp (Ret a) (fun _ t => reads_only t).
Proof. simpl. apply reads_only_nil. Qed.

Lemma wp_quiet_reads {A : Type} (p : Prog A) :
  wp p (fun _ t => calls t = []) -> wp p (fun _ t => reads_only t).
Proof. apply wp_mono. intros _ t. apply calls_nil_reads_only. Qed.

Lemma wp_drop_outcome {A : Type} (p : Prog A)
    (P : Outcome A -> Prop) (Q : Trace -> Prop) :
  wp p (fun o t => P o /\ Q t) -> wp p (fun _ t => Q t).
Proof. apply wp_mono. now intros o t [_ H]. Qed.

Lemma wp_propertyTypeToString (h : Host) (p : varjo_CameraPropertyType) :
  quiet h -> wp (Printing.propertyTypeToString h p) (fun _ t => reads_only t).
Proof.
  intros [Hassert _]. unfold Printing.propertyTypeToString.
  repeat (wp_if; [apply wp_ret_reads|]).
  apply wp_bind_reads; [now apply wp_quiet_reads|intros; apply wp_ret_reads].
Qed.

Lemma wp_propertyModeToString (h : Host) (m : varjo_CameraPropertyMode) :
  quiet h -> wp (Printing.propertyModeToString h m) (fun _ t => reads_only t).
Proof.
  intros [Hassert _]. unfold Printing.propertyModeToString.
  repeat (wp_if; [apply wp_ret_reads|]).
  apply wp_bind_reads; [now apply wp_quiet_reads|intros; apply wp_ret_reads].
Qed.

Lemma wp_propertyValueToString (h : Host) (v : varjo_CameraPropertyValue) :
  quiet h -> wp (Printing.propertyValueToString h v) (fun _ t => reads_only t).
Proof.
  intros [_ Hcritical]. unfold Printing.propertyValueToString.
  repeat (wp_if; [apply wp_ret_reads|]).
  apply wp_bind_reads; [apply wp_quiet_reads, Hcritical|intros; apply wp_ret_reads].
Qed.

Lemma wp_call_reads (c : Call) :
  is_mutation c = false -> (forall r, touches_lock [Called c r] = false) ->
  wp (call c) (fun _ t => reads_only t).
Proof.
  intros Hm Hl r. simpl. split; [apply Hl|].
  simpl. now rewrite Hm.
Qed.

Lemma wp_getPropertyAsString_reads (h : Host) (p : varjo_CameraPropertyType) :
  quiet h -> wp (Printing.getPropertyAsString h p) (fun _ t => reads_only t).
Proof.
  intros Hq. unfold Printing.getPropertyAsString.
  apply wp_bind_reads; [now apply wp_call_reads|intros mode].
  apply wp_bind_reads; [exact (wp_drop_outcome _ _ _ wp_CHECK_VARJO_ERR)|intros _].
  wp_if.
  - apply wp_bind_reads; [now apply wp_call_reads|intros v].
    apply wp_bind_reads; [exact (wp_drop_outcome _ _ _ wp_CHECK_VARJO_ERR)|intros _].
    now apply wp_propertyValueToString.
  - now apply wp_propertyModeToString.
Qed.

Lemma wp_for_each_reads {A : Type} (l : list A) (body : A -> Prog unit) :
  (forall x, wp (body x) (fun _ t => reads_only t)) ->
  wp (Printing.for_each l body) (fun _ t => reads_only t).
Proof.
  intros Hbody. induction l as [|x l IH]; simpl Printing.for_each.
  - apply wp_ret_reads.
  - apply wp_bind_reads; [apply Hbody|intros _; exact IH].
Qed.

Lemma wp_printCurrentPropertyConfig (h : Host) :
  quiet h -> wp (Printing.printCurrentPropertyConfig h) (fun _ t => reads_only t).
Proof.
  intros Hq. unfold Printing.printCurrentPropertyConfig.
  apply wp_bind_reads; [apply wp_log_reads|intros _].
  apply wp_for_each_reads. intros p.
  apply wp_bind_reads; [now apply wp_propertyTypeToString|intros _].
  apply wp_bind_reads; [now apply wp_getPropertyAsString_reads|intros _].
  apply wp_log_reads.
Qed.

Lemma wp_printSupportedPropertyModesAndValues (h : Host)
    (p : varjo_CameraPropertyType) :
  quiet h ->
  wp (Printing.printSupportedPropertyModesAndValues h p)
     (fun _ t => reads_only t).
Proof.
  intros Hq. unfold Printing.printSupportedPropertyModesAndValues.
  apply wp_bind_reads;
    [exact (wp_drop_outcome _ _ _ (wp_getPropertyModeList p))|intros modes].
  apply wp_bind_reads;
    [exact (wp_drop_outcome _ _ _ (wp_getPropertyValueList p))|intros values].
  apply wp_bind_reads; [now apply wp_propertyTypeToString|intros _].
  apply wp_bind_reads; [apply wp_log_reads|intros _].
  apply wp_bind_reads.
  - destruct (0 <? length modes)%nat; [|apply wp_ret_reads].
    apply wp_bind_reads; [apply wp_log_reads|intros _].
    apply wp_for_each_reads. intros m.
    apply wp_bind_reads; [now apply wp_propertyModeToString|intros _].
    apply wp_log_reads.
  - intros _. destruct (0 <? length values)%nat; [|apply wp_ret_reads].
    apply wp_bind_reads; [apply wp_log_reads|intros _].
    apply wp_for_each_reads. intros v.
    apply wp_bind_reads; [now apply wp_propertyValueToString|intros _].
    apply wp_log_reads.
Qed.

Lemma wp_printSupportedProperties (h : Host) :
  quiet h -> wp (Printing.printSupportedProperties h) (fun _ t => reads_only t).
Proof.
  intros Hq. unfold Printing.printSupportedProperties.
  apply wp_bind_reads; [apply wp_log_reads|intros _].
  repeat (apply wp_bind_reads;
          [now apply wp_printSupportedPropertyModesAndValues|intros _]).
  now apply wp_printSupportedPropertyModesAndValues.
Qed.

Lemma release_host_quiet : quiet release_host.
Proof. split; [reflexivity|intros message; reflexivity]. Qed.

Lemma wp_CHECK_VARJO_ERR_calls :
  wp CHECK_VARJO_ERR
     (fun o t => exists e, o = Returned e /\ calls t = [varjo_GetError]).
Proof.
  intros e. simpl. destruct (e =? varjo_NoError); simpl;
    exists e; split; reflexivity.
Qed.

Lemma wp_quiet_then_ret {A : Type} (m : Prog unit) (a : A) :
  wp m (fun _ t => calls t = []) ->
  wp (m ;; Ret a) (fun _ t => calls t = []).
Proof.
  intros H. eapply wp_bind_post; [exact H|].
  intros [[]|] t1 H1; cbv beta in *; simpl; now rewrite ?app_nil_r.
Qed.

Lemma wp_propertyModeToString_text (h : Host) (m : varjo_CameraPropertyMode) :
  quiet h ->
  wp (Printing.propertyModeToString h m)
     (fun o t =>
        calls t = []
        /\ (m = varjo_CameraPropertyMode_Off -> o = Returned "Off"%string)
        /\ (m = varjo_CameraPropertyMode_Auto -> o = Returned "Auto"%string)
        /\ (m = varjo_CameraPropertyMode_Manual -> o = Returned "Manual"%string)).
Proof.
  intros [Hassert _]. unfold Printing.propertyModeToString.
  destruct (m =? varjo_CameraPropertyMode_Off) eqn:E0;
    [apply Z.eqb_eq in E0; subst; simpl; repeat split; intros; discriminate|].
  destruct (m =? varjo_CameraPropertyMode_Auto) eqn:E1;
    [apply Z.eqb_eq in E1; subst; simpl; repeat split; intros; discriminate|].
  destruct (m =? varjo_CameraPropertyMode_Manual) eqn:E2;
    [apply Z.eqb_eq in E2; subst; simpl; repeat split; intros; discriminate|].
  apply Z.eqb_neq in E0, E1, E2.
  eapply wp_mono; [|apply (wp_quiet_then_ret _ _ Hassert)].
  intros o t Ht. cbv beta in Ht. repeat split; [exact Ht|intros; contradiction..].
Qed.

Lemma wp_propertyValueToString_text (h : Host) (v : varjo_CameraPropertyValue) :
  quiet h ->
  wp (Printing.propertyValueToString h v)
     (fun o t =>
        calls t = []
        /\ (type v = varjo_CameraPropertyDataType_Bool ->
            o = Returned (show_integer h (boolValue v)))
        /\ (type v = varjo_CameraPropertyDataType_Int ->
            o = Returned (show_integer h (intValue v)))
        /\ (type v = varjo_CameraPropertyDataType_Double ->
            o = Returned (show_fixed h 2 (doubleValue v)))).
Proof.
  intros [_ Hcritical]. unfold Printing.propertyValueToString.
  destruct (type v =? varjo_CameraPropertyDataType_Bool) eqn:E0;
    [apply Z.eqb_eq in E0; rewrite E0; simpl; repeat split; intros; discriminate|].
  destruct (type v =? varjo_CameraPropertyDataType_Int) eqn:E1;
    [apply Z.eqb_eq in E1; rewrite E1; simpl; repeat split; intros; discriminate|].
  destruct (type v =? varjo_CameraPropertyDataType_Double) eqn:E2;
    [apply Z.eqb_eq in E2; rewrite E2; simpl; repeat split; intros; discriminate|].
  apply Z.eqb_neq in E0, E1, E2.
  eapply wp_mono; [|apply (wp_quiet_then_ret _ _ (Hcritical _))].
  intros o t Ht. cbv beta in Ht. repeat split; [exact Ht|intros; contradiction..].
Qed.

(** X4. [getPropertyAsString] asks for the mode; only when the answer is
    Manual does it ask for the value, and then the text is that of the
    value, a Bool being written as the integer it holds; otherwise the text
    is the name of the mode. *)
Theorem getPropertyAsString_reports_mode_or_manual_value :
  forall (St : Type) (dev : Device St) (s : St) (h : Host)
         (p : varjo_CameraPropertyType),
    quiet h ->
    let r := run dev (Printing.getPropertyAsString h p) s in
    exists mode,
      In (Called (varjo_MRGetCameraPropertyMode p) mode) (trace r)
      /\ if mode =? varjo_CameraPropertyMode_Manual then
           exists v,
             calls (trace r)
             = [varjo_MRGetCameraPropertyMode p; varjo_GetError;
                varjo_MRGetCameraPropertyValue p; varjo_GetError]
             /\ In (Called (varjo_MRGetCameraPropertyValue p) v) (trace r)
             /\ (type v = varjo_CameraPropertyDataType_Bool ->
                 outcome r = Returned (show_integer h (boolValue v)))
             /\ (type v = varjo_CameraPropertyDataType_Int ->
                 outcome r = Returned (show_integer h (intValue v)))
             /\ (type v = varjo_CameraPropertyDataType_Double ->
                 outcome r = Returned (show_fixed h 2 (doubleValue v)))
         else
           calls (trace r) = [varjo_MRGetCameraPropertyMode p; varjo_GetError]
           /\ (mode = varjo_CameraPropertyMode_Off ->
               outcome r = Returned "Off"%string)
           /\ (mode = varjo_CameraPropertyMode_Auto ->
               outcome r = Returned "Auto"%string).
Proof.
  intros St dev s h p Hq r. subst r.
  apply (wp_sound dev (Printing.getPropertyAsString h p)
    (fun o t =>
       exists mode,
         In (Called (varjo_MRGetCameraPropertyMode p) mode) t
         /\ if mode =? varjo_CameraPropertyMode_Manual then
              exists v,
                calls t
                = [varjo_MRGetCameraPropertyMode p; varjo_GetError;
                   varjo_MRGetCameraPropertyValue p; varjo_GetError]
                /\ In (Called (varjo_MRGetCameraPropertyValue p) v) t
                /\ (type v = varjo_CameraPropertyDataType_Bool ->
                    o = Returned (show_integer h (boolValue v)))
                /\ (type v = varjo_CameraPropertyDataType_Int ->
                    o = Returned (show_integer h (intValue v)))
                /\ (type v = varjo_CameraPropertyDataType_Double ->
                    o = Returned (show_fixed h 2 (doubleValue v)))
            else
              calls t = [varjo_MRGetCameraPropertyMode p; varjo_GetError]
              /\ (mode = varjo_CameraPropertyMode_Off ->
                  o = Returned "Off"%string)
              /\ (mode = varjo_CameraPropertyMode_Auto ->
                  o = Returned "Auto"%string))).
  unfold Printing.getPropertyAsString.
  wp_call. rename r into mode.
  wp_helper wp_CHECK_VARJO_ERR_calls.
  destruct Hhelper as (e1 & -> & Hc1).
  destruct (mode =? varjo_CameraPropertyMode_Manual) eqn:Emode.
  - wp_call. rename r into v.
    wp_helper wp_CHECK_VARJO_ERR_calls.
    destruct Hhelper as (e2 & -> & Hc2).
    eapply wp_mono; [|apply (wp_propertyValueToString_text h v Hq)].
    intros o t2 (Hc3 & Hb & Hi & Hd). cbv beta.
    exists mode. split; [now left|]. rewrite Emode. exists v.
    split; [|split; [|now repeat split]].
    + simpl. rewrite !calls_app. simpl. rewrite calls_app, Hc1, Hc2, Hc3.
      reflexivity.
    + right. apply in_or_app. right. now left.
  - eapply wp_mono; [|apply (wp_propertyModeToString_text h mode Hq)].
    intros o t2 (Hc3 & Hoff & Hauto & _). cbv beta.
    exists mode. split; [now left|]. rewrite Emode.
    split; [|now split].
    simpl. rewrite calls_app, Hc1, Hc3. reflexivity.
Qed.

Lemma getPropertyAsString_witness :
  quiet release_host
  /\ let r := run Sim.device
                (Printing.getPropertyAsString release_host
                   varjo_CameraPropertyType_ExposureTime) manual_200 in
     exists mode,
       In (Called (varjo_MRGetCameraPropertyMode
                     varjo_CameraPropertyType_ExposureTime) mode) (trace r)
       /\ if mode =? varjo_CameraPropertyMode_Manual then
            exists v,
              calls (trace r)
              = [varjo_MRGetCameraPropertyMode
                   varjo_CameraPropertyType_ExposureTime; varjo_GetError;
                 varjo_MRGetCameraPropertyValue
                   varjo_CameraPropertyType_ExposureTime; varjo_GetError]
              /\ In (Called (varjo_MRGetCameraPropertyValue
                               varjo_CameraPropertyType_ExposureTime) v)
                    (trace r)
              /\ (type v = varjo_CameraPropertyDataType_Bool ->
                  outcome r
                  = Returned (show_integer release_host (boolValue v)))
              /\ (type v = varjo_CameraPropertyDataType_Int ->
                  outcome r
                  = Returned (show_integer release_host (intValue v)))
              /\ (type v = varjo_CameraPropertyDataType_Double ->
                  outcome r
                  = Returned (show_fixed release_host 2 (doubleValue v)))
          else
            calls (trace r)
            = [varjo_MRGetCameraPropertyMode
                 varjo_CameraPropertyType_ExposureTime; varjo_GetError]
            /\ (mode = varjo_CameraPropertyMode_Off ->
                outcome r = Returned "Off"%string)
            /\ (mode = varjo_CameraPropertyMode_Auto ->
                outcome r = Returned "Auto"%string).
Proof.
  split.
  - split; [reflexivity|intros message; reflexivity].
  - apply (getPropertyAsString_reports_mode_or_manual_value Sim.Session
             Sim.device manual_200 release_host
             varjo_CameraPropertyType_ExposureTime).
    split; [reflexivity|intros message; reflexivity].
Defined.

Lemma mode_queries_app (t1 t2 : Trace) :
  mode_queries (t1 ++ t2) = mode_queries t1 ++ mode_queries t2.
Proof.
  induction t1 as [|[c r|l m] t1 IH]; simpl; auto.
  destruct c; simpl; now rewrite ?IH.
Qed.

Lemma value_queries_app (t1 t2 : Trace) :
  value_queries (t1 ++ t2) = value_queries t1 ++ value_queries t2.
Proof.
  induction t1 as [|[c r|l m] t1 IH]; simpl; auto.
  destruct c; simpl; now rewrite ?IH.
Qed.

Lemma manual_answers_app (t1 t2 : Trace) :
  manual_answers (t1 ++ t2) = manual_answers t1 ++ manual_answers t2.
Proof.
  induction t1 as [|[c r|l m] t1 IH]; simpl; auto.
  destruct c; simpl; rewrite ?IH; auto.
  destruct (r =? varjo_CameraPropertyMode_Manual); simpl; now rewrite ?IH.
Qed.

Lemma calls_nil_asks_nothing (t : Trace) : calls t = [] -> asks_nothing t.
Proof.
  unfold asks_nothing.
  induction t as [|[c r|l m] t IH]; simpl; intros H; auto. discriminate.
Qed.

Lemma wp_CHECK_VARJO_ERR_asks_nothing :
  wp CHECK_VARJO_ERR (fun o t => (exists e, o = Returned e) /\ asks_nothing t).
Proof.
  intros e. simpl. destruct (e =? varjo_NoError); simpl;
    (split; [now exists e|repeat split]).
Qed.

Lemma wp_quiet_asks_nothing {A : Type} (p : Prog A) :
  wp p (fun _ t => calls t = []) -> wp p (fun _ t => asks_nothing t).
Proof. apply wp_mono. intros _ t. apply calls_nil_asks_nothing. Qed.

Ltac asks_eval :=
  repeat match goal with
    | H : asks_nothing _ |- _ => destruct H as (? & ? & ?)
    end;
  repeat
    (simpl;
     rewrite ?mode_queries_app, ?value_queries_app, ?manual_answers_app,
       ?app_nil_r;
     repeat match goal with
       | H : mode_queries ?t = _ |- context [mode_queries ?t] => rewrite H
       | H : value_queries ?t = _ |- context [value_queries ?t] => rewrite H
       | H : manual_answers ?t = _ |- context [manual_answers ?t] => rewrite H
       end).

Lemma wp_getPropertyAsString_queries (h : Host) (p : varjo_CameraPropertyType) :
  quiet h ->
  wp (Printing.getPropertyAsString h p)
     (fun _ t => mode_queries t = [p] /\ value_queries t = manual_answers t).
Proof.
  intros Hq. unfold Printing.getPropertyAsString.
  wp_call. rename r into mode.
  wp_helper wp_CHECK_VARJO_ERR_asks_nothing.
  destruct Hhelper as [[e1 ->] H1].
  destruct (mode =? varjo_CameraPropertyMode_Manual) eqn:Emode.
  - wp_call. rename r into v.
    wp_helper wp_CHECK_VARJO_ERR_asks_nothing.
    destruct Hhelper as [[e2 ->] H2].
    eapply wp_mono; [|apply (wp_propertyValueToString_text h v Hq)].
    intros o t2 (Hc3 & _). apply calls_nil_asks_nothing in Hc3.
    cbv beta. simpl. rewrite Emode. asks_eval.
  now split.
  - eapply wp_mono; [|apply (wp_propertyModeToString_text h mode Hq)].
    intros o t2 (Hc3 & _). apply calls_nil_asks_nothing in Hc3.
    cbv beta. simpl. rewrite Emode. asks_eval. now split.
Qed.

Lemma wp_propertyTypeToString_quiet (h : Host) (p : varjo_CameraPropertyType) :
  quiet h -> wp (Printing.propertyTypeToString h p) (fun _ t => calls t = []).
Proof.
  intros [Hassert _]. unfold Printing.propertyTypeToString.
  repeat (wp_if; [reflexivity|]).
  now apply wp_quiet_then_ret.
Qed.

Lemma wp_current_config_body (h : Host) (p : varjo_CameraPropertyType) :
  quiet h ->
  wp (Printing.propertyTypeToString h p ;;
      Printing.getPropertyAsString h p ;;
      log LOGI "  %s: %s")
     (fun o t =>
        value_queries t = manual_answers t
        /\ match o with
           | Returned _ => mode_queries t = [p]
           | Crashed => mode_queries t = [] \/ mode_queries t = [p]
           end).
Proof.
  intros Hq.
  eapply wp_bind_post;
    [apply (wp_quiet_asks_nothing _ (wp_propertyTypeToString_quiet h p Hq))|].
  intros o1 t1 H1. cbv beta in H1.
  destruct o1 as [s1|]; cbv beta iota.
  - eapply wp_bind_post; [apply (wp_getPropertyAsString_queries h p Hq)|].
    intros o2 t2 [Hm Hv]. destruct o2 as [s2|]; cbv beta iota; simpl.
    + asks_eval. now split.
    + asks_eval. split; [reflexivity|now right].
  - asks_eval. split; [reflexivity|now left].
Qed.

Lemma wp_current_config_loop (h : Host) (l : list varjo_CameraPropertyType) :
  quiet h ->
  wp (Printing.for_each l (fun propertyType =>
        Printing.propertyTypeToString h propertyType ;;
        Printing.getPropertyAsString h propertyType ;;
        log LOGI "  %s: %s"))
     (fun o t =>
        value_queries t = manual_answers t
        /\ (o = Returned tt -> mode_queries t = l)
        /\ exists k, mode_queries t = firstn k l).
Proof.
  intros Hq. induction l as [|p l IH]; simpl Printing.for_each.
  - simpl. repeat split. now exists O.
  - eapply wp_bind_post; [apply (wp_current_config_body h p Hq)|].
    intros o t1 [Hv Hm]. destruct o as [[]|]; cbv beta iota.
    + eapply wp_mono; [|exact IH].
      intros o t2 (Hv2 & Hret & k & Hk). cbv beta in *.
      rewrite mode_queries_app, value_queries_app, manual_answers_app.
      rewrite Hv, Hv2, Hm. simpl. split; [reflexivity|]. split.
      * intros Ho. now rewrite (Hret Ho).
      * exists (S k). simpl. now rewrite Hk.
    + split; [exact Hv|]. split; [discriminate|].
      destruct Hm as [Hm|Hm]; rewrite Hm; [now exists O|now exists 1%nat].
Qed.

(** X5. [printCurrentPropertyConfig] only reads: it asks for the mode of the
    five properties in turn, and for the value of exactly those whose mode
    was answered Manual. *)
Theorem printCurrentPropertyConfig_queries :
  forall (St : Type) (dev : Device St) (s : St) (h : Host),
    quiet h ->
    let r := run dev (Printing.printCurrentPropertyConfig h) s in
    reads_only (trace r)
    /\ value_queries (trace r) = manual_answers (trace r)
    /\ (exists k, mode_queries (trace r) = firstn k Printing.property_types)
    /\ (outcome r = Returned tt ->
        mode_queries (trace r) = Printing.property_types).
Proof.
  intros St dev s h Hq r. subst r. split.
  - exact (wp_sound dev _ _ s (wp_printCurrentPropertyConfig h Hq)).
  - apply (wp_sound dev (Printing.printCurrentPropertyConfig h)
      (fun o t =>
         value_queries t = manual_answers t
         /\ (exists k, mode_queries t = firstn k Printing.property_types)
         /\ (o = Returned tt -> mode_queries t = Printing.property_types))).
    unfold Printing.printCurrentPropertyConfig. wp_log.
    eapply wp_mono; [|apply (wp_current_config_loop h _ Hq)].
    intros o t (Hv & Hret & Hk). cbv beta. simpl. now repeat split.
Qed.

Lemma printCurrentPropertyConfig_witness :
  quiet release_host
  /\ let r := run Sim.device (Printing.printCurrentPropertyConfig release_host)
                manual_200 in
     reads_only (trace r)
     /\ value_queries (trace r) = manual_answers (trace r)
     /\ (exists k, mode_queries (trace r) = firstn k Printing.property_types)
     /\ (outcome r = Returned tt ->
         mode_queries (trace r) = Printing.property_types).
Proof.
  split.
  - split; [reflexivity|intros message; reflexivity].
  - apply (printCurrentPropertyConfig_queries Sim.Session Sim.device manual_200
             release_host).
    split; [reflexivity|intros message; reflexivity].
Defined.

(** X6. [printSupportedProperties] and
    [printSupportedPropertyModesAndValues] only read: whatever they are
    answered, they request and release no lock and issue no mutating call. *)
Theorem printSupportedProperties_only_reads :
  forall (St : Type) (dev : Device St) (s : St) (h : Host),
    quiet h ->
    reads_only (trace (run dev (Printing.printSupportedProperties h) s))
    /\ forall p,
         reads_only
           (trace (run dev (Printing.printSupportedPropertyModesAndValues h p) s)).
Proof.
  intros St dev s h Hq. split.
  - exact (wp_sound dev _ _ s (wp_printSupportedProperties h Hq)).
  - intros p.
    exact (wp_sound dev _ _ s (wp_printSupportedPropertyModesAndValues h p Hq)).
Qed.

Lemma printSupportedProperties_witness :
  quiet release_host
  /\ reads_only
       (trace (run Sim.device (Printing.printSupportedProperties release_host)
                 manual_200))
  /\ forall p,
       reads_only
         (trace (run Sim.device
                   (Printing.printSupportedPropertyModesAndValues release_host p)
                   manual_200)).
Proof.
  split.
  - split; [reflexivity|intros message; reflexivity].
  - apply (printSupportedProperties_only_reads Sim.Session Sim.device manual_200
             release_host).
    split; [reflexivity|intros message; reflexivity].
Defined.

(** ** The two list queries *)

Lemma filled_length {A : Type} (n : nat) (dflt : A) (written : list A) :
  length (filled n dflt written) = n.
Proof.
  unfold filled. rewrite length_app, length_firstn, repeat_length. lia.
Qed.

Lemma filled_nth {A : Type} (n : nat) (dflt : A) (written : list A) (i : nat) :
  (i < n)%nat ->
  nth i (filled n dflt written) dflt = nth i written dflt.
Proof.
  intros Hi. unfold filled.
  destruct (Nat.lt_ge_cases i (length written)) as [Hlt|Hge].
  - rewrite app_nth1 by (rewrite length_firstn; lia).
    revert i n Hi Hlt. induction written as [|x w IH]; intros i n Hi Hlt.
    + simpl in Hlt. lia.
    + destruct n as [|n]; [lia|]. destruct i as [|i]; simpl; [reflexivity|].
      apply IH; simpl in Hlt; lia.
  - rewrite app_nth2 by (rewrite length_firstn; lia).
    rewrite nth_repeat. symmetry. now apply nth_overflow.
Qed.

(** X7. [getPropertyModeList] asks for the count, then for that many modes,
    then for the error, and always returns a vector of exactly the counted
    length: its entries are those the runtime wrote, and zero (the mode Off)
    where it wrote none. *)
Theorem getPropertyModeList_has_the_counted_length :
  forall (St : Type) (dev : Device St) (s : St)
         (p : varjo_CameraPropertyType),
    let r := run dev (CameraManager.getPropertyModeList p) s in
    exists count written modes,
      In (Called (varjo_MRGetCameraPropertyModeCount p) count) (trace r)
      /\ In (Called (varjo_MRGetCameraPropertyModes p
                      (Int.to_int (Z.of_nat count))) written) (trace r)
      /\ calls (trace r)
         = [varjo_MRGetCameraPropertyModeCount p;
            varjo_MRGetCameraPropertyModes p (Int.to_int (Z.of_nat count));
            varjo_GetError]
      /\ outcome r = Returned modes
      /\ length modes = count
      /\ forall i, (i < count)%nat ->
                   nth i modes varjo_CameraPropertyMode_Off
                   = nth i written varjo_CameraPropertyMode_Off.
Proof.
  intros St dev s p r. subst r.
  apply (wp_sound dev (CameraManager.getPropertyModeList p)
    (fun o t =>
       exists count written modes,
         In (Called (varjo_MRGetCameraPropertyModeCount p) count) t
         /\ In (Called (varjo_MRGetCameraPropertyModes p
                         (Int.to_int (Z.of_nat count))) written) t
         /\ calls t
            = [varjo_MRGetCameraPropertyModeCount p;
               varjo_MRGetCameraPropertyModes p (Int.to_int (Z.of_nat count));
               varjo_GetError]
         /\ o = Returned modes
         /\ length modes = count
         /\ forall i, (i < count)%nat ->
                      nth i modes varjo_CameraPropertyMode_Off
                      = nth i written varjo_CameraPropertyMode_Off)).
  unfold CameraManager.getPropertyModeList.
  wp_call. rename r into count. wp_call. rename r into written.
  wp_helper wp_CHECK_VARJO_ERR_calls.
  destruct Hhelper as (e & -> & Hc).
  simpl wp. exists count, written, (filled count 0 written).
  split; [now left|]. split; [right; now left|].
  split; [simpl; rewrite calls_app, Hc; reflexivity|].
  split; [reflexivity|]. split; [apply filled_length|].
  intros i Hi. now apply filled_nth.
Qed.

(** X8. [getPropertyValueList] asks for the config type first. Unless the
    answer is List it stops there and returns the empty vector; otherwise it
    returns a vector of exactly the counted length, zero-initialised where
    the runtime wrote nothing. *)
Theorem getPropertyValueList_empty_unless_list :
  forall (St : Type) (dev : Device St) (s : St)
         (p : varjo_CameraPropertyType),
    let r := run dev (CameraManager.getPropertyValueList p) s in
    exists conf,
      In (Called (varjo_MRGetCameraPropertyConfigType p) conf) (trace r)
      /\ if conf =? varjo_CameraPropertyConfigType_List then
           exists count written values,
             In (Called (varjo_MRGetCameraPropertyValueCount p) count) (trace r)
             /\ In (Called (varjo_MRGetCameraPropertyValues p
                             (Int.to_int (Z.of_nat count))) written) (trace r)
             /\ calls (trace r)
                = [varjo_MRGetCameraPropertyConfigType p; varjo_GetError;
                   varjo_MRGetCameraPropertyValueCount p;
                   varjo_MRGetCameraPropertyValues p
                     (Int.to_int (Z.of_nat count));
                   varjo_GetError]
             /\ outcome r = Returned values
             /\ length values = count
             /\ forall i, (i < count)%nat ->
                          nth i values zero_value = nth i written zero_value
         else
           calls (trace r)
           = [varjo_MRGetCameraPropertyConfigType p; varjo_GetError]
           /\ outcome r = Returned [].
Proof.
  intros St dev s p r. subst r.
  apply (wp_sound dev (CameraManager.getPropertyValueList p)
    (fun o t =>
       exists conf,
         In (Called (varjo_MRGetCameraPropertyConfigType p) conf) t
         /\ if conf =? varjo_CameraPropertyConfigType_List then
              exists count written values,
                In (Called (varjo_MRGetCameraPropertyValueCount p) count) t
                /\ In (Called (varjo_MRGetCameraPropertyValues p
                                (Int.to_int (Z.of_nat count))) written) t
                /\ calls t
                   = [varjo_MRGetCameraPropertyConfigType p; varjo_GetError;
                      varjo_MRGetCameraPropertyValueCount p;
                      varjo_MRGetCameraPropertyValues p
                        (Int.to_int (Z.of_nat count));
                      varjo_GetError]
                /\ o = Returned values
                /\ length values = count
                /\ forall i, (i < count)%nat ->
                             nth i values zero_value = nth i written zero_value
            else
              calls t
              = [varjo_MRGetCameraPropertyConfigType p; varjo_GetError]
              /\ o = Returned [])).
  unfold CameraManager.getPropertyValueList.
  wp_call. rename r into conf.
  wp_helper wp_CHECK_VARJO_ERR_calls.
  destruct Hhelper as (e1 & -> & Hc1).
  destruct (conf =? varjo_CameraPropertyConfigType_List) eqn:Econf; simpl negb;
    cbv iota.
  - wp_call. rename r into count. wp_call. rename r into written.
    wp_helper wp_CHECK_VARJO_ERR_calls.
    destruct Hhelper as (e2 & -> & Hc2).
    simpl wp. exists conf. split; [now left|]. rewrite Econf.
    exists count, written, (filled count zero_value written).
    split; [right; apply in_or_app; right; now left|].
    split; [right; apply in_or_app; right; right; now left|].
    split; [simpl; rewrite calls_app, Hc1; simpl; rewrite calls_app, Hc2;
            reflexivity|].
    split; [reflexivity|]. split; [apply filled_length|].
    intros i Hi. now apply filled_nth.
  - wp_log. simpl wp. exists conf. split; [now left|]. rewrite Econf.
    split; [|reflexivity]. simpl. rewrite calls_app, Hc1. reflexivity.
Qed.

(** X9. On the well-behaved session, with lists short enough for an
    [int32_t] count, the two queries hand back exactly the lists of the
    session (the value list only for a property configured as a discrete
    list) and leave the session as it was. *)
Theorem property_lists_round_trip :
  forall (p : varjo_CameraPropertyType) (s : Sim.Session),
    Z.of_nat (length (Sim.modes s p)) < 2 ^ 31 ->
    Z.of_nat (length (Sim.values s p)) < 2 ^ 31 ->
    let rm := run Sim.device (CameraManager.getPropertyModeList p) s in
    let rv := run Sim.device (CameraManager.getPropertyValueList p) s in
    outcome rm = Returned (Sim.modes s p) /\ final rm = s
    /\ outcome rv
       = Returned (if Sim.configType s p =? varjo_CameraPropertyConfigType_List
                   then Sim.values s p else [])
    /\ final rv = s.
Proof.
  intros p s Hlm Hlv rm rv. subst rm rv.
  destruct (sim_getPropertyModeList p s Hlm) as (Hm1 & Hm2 & _).
  destruct (sim_getPropertyValueList p s Hlv) as (Hv1 & Hv2 & _).
  repeat split; assumption.
Qed.

Lemma property_lists_round_trip_witness :
  let p := varjo_CameraPropertyType_ExposureTime in
  let rm := run Sim.device (CameraManager.getPropertyModeList p) manual_200 in
  let rv := run Sim.device (CameraManager.getPropertyValueList p) manual_200 in
  outcome rm = Returned (Sim.modes manual_200 p) /\ final rm = manual_200
  /\ outcome rv
     = Returned (if Sim.configType manual_200 p
                    =? varjo_CameraPropertyConfigType_List
                 then Sim.values manual_200 p else [])
  /\ final rv = manual_200.
Proof.
  apply (property_lists_round_trip varjo_CameraPropertyType_ExposureTime
           manual_200); reflexivity.
Defined.

(** ** [ChromaKeyManager] *)

(** X10. [lockConfig] on an object that believes it holds the lock makes no
    call and answers true. Otherwise it requests the chroma key lock once
    and queries the error once; the flag and the result are the answer to
    the request, whatever the error query says. *)
Theorem lockConfig_spec :
  forall (St : Type) (dev : Device St) (s : St)
         (this : ChromaKeyManager.ChromaKeyManager),
    let r := run dev (ChromaKeyManager.lockConfig this) s in
    if ChromaKeyManager.m_configLocked this then
      outcome r = Returned (true, this) /\ calls (trace r) = []
    else
      exists ret err,
        calls (trace r) = [varjo_Lock varjo_LockType_ChromaKey; varjo_GetError]
        /\ lock_answers varjo_LockType_ChromaKey (trace r) = [ret]
        /\ errors (trace r) = [err]
        /\ mutations (trace r) = []
        /\ outcome r
           = Returned (negb (ret =? 0),
                       ChromaKeyManager.set_configLocked this (negb (ret =? 0))).
Proof.
  intros St dev s this r. subst r.
  apply (wp_sound dev (ChromaKeyManager.lockConfig this)
    (fun o t =>
       if ChromaKeyManager.m_configLocked this then
         o = Returned (true, this) /\ calls t = []
       else
         exists ret err,
           calls t = [varjo_Lock varjo_LockType_ChromaKey; varjo_GetError]
           /\ lock_answers varjo_LockType_ChromaKey t = [ret]
           /\ errors t = [err]
           /\ mutations t = []
           /\ o = Returned (negb (ret =? 0),
                            ChromaKeyManager.set_configLocked this
                              (negb (ret =? 0))))).
  unfold ChromaKeyManager.lockConfig, CHECK_VARJO_ERR.
  destruct (ChromaKeyManager.m_configLocked this) eqn:Hlocked; simpl.
  - now split.
  - intros ret err.
    destruct (err =? varjo_NoError); destruct (ret =? 0) eqn:E; simpl;
      exists ret, err; rewrite ?E; repeat split.
Qed.

(** X11. [setConfig] issues exactly one call that sets the slot, followed by
    one error query whose answer decides the result, whether or not the
    object believes it holds the lock; it requests and releases no lock
    itself. The missing lock shows in the log only: the line is written
    exactly when the flag is off. *)
Theorem setConfig_sets_whatever_the_flag :
  forall (St : Type) (dev : Device St) (s : St)
         (this : ChromaKeyManager.ChromaKeyManager) (index : Z)
         (config : varjo_ChromaKeyConfig),
    let r := run dev (ChromaKeyManager.setConfig this index config) s in
    exists err,
      calls (trace r) = [varjo_MRSetChromaKeyConfig index config; varjo_GetError]
      /\ errors (trace r) = [err]
      /\ outcome r = Returned (err =? varjo_NoError)
      /\ (In (Logged LOGE "Config lock required for this action.") (trace r)
          <-> ChromaKeyManager.m_configLocked this = false).
Proof.
  intros St dev s this index config r. subst r.
  apply (wp_sound dev (ChromaKeyManager.setConfig this index config)
    (fun o t =>
       exists err,
         calls t = [varjo_MRSetChromaKeyConfig index config; varjo_GetError]
         /\ errors t = [err]
         /\ o = Returned (err =? varjo_NoError)
         /\ (In (Logged LOGE "Config lock required for this action.") t
             <-> ChromaKeyManager.m_configLocked this = false))).
  unfold ChromaKeyManager.setConfig, ChromaKeyManager.print,
    ChromaKeyManager.CHECK_CONFIG_LOCK, CHECK_VARJO_ERR.
  destruct (ChromaKeyManager.m_configLocked this);
    destruct (ChromaKeyConfig.type config =? varjo_ChromaKeyType_Disabled);
    [|destruct (ChromaKeyConfig.type config =? varjo_ChromaKeyType_HSV)
     | |destruct (ChromaKeyConfig.type config =? varjo_ChromaKeyType_HSV)];
    simpl; intros u err; destruct (err =? varjo_NoError) eqn:E; simpl;
    exists err; rewrite ?E;
    (split; [reflexivity|]; split; [reflexivity|]; split; [reflexivity|]);
    split; intros H; try reflexivity; try discriminate;
    try (right; now left);
    repeat (destruct H as [H|H]; [discriminate|]); destruct H.
Qed.

(** X12. [getConfig] reads the slot and queries the error; it hands back
    what the session answered whatever the error query says, and it neither
    consults the lock flag nor touches a lock or the configuration. *)
Theorem getConfig_only_reads :
  forall (St : Type) (dev : Device St) (s : St)
         (this : ChromaKeyManager.ChromaKeyManager) (index : Z),
    let r := run dev (ChromaKeyManager.getConfig this index) s in
    exists config,
      In (Called (varjo_MRGetChromaKeyConfig index) config) (trace r)
      /\ calls (trace r) = [varjo_MRGetChromaKeyConfig index; varjo_GetError]
      /\ reads_only (trace r)
      /\ outcome r = Returned config.
Proof.
  intros St dev s this index r. subst r.
  apply (wp_sound dev (ChromaKeyManager.getConfig this index)
    (fun o t =>
       exists config,
         In (Called (varjo_MRGetChromaKeyConfig index) config) t
         /\ calls t = [varjo_MRGetChromaKeyConfig index; varjo_GetError]
         /\ reads_only t
         /\ o = Returned config)).
  unfold ChromaKeyManager.getConfig, ChromaKeyManager.print, CHECK_VARJO_ERR.
  simpl. intros config err.
  destruct (err =? varjo_NoError);
    destruct (ChromaKeyConfig.type config =? varjo_ChromaKeyType_Disabled);
    try destruct (ChromaKeyConfig.type config =? varjo_ChromaKeyType_HSV);
    simpl; exists config; (split; [now left|]); repeat split.
Qed.

Lemma chroma_lock_app (held : bool) (t1 t2 : Trace) :
  chroma_lock held (t1 ++ t2) =
  match chroma_lock held t1 with
  | Some held' => chroma_lock held' t2
  | None => None
  end.
Proof.
  revert held. induction t1 as [|e t1 IH]; intros held; simpl; auto.
  destruct (chroma_lock_step held e); auto.
Qed.

Lemma wp_invoke (m : Method) (this : ChromaKeyManager.ChromaKeyManager) :
  wp (invoke m this)
     (fun o t =>
        exists this',
          o = Returned this'
          /\ chroma_lock (ChromaKeyManager.m_configLocked this) t
             = Some (ChromaKeyManager.m_configLocked this')
          /\ ChromaKeyManager.m_count this' = ChromaKeyManager.m_count this).
Proof.
  destruct this as [count locked enabled].
  destruct m as [| |e|index|index config]; simpl invoke.
  - unfold ChromaKeyManager.lockConfig, CHECK_VARJO_ERR. simpl.
    destruct locked; simpl.
    + eexists; repeat split.
    + intros ret err. simpl.
      destruct (err =? varjo_NoError); destruct (ret =? 0) eqn:E; simpl;
        rewrite ?E; simpl; eexists; repeat split;
        unfold varjo_False; rewrite E; reflexivity.
  - unfold ChromaKeyManager.unlockConfig, ChromaKeyManager.CHECK_CONFIG_LOCK,
      CHECK_VARJO_ERR. simpl.
    destruct locked; simpl.
    + intros u err. destruct (err =? varjo_NoError); simpl;
        eexists; repeat split.
    + eexists; repeat split.
  - unfold ChromaKeyManager.toggleChromaKeying, CHECK_VARJO_ERR. simpl.
    destruct (Bool.eqb e enabled); simpl.
    + eexists; repeat split.
    + intros u err. destruct (err =? varjo_NoError) eqn:E; simpl;
        rewrite ?E; simpl; eexists; repeat split.
  - unfold ChromaKeyManager.getConfig, ChromaKeyManager.print, CHECK_VARJO_ERR.
    simpl. intros config err.
    destruct (err =? varjo_NoError);
      destruct (ChromaKeyConfig.type config =? varjo_ChromaKeyType_Disabled);
      try destruct (ChromaKeyConfig.type config =? varjo_ChromaKeyType_HSV);
      simpl; eexists; repeat split.
  - unfold ChromaKeyManager.setConfig, ChromaKeyManager.print,
      ChromaKeyManager.CHECK_CONFIG_LOCK, CHECK_VARJO_ERR. simpl.
    destruct locked;
      destruct (ChromaKeyConfig.type config =? varjo_ChromaKeyType_Disabled);
      try destruct (ChromaKeyConfig.type config =? varjo_ChromaKeyType_HSV);
      simpl; intros u err; destruct (err =? varjo_NoError); simpl;
      eexists; repeat split.
Qed.

Lemma wp_invoke_all (ms : list Method) :
  forall this,
    wp (invoke_all ms this)
       (fun o t =>
          exists this',
            o = Returned this'
            /\ chroma_lock (ChromaKeyManager.m_configLocked this) t
               = Some (ChromaKeyManager.m_configLocked this')
            /\ ChromaKeyManager.m_count this' = ChromaKeyManager.m_count this).
Proof.
  induction ms as [|m ms IH]; intros this; simpl invoke_all.
  - simpl. now exists this.
  - eapply wp_bind_post; [apply wp_invoke|].
    intros o t1 (this1 & -> & Hlock1 & Hcount1). cbv beta iota.
    eapply wp_mono; [|apply IH].
    intros o t2 (this2 & -> & Hlock2 & Hcount2). cbv beta.
    exists this2. split; [reflexivity|].
    rewrite chroma_lock_app, Hlock1. split; [exact Hlock2|congruence].
Qed.

(** X13. Whatever the runtime answers, a sequence of [ChromaKeyManager]
    calls runs to its end, and the lock flag of the object is at every point
    what the answers imply: the lock is requested only while the flag is
    off, released only while it is on, the flag is on exactly after a
    granted request that no release followed, and no other lock is ever
    touched. The cached slot count never changes. *)
Theorem chroma_lock_flag_follows_the_answers :
  forall (St : Type) (dev : Device St) (s : St) (ms : list Method)
         (this : ChromaKeyManager.ChromaKeyManager),
    let r := run dev (invoke_all ms this) s in
    exists this',
      outcome r = Returned this'
      /\ chroma_lock (ChromaKeyManager.m_configLocked this) (trace r)
         = Some (ChromaKeyManager.m_configLocked this')
      /\ ChromaKeyManager.m_count this' = ChromaKeyManager.m_count this.
Proof.
  intros St dev s ms this.
  exact (wp_sound dev _ _ s (wp_invoke_all ms this)).
Qed.

Lemma sim_invoke (m : Method) (this : ChromaKeyManager.ChromaKeyManager)
    (s : Sim.Session) :
  in_sync this s ->
  ensures Sim.device (invoke m this) s
    (fun o s' t =>
       exists this',
         o = Returned this'
         /\ in_sync this' s'
         /\ Sim.lockHeld s' varjo_LockType_Camera
            = Sim.lockHeld s varjo_LockType_Camera).
Proof.
  destruct this as [count locked enabled]. unfold in_sync. simpl.
  intros [Hlocked Henabled]. subst locked enabled.
  unfold ensures, outcome, final, trace.
  destruct m as [| |e|index|index config]; simpl invoke.
  - unfold ChromaKeyManager.lockConfig, CHECK_VARJO_ERR. simpl.
    destruct (Sim.lockHeld s varjo_LockType_ChromaKey) eqn:Hheld; simpl.
    + eexists. split; [reflexivity|]. simpl. now rewrite Hheld.
    + rewrite Hheld, orb_false_r.
      destruct (Sim.lockedElsewhere s varjo_LockType_ChromaKey); simpl;
        eexists; (split; [reflexivity|]); simpl; now rewrite ?Hheld.
  - unfold ChromaKeyManager.unlockConfig, ChromaKeyManager.CHECK_CONFIG_LOCK,
      CHECK_VARJO_ERR. simpl.
    destruct (Sim.lockHeld s varjo_LockType_ChromaKey) eqn:Hheld; simpl;
      eexists; (split; [reflexivity|]); simpl; now rewrite ?Hheld.
  - unfold ChromaKeyManager.toggleChromaKeying, CHECK_VARJO_ERR. simpl.
    destruct e; destruct (Sim.chromaKeyEnabled s) eqn:Hon; simpl;
      eexists; (split; [reflexivity|]); simpl; now rewrite ?Hon.
  - unfold ChromaKeyManager.getConfig, ChromaKeyManager.print, CHECK_VARJO_ERR.
    simpl.
    set (config := nth (Z.to_nat index) (Sim.chromaKeyConfigs s) _).
    destruct (ChromaKeyConfig.type config =? varjo_ChromaKeyType_Disabled);
      try destruct (ChromaKeyConfig.type config =? varjo_ChromaKeyType_HSV);
      simpl; eexists; (split; [reflexivity|]); simpl; auto.
  - unfold ChromaKeyManager.setConfig, ChromaKeyManager.print,
      ChromaKeyManager.CHECK_CONFIG_LOCK, CHECK_VARJO_ERR. simpl.
    destruct (Sim.lockHeld s varjo_LockType_ChromaKey) eqn:Hheld;
      destruct (ChromaKeyConfig.type config =? varjo_ChromaKeyType_Disabled);
      try destruct (ChromaKeyConfig.type config =? varjo_ChromaKeyType_HSV);
      simpl; eexists; (split; [reflexivity|]); simpl; now rewrite ?Hheld.
Qed.

Lemma sim_invoke_all (ms : list Method) :
  forall (this : ChromaKeyManager.ChromaKeyManager) (s : Sim.Session),
    in_sync this s ->
    ensures Sim.device (invoke_all ms this) s
      (fun o s' t =>
         exists this',
           o = Returned this'
           /\ in_sync this' s'
           /\ Sim.lockHeld s' varjo_LockType_Camera
              = Sim.lockHeld s varjo_LockType_Camera).
Proof.
  induction ms as [|m ms IH]; intros this s Hsync; simpl invoke_all.
  - exists this. split; [reflexivity|]. split; [exact Hsync|reflexivity].
  - eapply ensures_bind; [apply (sim_invoke m this s Hsync)|].
    intros o s1 t1 (this1 & -> & Hsync1 & Hcam1). cbv beta iota.
    eapply ensures_mono; [apply (IH this1 s1 Hsync1)|].
    intros o s2 t2 (this2 & -> & Hsync2 & Hcam2). cbv beta.
    exists this2. repeat split; try apply Hsync2. congruence.
Qed.

(** X14. On the well-behaved session an object whose two flags agree with
    the session keeps them in agreement through any sequence of calls: its
    lock flag is on exactly when the session has it as holder of the chroma
    key lock, and its enabled flag is the session's chroma keying state. The
    camera lock is left as it was. *)
Theorem chroma_flags_stay_in_sync :
  forall (ms : list Method) (this : ChromaKeyManager.ChromaKeyManager)
         (s : Sim.Session),
    in_sync this s ->
    let r := run Sim.device (invoke_all ms this) s in
    exists this',
      outcome r = Returned this'
      /\ in_sync this' (final r)
      /\ Sim.lockHeld (final r) varjo_LockType_Camera
         = Sim.lockHeld s varjo_LockType_Camera.
Proof.
  intros ms this s Hsync. exact (sim_invoke_all ms this s Hsync).
Qed.

Lemma chroma_flags_stay_in_sync_witness :
  in_sync (ChromaKeyManager.mk 1 false false) manual_200
  /\ let r := run Sim.device
                (invoke_all [LockConfig; ToggleChromaKeying true;
                             SetConfig 0 disabled_config; UnlockConfig]
                   (ChromaKeyManager.mk 1 false false)) manual_200 in
     exists this',
       outcome r = Returned this'
       /\ in_sync this' (final r)
       /\ Sim.lockHeld (final r) varjo_LockType_Camera
          = Sim.lockHeld manual_200 varjo_LockType_Camera.
Proof.
  split.
  - split; reflexivity.
  - apply (chroma_flags_stay_in_sync
             [LockConfig; ToggleChromaKeying true;
              SetConfig 0 disabled_config; UnlockConfig]
             (ChromaKeyManager.mk 1 false false) manual_200).
    split; reflexivity.
Defined.

(** ** Failures and mutations of the camera operations *)

Lemma reports_failure_app (t1 t2 : Trace) :
  reports_failure (t1 ++ t2) = reports_failure t1 || reports_failure t2.
Proof.
  induction t1 as [|[c r|l m] t1 IH]; simpl; auto.
  destruct l; auto; now rewrite IH, orb_assoc.
Qed.

Lemma wp_CHECK_VARJO_ERR_no_report :
  wp CHECK_VARJO_ERR
     (fun o t => (exists e, o = Returned e) /\ reads_only t
                 /\ reports_failure t = false).
Proof.
  intros e. simpl. destruct (e =? varjo_NoError); simpl;
    (split; [now exists e|split; [|reflexivity]]); trace_class.
Qed.

Ltac wp_check_quiet :=
  eapply wp_bind_post;
  [apply wp_CHECK_VARJO_ERR_no_report
  |let o := fresh "o" in let t := fresh "t" in
   let e := fresh "e" in let Hr := fresh "Hreads" in
   let Hf := fresh "Hquiet" in
   intros o t ([e ->] & Hr & Hf); cbv beta iota].

Lemma wp_getPropertyModeList_no_report (p : varjo_CameraPropertyType) :
  wp (CameraManager.getPropertyModeList p)
     (fun o t => (exists l, o = Returned l) /\ reads_only t
                 /\ reports_failure t = false).
Proof.
  unfold CameraManager.getPropertyModeList.
  wp_call. wp_call. wp_check_quiet. simpl wp.
  split; [eauto|]. split; [trace_class|].
  simpl. now rewrite reports_failure_app, Hquiet.
Qed.

Lemma wp_getPropertyValueList_report (p : varjo_CameraPropertyType) :
  wp (CameraManager.getPropertyValueList p)
     (fun o t =>
        reads_only t
        /\ exists l, o = Returned l /\ (reports_failure t = true -> l = [])).
Proof.
  unfold CameraManager.getPropertyValueList.
  wp_call. wp_check_quiet. wp_if.
  - wp_log. simpl wp. split; [trace_class|]. now exists [].
  - wp_call. wp_call. wp_check_quiet. simpl wp.
    split; [trace_class|]. eexists. split; [reflexivity|].
    simpl. rewrite !reports_failure_app, Hquiet. simpl.
    rewrite reports_failure_app, Hquiet0. discriminate.
Qed.

Lemma wp_setPropertyValue_report (p : varjo_CameraPropertyType) (i : Z) :
  wp (CameraManager.setPropertyValueToModuloIndex p i)
     (fun o t =>
        reports_failure t = false \/ (o = Crashed /\ mutations t = [])).
Proof.
  unfold CameraManager.setPropertyValueToModuloIndex.
  wp_helper wp_getPropertyValueList_report.
  destruct Hhelper as (Hreads & l & -> & Hempty). cbv iota.
  unfold modulo_index.
  destruct (Z.of_nat (length l) =? 0) eqn:E.
  - simpl. right. split; [reflexivity|].
    rewrite app_nil_r. now apply reads_only_mutations.
  - assert (F : reports_failure t = false).
    { destruct (reports_failure t); [|reflexivity].
      rewrite (Hempty eq_refl) in E. discriminate. }
    destruct (nth_error l _).
    + wp_ret. wp_log. wp_call. wp_check_quiet. simpl wp. left.
      rewrite reports_failure_app, F. simpl.
      now rewrite reports_failure_app, Hquiet.
    + simpl. left. now rewrite app_nil_r.
Qed.

Lemma wp_setPropertyMode_report (p : varjo_CameraPropertyType) (i : Z) :
  wp (CameraManager.setPropertyModeToModuloIndex p i)
     (fun o t => reports_failure t = false \/ mutations t = []).
Proof.
  unfold CameraManager.setPropertyModeToModuloIndex.
  wp_helper wp_getPropertyModeList_no_report.
  destruct Hhelper as ([l ->] & Hreads & F). cbv iota.
  unfold modulo_index.
  destruct (Z.of_nat (length l) =? 0).
  { simpl. left. now rewrite app_nil_r. }
  destruct (nth_error l _) as [m|]; [|simpl; left; now rewrite app_nil_r].
  wp_ret. wp_log.
  destruct (m =? varjo_CameraPropertyMode_Manual).
  - wp_helper wp_setPropertyValue_report.
    destruct Hhelper as [F2|[-> Hmut]].
    + destruct o as [[]|]; cbv iota.
      * wp_call. wp_check_quiet. simpl wp. left.
        rewrite !reports_failure_app, F. simpl.
        rewrite reports_failure_app, F2. simpl.
        now rewrite reports_failure_app, Hquiet.
      * left. rewrite !reports_failure_app, F. simpl. now rewrite F2.
    + right. rewrite mutations_app. simpl.
      now rewrite (reads_only_mutations _ Hreads), Hmut.
  - wp_ret. wp_call. wp_check_quiet. simpl wp. left.
    rewrite !reports_failure_app, F. simpl.
    now rewrite reports_failure_app, Hquiet.
Qed.

Ltac report_eval :=
  repeat
    (simpl;
     rewrite ?reports_failure_app, ?mutations_app, ?app_nil_r;
     repeat match goal with
       | H : reports_failure ?t = _ |- context [reports_failure ?t] => rewrite H
       | H : mutations ?t = _ |- context [mutations ?t] => rewrite H
       | H : reads_only ?t |- context [mutations ?t] =>
           rewrite (reads_only_mutations t H)
       end).

Lemma wp_applyNextMode_report (p : varjo_CameraPropertyType)
    (currentMode : varjo_CameraPropertyMode)
    (supportedModes : list varjo_CameraPropertyMode) :
  wp (CameraManager.applyNextMode p currentMode supportedModes)
     (fun o t => reports_failure t = false \/ mutations t = []).
Proof.
  unfold CameraManager.applyNextMode. wp_if.
  - wp_log. wp_call. wp_check_quiet. simpl wp. right. now report_eval.
  - wp_helper wp_setPropertyMode_report.
    destruct o as [[]|]; cbv iota; [|exact Hhelper].
    wp_call. wp_check_quiet. simpl wp.
    destruct Hhelper as [F|M]; [left|right]; now report_eval.
Qed.

Lemma wp_body_report (op : Operation) :
  wp (body op) (fun o t => reports_failure t = false \/ mutations t = []).
Proof.
  destruct op as [p|p|]; simpl body.
  - unfold CameraManager.setAutoMode.
    wp_helper wp_getPropertyModeList_no_report.
    destruct Hhelper as ([l ->] & Hreads & F). cbv iota.
    destruct (find_mode varjo_CameraPropertyMode_Auto l).
    + wp_call. wp_check_quiet. wp_if.
      * wp_log. simpl wp. right. now report_eval.
      * wp_call. wp_check_quiet. wp_call. wp_check_quiet. simpl wp.
        left. now report_eval.
    + wp_log. simpl wp. right. now report_eval.
  - unfold CameraManager.applyNextModeOrValue.
    wp_call. wp_check_quiet. wp_if.
    { wp_log. simpl wp. right. now report_eval. }
    wp_call. wp_helper wp_getPropertyModeList_no_report.
    destruct Hhelper as ([l ->] & Hreads0 & F). cbv iota.
    assert (Hnext : forall m,
      wp (CameraManager.applyNextMode p m l)
         (fun o t2 =>
            reports_failure (Called (varjo_Lock varjo_LockType_Camera) r
                             :: t ++ Called (varjo_MRGetCameraPropertyMode p) r0
                             :: t0 ++ t2) = false
            \/ mutations (Called (varjo_Lock varjo_LockType_Camera) r
                          :: t ++ Called (varjo_MRGetCameraPropertyMode p) r0
                          :: t0 ++ t2) = [])).
    { intros m. eapply wp_mono; [|apply wp_applyNextMode_report].
      intros o t2 [F2|M2]; [left|right]; now report_eval. }
    wp_if.
    + wp_call. wp_helper wp_getPropertyValueList_report.
      destruct Hhelper as (Hreads1 & vs & -> & Hempty). cbv iota.
      wp_if.
      * wp_log. wp_call. wp_check_quiet. simpl wp. right. now report_eval.
      * assert (F1 : reports_failure t1 = false).
        { destruct (reports_failure t1); [|reflexivity].
          rewrite (Hempty eq_refl) in *. discriminate. }
        wp_if.
        -- wp_helper wp_setPropertyValue_report.
           destruct Hhelper as [F2|[-> M2]].
           ++ destruct o as [[]|]; cbv iota.
              ** wp_call. wp_check_quiet. simpl wp. left. now report_eval.
              ** left. now report_eval.
           ++ right. now report_eval.
        -- eapply wp_mono; [|apply wp_applyNextMode_report].
           intros o t2 [F2|M2]; [left|right]; now report_eval.
    + apply Hnext.
  - unfold CameraManager.resetPropertiesToDefaults.
    wp_call. wp_check_quiet. wp_if.
    + wp_log. simpl wp. right. now report_eval.
    + wp_call. wp_check_quiet. wp_call. wp_check_quiet. simpl wp.
      left. now report_eval.
Qed.

(** X15. Whatever the runtime answers: when one of the three camera
    operations reports a failure of its own in the log (the lock refused,
    Auto not supported, the current value or mode not found, a value list
    that is not a list), it has issued no mutating call. *)
Theorem reported_failure_means_no_mutation :
  forall (St : Type) (dev : Device St) (s : St) (op : Operation),
    let r := run dev (body op) s in
    reports_failure (trace r) = true -> mutations (trace r) = [].
Proof.
  intros St dev s op r Hfail. subst r.
  destruct (wp_sound dev (body op) _ s (wp_body_report op)) as [F|M].
  - rewrite F in Hfail. discriminate.
  - exact M.
Qed.

Lemma reported_failure_witness :
  let r := run (failing varjo_NoError) (body ResetPropertiesToDefaults) tt in
  reports_failure (trace r) = true /\ mutations (trace r) = [].
Proof.
  split; [reflexivity|].
  apply (reported_failure_means_no_mutation unit (failing varjo_NoError) tt
           ResetPropertiesToDefaults).
  reflexivity.
Defined.

(** X16. Whatever the runtime answers, [setAutoMode] issues one mutating
    call, setting the mode of its property to Auto, when its request for the
    lock is granted, and none otherwise; [resetPropertiesToDefaults] issues
    the reset call alone under the same condition. *)
Theorem setAutoMode_and_reset_mutate_once_under_a_grant :
  forall (St : Type) (dev : Device St) (s : St),
    (forall p,
        let t := trace (run dev (CameraManager.setAutoMode p) s) in
        mutations t
        = match lock_answers varjo_LockType_Camera t with
          | [granted] =>
              if granted =? varjo_False then []
              else [varjo_MRSetCameraPropertyMode p
                      varjo_CameraPropertyMode_Auto]
          | _ => []
          end)
    /\ (let t := trace (run dev CameraManager.resetPropertiesToDefaults s) in
        mutations t
        = match lock_answers varjo_LockType_Camera t with
          | [granted] =>
              if granted =? varjo_False then []
              else [varjo_MRResetCameraProperties]
          | _ => []
          end).
Proof.
  intros St dev s. split.
  - intros p t. subst t.
    apply (wp_sound dev (CameraManager.setAutoMode p)
      (fun _ t =>
         mutations t
         = match lock_answers varjo_LockType_Camera t with
           | [granted] =>
               if granted =? varjo_False then []
               else [varjo_MRSetCameraPropertyMode p
                       varjo_CameraPropertyMode_Auto]
           | _ => []
           end)).
    unfold CameraManager.setAutoMode.
    wp_helper wp_getPropertyModeList.
    destruct Hhelper as [[l ->] Hreads]. cbv iota.
    destruct (find_mode varjo_CameraPropertyMode_Auto l).
    + wp_call. wp_check. wp_if.
      * wp_log. simpl wp. trace_eval. reflexivity.
      * wp_call. wp_check. wp_call. wp_check. simpl wp.
        trace_eval. reflexivity.
    + wp_log. simpl wp. trace_eval. reflexivity.
  - intros t. subst t.
    apply (wp_sound dev CameraManager.resetPropertiesToDefaults
      (fun _ t =>
         mutations t
         = match lock_answers varjo_LockType_Camera t with
           | [granted] =>
               if granted =? varjo_False then []
               else [varjo_MRResetCameraProperties]
           | _ => []
           end)).
    unfold CameraManager.resetPropertiesToDefaults.
    wp_call. wp_check. wp_if.
    + wp_log. simpl wp. trace_eval. reflexivity.
    + wp_call. wp_check. wp_call. wp_check. simpl wp.
      trace_eval. reflexivity.
Qed.

(** ** The camera operations on the well-behaved session *)

Lemma find_mode_in (m : varjo_CameraPropertyMode)
    (ms : list varjo_CameraPropertyMode) (d : nat) :
  find_mode m ms = Some d -> In m ms.
Proof.
  intros H. destruct (find_mode_bound _ _ _ H) as [Hd <-]. now apply nth_In.
Qed.

(** X17. On the well-behaved session with the camera lock obtainable,
    [setAutoMode] returns with the lock free and changes nothing but the
    mode of its property: that becomes Auto when Auto is among the supported
    modes, and otherwise the session is left as it was without the lock
    having been requested. *)
Theorem setAutoMode_on_the_session :
  forall (p : varjo_CameraPropertyType) (s : Sim.Session),
    ready p s ->
    let r := run Sim.device (CameraManager.setAutoMode p) s in
    outcome r = Returned tt
    /\ same_device s (final r)
    /\ Sim.lockHeld (final r) varjo_LockType_Camera = false
    /\ Sim.value (final r) = Sim.value s
    /\ (forall q, q <> p -> Sim.mode (final r) q = Sim.mode s q)
    /\ (In varjo_CameraPropertyMode_Auto (Sim.modes s p) ->
        Sim.mode (final r) p = varjo_CameraPropertyMode_Auto)
    /\ (~ In varjo_CameraPropertyMode_Auto (Sim.modes s p) ->
        final r = s /\ lock_answers varjo_LockType_Camera (trace r) = []).
Proof.
  intros p s (Hfree & Hheld & Hlm & Hlv) r. subst r.
  change (ensures Sim.device (CameraManager.setAutoMode p) s
    (fun o s' t =>
       o = Returned tt
       /\ same_device s s'
       /\ Sim.lockHeld s' varjo_LockType_Camera = false
       /\ Sim.value s' = Sim.value s
       /\ (forall q, q <> p -> Sim.mode s' q = Sim.mode s q)
       /\ (In varjo_CameraPropertyMode_Auto (Sim.modes s p) ->
           Sim.mode s' p = varjo_CameraPropertyMode_Auto)
       /\ (~ In varjo_CameraPropertyMode_Auto (Sim.modes s p) ->
           s' = s /\ lock_answers varjo_LockType_Camera t = []))).
  unfold CameraManager.setAutoMode.
  run_helper (sim_getPropertyModeList p s Hlm).
  destruct Hhelper as (-> & -> & Hreads).
  destruct (find_mode varjo_CameraPropertyMode_Auto (Sim.modes s p)) eqn:Hfind.
  - run_call. rewrite Hfree, Hheld. simpl orb. cbv iota. simpl fst. simpl snd.
    run_check. change (varjo_True =? varjo_False) with false. cbv iota.
    run_call. run_check. run_call. run_check. unfold ensures. simpl.
    split; [reflexivity|]. split; [repeat split|]. split; [reflexivity|].
    split; [reflexivity|]. split; [|split].
    + intros q Hq. unfold Sim.upd. apply Z.eqb_neq in Hq. now rewrite Hq.
    + intros _. unfold Sim.upd. now rewrite Z.eqb_refl.
    + intros Hno. destruct Hno. exact (find_mode_in _ _ _ Hfind).
  - run_log. unfold ensures. simpl.
    split; [reflexivity|]. split; [repeat split|]. split; [exact Hheld|].
    split; [reflexivity|]. split; [reflexivity|]. split.
    + intros Hin. destruct (find_mode_none _ _ Hfind Hin).
    + intros _. split; [reflexivity|]. trace_eval. reflexivity.
Qed.

Lemma setAutoMode_on_the_session_witness :
  ready varjo_CameraPropertyType_ExposureTime manual_200
  /\ let r := run Sim.device
                (CameraManager.setAutoMode varjo_CameraPropertyType_ExposureTime)
                manual_200 in
     Sim.mode (final r) varjo_CameraPropertyType_ExposureTime
     = varjo_CameraPropertyMode_Auto.
Proof.
  assert (Hready : ready varjo_CameraPropertyType_ExposureTime manual_200).
  { repeat split. }
  split; [exact Hready|].
  apply (setAutoMode_on_the_session varjo_CameraPropertyType_ExposureTime
           manual_200 Hready).
  right; left; reflexivity.
Defined.

Lemma sim_getPropertyModeList_state (p : varjo_CameraPropertyType)
    (s : Sim.Session) :
  ensures Sim.device (CameraManager.getPropertyModeList p) s
    (fun o s' t => (exists l, o = Returned l) /\ s' = s /\ reads_only t).
Proof.
  unfold CameraManager.getPropertyModeList.
  run_call. run_call. run_check. unfold ensures. simpl.
  split; [eexists; reflexivity|]. split; [reflexivity|]. split; reflexivity.
Qed.

(** X18. On the well-behaved session, while another client holds the camera
    lock each of the three operations returns having left the session
    exactly as it was. *)
Theorem busy_lock_leaves_the_session_alone :
  forall (op : Operation) (s : Sim.Session),
    Sim.lockedElsewhere s varjo_LockType_Camera = true ->
    let r := run Sim.device (body op) s in
    outcome r = Returned tt
    /\ final r = s
    /\ mutations (trace r) = []
    /\ unlocks varjo_LockType_Camera (trace r) = O.
Proof.
  intros op s Hbusy r. subst r.
  change (ensures Sim.device (body op) s
    (fun o s' t =>
       o = Returned tt /\ s' = s /\ mutations t = []
       /\ unlocks varjo_LockType_Camera t = O)).
  destruct op as [p|p|]; simpl body.
  - unfold CameraManager.setAutoMode.
    run_helper (sim_getPropertyModeList_state p s).
    destruct Hhelper as ([l ->] & -> & Hreads).
    destruct (find_mode varjo_CameraPropertyMode_Auto l).
    + run_call. rewrite Hbusy. simpl orb. cbv iota. simpl fst. simpl snd.
      run_check. change (varjo_False =? varjo_False) with true. cbv iota.
      run_log. unfold ensures. simpl. repeat split; trace_eval; reflexivity.
    + run_log. unfold ensures. simpl. repeat split; trace_eval; reflexivity.
  - unfold CameraManager.applyNextModeOrValue.
    run_call. rewrite Hbusy. simpl orb. cbv iota. simpl fst. simpl snd.
    run_check. change (varjo_False =? varjo_False) with true. cbv iota.
    run_log. unfold ensures. simpl. repeat split.
  - unfold CameraManager.resetPropertiesToDefaults.
    run_call. rewrite Hbusy. simpl orb. cbv iota. simpl fst. simpl snd.
    run_check. change (varjo_False =? varjo_False) with true. cbv iota.
    run_log. unfold ensures. simpl. repeat split.
Qed.

Lemma busy_lock_witness :
  let s := Sim.mk (fun _ => true) (fun _ => false) (fun _ => three_modes)
             (fun _ => varjo_CameraPropertyConfigType_List)
             (fun _ => two_values) (fun _ => varjo_CameraPropertyMode_Manual)
             (fun _ => int_value 200) (fun _ => varjo_CameraPropertyMode_Auto)
             (fun _ => int_value 100) [] false in
  let r := run Sim.device
             (body (ApplyNextModeOrValue varjo_CameraPropertyType_ExposureTime))
             s in
  outcome r = Returned tt
  /\ final r = s
  /\ mutations (trace r) = []
  /\ unlocks varjo_LockType_Camera (trace r) = O.
Proof.
  apply (busy_lock_leaves_the_session_alone
           (ApplyNextModeOrValue varjo_CameraPropertyType_ExposureTime)).
  reflexivity.
Defined.

Lemma findPropertyModeIndex_absent (m : varjo_CameraPropertyMode)
    (ms : list varjo_CameraPropertyMode) :
  ~ In m ms -> findPropertyModeIndex m ms = -1.
Proof.
  intros Hno. unfold findPropertyModeIndex.
  destruct (find_mode m ms) as [d|] eqn:Hfind; [|reflexivity].
  destruct Hno. exact (find_mode_in _ _ _ Hfind).
Qed.

Lemma sim_stuck_step (p : varjo_CameraPropertyType) (s : Sim.Session) :
  ready p s -> stuck p s ->
  ensures Sim.device (CameraManager.applyNextModeOrValue p) s
    (fun o s' t =>
       o = Returned tt
       /\ mutations t = []
       /\ reports_failure t = true
       /\ unlocks varjo_LockType_Camera t = 1%nat
       /\ Sim.lockHeld s' varjo_LockType_Camera = false
       /\ same_device s s'
       /\ Sim.mode s' = Sim.mode s
       /\ Sim.value s' = Sim.value s).
Proof.
  intros (Hfree & Hheld & Hlm & Hlv) Hstuck.
  unfold CameraManager.applyNextModeOrValue.
  run_call. rewrite Hfree, Hheld. simpl orb. cbv iota. simpl fst. simpl snd.
  run_check. change (varjo_True =? varjo_False) with false. cbv iota.
  run_call.
  set (s1 := Sim.with_lockHeld s
               (Sim.upd (Sim.lockHeld s) varjo_LockType_Camera true)).
  run_helper (sim_getPropertyModeList p s1 Hlm).
  destruct Hhelper as (-> & -> & Hreads).
  change (Sim.mode s1 p) with (Sim.mode s p).
  change (Sim.modes s1 p) with (Sim.modes s p).
  destruct Hstuck as [[Hmode Hidx]|[Hmode Hout]].
  - rewrite Hmode.
    change (varjo_CameraPropertyMode_Manual =? varjo_CameraPropertyMode_Manual)
      with true. cbv iota.
    run_call. simpl fst. simpl snd.
    change (Sim.value s1 p) with (Sim.value s p).
    run_helper (sim_getPropertyValueList p s1 Hlv).
    destruct Hhelper as (-> & -> & Hreads').
    change (offered p s1) with (offered p s). rewrite Hidx.
    change (-1 =? -1) with true. cbv iota.
    run_log. run_call. run_check. unfold ensures. simpl.
    split; [reflexivity|]. split; [trace_eval; reflexivity|].
    split; [rewrite !reports_failure_app; simpl;
            rewrite reports_failure_app; simpl; now rewrite !orb_true_r|].
    split; [trace_eval; reflexivity|].
    repeat split.
  - apply Z.eqb_neq in Hmode. rewrite Hmode. cbv iota.
    unfold CameraManager.applyNextMode.
    rewrite (findPropertyModeIndex_absent _ _ Hout).
    change (-1 =? -1) with true. cbv iota.
    run_log. run_call. run_check. unfold ensures. simpl.
    split; [reflexivity|]. split; [trace_eval; reflexivity|].
    split; [rewrite !reports_failure_app; simpl; now rewrite !orb_true_r|].
    split; [trace_eval; reflexivity|].
    repeat split.
Qed.

Lemma sim_stuck_iter (p : varjo_CameraPropertyType) (s : Sim.Session) (n : nat) :
  ready p s -> stuck p s ->
  let s' := Nat.iter n (Sim.advance p) s in
  ready p s' /\ same_device s s'
  /\ Sim.mode s' = Sim.mode s /\ Sim.value s' = Sim.value s.
Proof.
  intros Hready Hstuck. induction n as [|n IH]; simpl.
  - repeat split; apply Hready.
  - destruct IH as (Hr & Hsame & Hm & Hv).
    set (sn := Nat.iter n (Sim.advance p) s) in *.
    assert (Hstuck' : stuck p sn).
    { unfold stuck. rewrite Hm, Hv, (same_device_offered p s sn Hsame).
      destruct Hsame as (_ & -> & _). exact Hstuck. }
    destruct (sim_stuck_step p sn Hr Hstuck')
      as (_ & _ & _ & _ & Hheld & Hsame' & Hm' & Hv').
    fold (Sim.advance p sn) in Hheld, Hsame', Hm', Hv'.
    split; [exact (same_device_ready p sn _ Hr Hsame' Hheld)|].
    split; [exact (same_device_trans _ _ _ Hsame Hsame')|].
    split; congruence.
Qed.

(** X19. On the well-behaved session a stuck property stays where it is:
    each [applyNextModeOrValue] takes the lock, reports the failure, issues
    no mutating call, releases the lock and returns, and after any number of
    calls the session shows the same modes and values as before. *)
Theorem stuck_property_is_never_advanced :
  forall (p : varjo_CameraPropertyType) (s : Sim.Session),
    ready p s -> stuck p s ->
    (let r := run Sim.device (CameraManager.applyNextModeOrValue p) s in
     outcome r = Returned tt
     /\ mutations (trace r) = []
     /\ reports_failure (trace r) = true
     /\ unlocks varjo_LockType_Camera (trace r) = 1%nat
     /\ Sim.lockHeld (final r) varjo_LockType_Camera = false)
    /\ forall n q,
         Sim.shown q (Nat.iter n (Sim.advance p) s) = Sim.shown q s.
Proof.
  intros p s Hready Hstuck. split.
  - destruct (sim_stuck_step p s Hready Hstuck)
      as (H1 & H2 & H3 & H4 & H5 & _).
    repeat split; assumption.
  - intros n q.
    destruct (sim_stuck_iter p s n Hready Hstuck) as (_ & _ & Hm & Hv).
    unfold Sim.shown. now rewrite Hm, Hv.
Qed.

Lemma stuck_property_witness :
  let p := varjo_CameraPropertyType_ExposureTime in
  let s := Sim.uniform
             [varjo_CameraPropertyMode_Auto; varjo_CameraPropertyMode_Manual]
             varjo_CameraPropertyConfigType_Range []
             varjo_CameraPropertyMode_Manual (int_value 100) in
  ready p s /\ stuck p s
  /\ forall n q, Sim.shown q (Nat.iter n (Sim.advance p) s) = Sim.shown q s.
Proof.
  intros p s.
  assert (Hready : ready p s) by (repeat split).
  assert (Hstuck : stuck p s) by (left; split; reflexivity).
  split; [exact Hready|]. split; [exact Hstuck|].
  apply (stuck_property_is_never_advanced p s Hready Hstuck).
Defined.

Lemma sim_call_spares (q : varjo_CameraPropertyType) (c : Call)
    (s : Sim.Session) :
  (is_mutation c = true -> spares q c) ->
  Sim.shown q (snd (Sim.device c s)) = Sim.shown q s.
Proof.
  unfold Sim.shown.
  destruct c; simpl; intros H; try reflexivity.
  - destruct (Sim.lockedElsewhere s lockType || Sim.lockHeld s lockType);
      reflexivity.
  - specialize (H eq_refl). unfold Sim.upd.
    destruct (q =? prop) eqn:E; [apply Z.eqb_eq in E; congruence|reflexivity].
  - specialize (H eq_refl). unfold Sim.upd.
    destruct (q =? prop) eqn:E; [apply Z.eqb_eq in E; congruence|reflexivity].
  - destruct (H eq_refl).
Qed.

Lemma sim_frame (q : varjo_CameraPropertyType) {A : Type} (prog : Prog A) :
  forall s,
    Forall (spares q) (mutations (trace (run Sim.device prog s))) ->
    Sim.shown q (final (run Sim.device prog s)) = Sim.shown q s.
Proof.
  induction prog as [a| |l m k IH|c k IH]; intros s; simpl.
  - reflexivity.
  - reflexivity.
  - specialize (IH s). destruct (run Sim.device k s) as [[o s'] t].
    exact IH.
  - destruct (Sim.device c s) as [r s1] eqn:Hdev.
    specialize (IH r s1). destruct (run Sim.device (k r) s1) as [[o s'] t].
    unfold trace, final in *. simpl in *. intros Hall.
    assert (Hs1 : s1 = snd (Sim.device c s)) by now rewrite Hdev.
    destruct (is_mutation c) eqn:Hmut.
    + inversion Hall; subst. rewrite IH by assumption.
      apply sim_call_spares. auto.
    + rewrite IH by assumption. subst s1.
      apply sim_call_spares. intros; congruence.
Qed.

(** X20. One call of [applyNextModeOrValue] concerns its own property only:
    whatever the runtime answers, every mutating call it issues sets the
    mode or the value of that property, and on the well-behaved session the
    mode and value of every other property are as before. *)
Theorem applyNextModeOrValue_spares_other_properties :
  forall (p q : varjo_CameraPropertyType),
    q <> p ->
    (forall (St : Type) (dev : Device St) (s : St),
        Forall (spares q)
          (mutations
             (trace (run dev (CameraManager.applyNextModeOrValue p) s))))
    /\ forall s : Sim.Session, Sim.shown q (Sim.advance p s) = Sim.shown q s.
Proof.
  intros p q Hq.
  assert (Hall : forall (St : Type) (dev : Device St) (s : St),
    Forall (spares q)
      (mutations (trace (run dev (CameraManager.applyNextModeOrValue p) s)))).
  { intros St dev s.
    destruct (mutations_of_applyNextModeOrValue St dev s p)
      as [->|[[v ->]|[[m ->]|[v ->]]]];
      repeat constructor; simpl; congruence. }
  split; [exact Hall|].
  intros s. unfold Sim.advance. apply sim_frame. apply Hall.
Qed.

Lemma applyNextModeOrValue_spares_witness :
  Sim.shown varjo_CameraPropertyType_ISOValue
    (Sim.advance varjo_CameraPropertyType_ExposureTime manual_200)
  = Sim.shown varjo_CameraPropertyType_ISOValue manual_200.
Proof.
  apply (applyNextModeOrValue_spares_other_properties
           varjo_CameraPropertyType_ExposureTime
           varjo_CameraPropertyType_ISOValue).
  discriminate.
Defined.

Lemma sim_setPropertyValueToModuloIndex_wraps (p : varjo_CameraPropertyType)
    (s : Sim.Session) (index : Z) :
  0 <= index < 2 ^ 32 ->
  Z.of_nat (length (Sim.values s p)) < 2 ^ 31 ->
  offered p s <> [] ->
  ensures Sim.device (CameraManager.setPropertyValueToModuloIndex p index) s
    (fun o s' t =>
       let v := nth (Z.to_nat (index mod Z.of_nat (length (offered p s))))
                  (offered p s) zero_value in
       o = Returned tt
       /\ s' = Sim.with_value s (Sim.upd (Sim.value s) p v)
       /\ mutations t = [varjo_MRSetCameraPropertyValue p v]
       /\ leaves_locks t).
Proof.
  intros Hindex Hlen Hne. unfold CameraManager.setPropertyValueToModuloIndex.
  run_helper sim_getPropertyValueList; [exact Hlen|].
  destruct Hhelper as (-> & -> & Hreads).
  rewrite (modulo_index_in_bounds zero_value) by assumption.
  unfold Int.to_size_t. rewrite (Z.mod_small index) by lia.
  run_ret. run_log. run_call. run_check. unfold ensures. simpl.
  repeat split.
  - trace_eval. reflexivity.
  - trace_class.
Qed.

(** X21. The two setters by index wrap around: for an index that is not
    negative they select the element at the index modulo the size of the
    list the session offers. On the well-behaved session the value setter
    stores that value; the mode setter stores that mode, and when the mode
    is Manual the first offered value with it. Neither requests or releases
    a lock. *)
Theorem setters_by_index_wrap_around :
  forall (p : varjo_CameraPropertyType) (s : Sim.Session) (index : Z),
    0 <= index < 2 ^ 31 ->
    Z.of_nat (length (Sim.modes s p)) < 2 ^ 31 ->
    Z.of_nat (length (Sim.values s p)) < 2 ^ 31 ->
    (offered p s <> [] ->
     let r := run Sim.device
                (CameraManager.setPropertyValueToModuloIndex p index) s in
     let v := nth (Z.to_nat (index mod Z.of_nat (length (offered p s))))
                (offered p s) zero_value in
     outcome r = Returned tt
     /\ final r = Sim.with_value s (Sim.upd (Sim.value s) p v)
     /\ leaves_locks (trace r))
    /\ (Sim.modes s p <> [] ->
        let m := nth (Z.to_nat (index mod Z.of_nat (length (Sim.modes s p))))
                   (Sim.modes s p) varjo_CameraPropertyMode_Off in
        (m = varjo_CameraPropertyMode_Manual -> offered p s <> []) ->
        let r := run Sim.device
                   (CameraManager.setPropertyModeToModuloIndex p index) s in
        outcome r = Returned tt
        /\ Sim.mode (final r) p = m
        /\ Sim.value (final r) p
           = (if m =? varjo_CameraPropertyMode_Manual
              then nth 0 (offered p s) zero_value else Sim.value s p)
        /\ leaves_locks (trace r)).
Proof.
  intros p s index Hindex Hlm Hlv. split.
  - intros Hne r v. subst r v.
    destruct (sim_setPropertyValueToModuloIndex_wraps p s index
                ltac:(lia) Hlv Hne) as (Ho & Hs & _ & Hl).
    repeat split; assumption.
  - intros Hne m Hoffered r. subst r.
    destruct (sim_setPropertyModeToModuloIndex p s index ltac:(lia) Hne Hlm Hlv
                Hoffered) as (Ho & Hs & _ & Hl).
    change (nth (Z.to_nat (index mod Z.of_nat (length (Sim.modes s p))))
              (Sim.modes s p) 0) with m in Hs.
    split; [exact Ho|]. split; [|split; [|exact Hl]].
    + rewrite Hs. destruct (m =? varjo_CameraPropertyMode_Manual); simpl;
        unfold Sim.upd; now rewrite ?Z.eqb_refl.
    + rewrite Hs. destruct (m =? varjo_CameraPropertyMode_Manual); simpl;
        unfold Sim.upd; now rewrite ?Z.eqb_refl.
Qed.

Lemma setters_by_index_witness :
  let p := varjo_CameraPropertyType_ExposureTime in
  let r := run Sim.device (CameraManager.setPropertyModeToModuloIndex p 5)
             manual_200 in
  0 <= 5 < 2 ^ 31
  /\ outcome r = Returned tt
  /\ Sim.mode (final r) p
     = nth (Z.to_nat (5 mod Z.of_nat (length (Sim.modes manual_200 p))))
         (Sim.modes manual_200 p) varjo_CameraPropertyMode_Off.
Proof.
  intros p r.
  assert (Hindex : 0 <= 5 < 2 ^ 31) by lia.
  split; [exact Hindex|].
  destruct (setters_by_index_wrap_around p manual_200 5 Hindex)
    as [_ Hmode]; [reflexivity|reflexivity|].
  destruct Hmode as (Ho & Hm & _); [discriminate|discriminate|].
  exact (conj Ho Hm).
Defined.

Lemma sim_applyNextMode_found (p : varjo_CameraPropertyType)
    (s : Sim.Session) (j : nat) :
  Z.of_nat (length (Sim.modes s p)) < 2 ^ 31 ->
  Z.of_nat (length (Sim.values s p)) < 2 ^ 31 ->
  find_mode (Sim.mode s p) (Sim.modes s p) = Some j ->
  let m := nth ((j + 1) mod length (Sim.modes s p)) (Sim.modes s p)
             varjo_CameraPropertyMode_Off in
  (m = varjo_CameraPropertyMode_Manual -> offered p s <> []) ->
  ensures Sim.device
    (CameraManager.applyNextMode p (Sim.mode s p) (Sim.modes s p)) s
    (fun o s' t =>
       o = Returned tt
       /\ Sim.mode s' p = m
       /\ Sim.value s' p
          = (if m =? varjo_CameraPropertyMode_Manual
             then nth 0 (offered p s) zero_value else Sim.value s p)
       /\ Sim.lockHeld s' varjo_LockType_Camera = false
       /\ unlocks varjo_LockType_Camera t = 1%nat
       /\ lock_answers varjo_LockType_Camera t = []).
Proof.
  intros Hlm Hlv Hfind m Hoffered.
  unfold CameraManager.applyNextMode.
  rewrite (findPropertyModeIndex_found _ _ j Hlm Hfind).
  destruct (find_mode_bound _ _ _ Hfind) as [Hj _].
  destruct (Z.of_nat j =? -1) eqn:E; [apply Z.eqb_eq in E; lia|].
  assert (Hms : Sim.modes s p <> [])
    by (destruct (Sim.modes s p); [simpl in Hj; lia|congruence]).
  assert (Hidx :
    Z.to_nat ((Z.of_nat j + 1) mod Z.of_nat (length (Sim.modes s p)))
    = ((j + 1) mod length (Sim.modes s p))%nat).
  { rewrite <- (Nat2Z.id ((j + 1) mod length (Sim.modes s p))).
    f_equal. rewrite Nat2Z.inj_mod. f_equal. lia. }
  run_helper (sim_setPropertyModeToModuloIndex p s (Z.of_nat j + 1)
                ltac:(lia) Hms Hlm Hlv).
  { rewrite Hidx. exact Hoffered. }
  rewrite Hidx in Hhelper.
  change (nth ((j + 1) mod length (Sim.modes s p)) (Sim.modes s p) 0)
    with m in Hhelper.
  destruct Hhelper as (-> & -> & Hmut & Hlocks).
  run_call. run_check. unfold ensures. simpl.
  destruct (m =? varjo_CameraPropertyMode_Manual) eqn:Em;
    unfold Sim.upd; simpl; rewrite ?Z.eqb_refl;
    repeat split; trace_eval; reflexivity.
Qed.

(** X22. On the well-behaved session with the camera lock obtainable, take
    a property in a supported mode that is either not Manual, or Manual
    with a non-empty list of offered values of which the last is selected.
    [applyNextModeOrValue] moves it to the next supported mode, the one
    after the last being the first; that mode being Manual, the list of
    offered values must not be empty, and its first value is stored with
    the mode; any other mode leaves the stored value as it was.  The call
    returns with the lock released. *)
Theorem applyNextModeOrValue_moves_to_the_next_mode :
  forall (p : varjo_CameraPropertyType) (s : Sim.Session) (j : nat),
    ready p s ->
    find_mode (Sim.mode s p) (Sim.modes s p) = Some j ->
    (Sim.mode s p = varjo_CameraPropertyMode_Manual ->
     offered p s <> []
     /\ findPropertyValueIndex (Sim.value s p) (offered p s)
        = Z.of_nat (length (offered p s)) - 1) ->
    let m := nth ((j + 1) mod length (Sim.modes s p)) (Sim.modes s p)
               varjo_CameraPropertyMode_Off in
    (m = varjo_CameraPropertyMode_Manual -> offered p s <> []) ->
    let r := run Sim.device (CameraManager.applyNextModeOrValue p) s in
    outcome r = Returned tt
    /\ Sim.mode (final r) p = m
    /\ Sim.value (final r) p
       = (if m =? varjo_CameraPropertyMode_Manual
          then nth 0 (offered p s) zero_value else Sim.value s p)
    /\ Sim.lockHeld (final r) varjo_LockType_Camera = false
    /\ unlocks varjo_LockType_Camera (trace r) = 1%nat.
Proof.
  intros p s j (Hfree & Hheld & Hlm & Hlv) Hfind Hlast m Hoffered r. subst r.
  change (ensures Sim.device (CameraManager.applyNextModeOrValue p) s
    (fun o s' t =>
       o = Returned tt
       /\ Sim.mode s' p = m
       /\ Sim.value s' p
          = (if m =? varjo_CameraPropertyMode_Manual
             then nth 0 (offered p s) zero_value else Sim.value s p)
       /\ Sim.lockHeld s' varjo_LockType_Camera = false
       /\ unlocks varjo_LockType_Camera t = 1%nat)).
  unfold CameraManager.applyNextModeOrValue.
  run_call. rewrite Hfree, Hheld. simpl orb. cbv iota. simpl fst. simpl snd.
  run_check. change (varjo_True =? varjo_False) with false. cbv iota.
  run_call.
  set (s1 := Sim.with_lockHeld s
               (Sim.upd (Sim.lockHeld s) varjo_LockType_Camera true)).
  run_helper (sim_getPropertyModeList p s1 Hlm).
  destruct Hhelper as (-> & -> & Hreads).
  change (Sim.modes s1 p) with (Sim.modes s p).
  change (Sim.mode s1 p) with (Sim.mode s p).
  assert (Hnext :
    forall tm, reads_only tm ->
      ensures Sim.device
        (CameraManager.applyNextMode p (Sim.mode s p) (Sim.modes s p)) s1
        (fun o' s2 t2 =>
           o' = Returned tt
           /\ Sim.mode s2 p = m
           /\ Sim.value s2 p
              = (if m =? varjo_CameraPropertyMode_Manual
                 then nth 0 (offered p s) zero_value else Sim.value s p)
           /\ Sim.lockHeld s2 varjo_LockType_Camera = false
           /\ unlocks varjo_LockType_Camera
                (Called (varjo_Lock varjo_LockType_Camera) varjo_True
                 :: [Called varjo_GetError varjo_NoError]
                 ++ Called (varjo_MRGetCameraPropertyMode p) (Sim.mode s p)
                 :: tm ++ t2) = 1%nat)).
  { intros tm Htm.
    eapply ensures_mono;
      [apply (sim_applyNextMode_found p s1 j Hlm Hlv Hfind Hoffered)|].
    intros o s2 t2 (Ho & Hm & Hv & Hh & Hu & Ha).
    split; [exact Ho|]. split; [exact Hm|]. split; [exact Hv|].
    split; [exact Hh|]. trace_eval. now rewrite Hu. }
  destruct (Sim.mode s p =? varjo_CameraPropertyMode_Manual) eqn:Em.
  - apply Z.eqb_eq in Em. destruct (Hlast Em) as [Hne Hidx].
    run_call. simpl fst. simpl snd.
    change (Sim.value s1 p) with (Sim.value s p).
    run_helper (sim_getPropertyValueList p s1 Hlv).
    destruct Hhelper as (-> & -> & Hreads').
    change (offered p s1) with (offered p s).
    pose proof (offered_length p s) as Hol.
    assert (Hpos : (0 < length (offered p s))%nat)
      by (destruct (offered p s); [congruence|simpl; lia]).
    rewrite Hidx.
    destruct (Z.of_nat (length (offered p s)) - 1 =? -1) eqn:E1;
      [apply Z.eqb_eq in E1; lia|].
    rewrite to_int_small by lia.
    destruct (Z.of_nat (length (offered p s)) - 1 + 1
              <? Z.of_nat (length (offered p s))) eqn:E2;
      [apply Z.ltb_lt in E2; lia|].
    assert (Hreads2 :
      reads_only (t ++ Called (varjo_MRGetCameraPropertyValue p) (Sim.value s p)
                    :: t0)) by trace_class.
    eapply ensures_mono; [apply (Hnext _ Hreads2)|].
    intros o s2 t2 (Ho & Hm & Hv & Hh & Hu).
    split; [exact Ho|]. split; [exact Hm|]. split; [exact Hv|].
    split; [exact Hh|].
    rewrite <- app_assoc in Hu. exact Hu.
  - eapply ensures_mono; [apply (Hnext _ Hreads)|].
    intros o s2 t2 H. exact H.
Qed.

Lemma next_mode_witness :
  let p := varjo_CameraPropertyType_ExposureTime in
  let r := run Sim.device (CameraManager.applyNextModeOrValue p) manual_200 in
  ready p manual_200
  /\ find_mode (Sim.mode manual_200 p) (Sim.modes manual_200 p) = Some 2%nat
  /\ outcome r = Returned tt
  /\ Sim.mode (final r) p
     = nth ((2 + 1) mod length (Sim.modes manual_200 p))
         (Sim.modes manual_200 p) varjo_CameraPropertyMode_Off.
Proof.
  intros p r.
  assert (Hready : ready p manual_200) by (repeat split).
  split; [exact Hready|]. split; [reflexivity|].
  destruct (applyNextModeOrValue_moves_to_the_next_mode p manual_200 2 Hready)
    as (Ho & Hm & _).
  - reflexivity.
  - intros _. split; [discriminate|reflexivity].
  - discriminate.
  - exact (conj Ho Hm).
Defined.

(** ** The cached config count *)

Lemma count_answers_app (t1 t2 : Trace) :
  count_answers (t1 ++ t2) = count_answers t1 ++ count_answers t2.
Proof.
  induction t1 as [|[c r|l m] t1 IH]; simpl; auto.
  destruct c; simpl; now rewrite ?IH.
Qed.

Lemma wp_invoke_count (m : Method) (this : ChromaKeyManager.ChromaKeyManager) :
  wp (invoke m this) (fun _ t => count_answers t = []).
Proof.
  destruct this as [count locked enabled].
  destruct m as [| |e|index|index config]; simpl invoke.
  - unfold ChromaKeyManager.lockConfig, CHECK_VARJO_ERR. simpl.
    destruct locked; simpl; [reflexivity|].
    intros ret err.
    destruct (err =? varjo_NoError); destruct (ret =? 0); reflexivity.
  - unfold ChromaKeyManager.unlockConfig, ChromaKeyManager.CHECK_CONFIG_LOCK,
      CHECK_VARJO_ERR. simpl.
    destruct locked; simpl; [|reflexivity].
    intros u err. destruct (err =? varjo_NoError); reflexivity.
  - unfold ChromaKeyManager.toggleChromaKeying, CHECK_VARJO_ERR. simpl.
    destruct (Bool.eqb e enabled); simpl; [reflexivity|].
    intros u err. destruct (err =? varjo_NoError) eqn:E; simpl;
      rewrite ?E; reflexivity.
  - unfold ChromaKeyManager.getConfig, ChromaKeyManager.print, CHECK_VARJO_ERR.
    simpl. intros config err.
    destruct (err =? varjo_NoError);
      destruct (ChromaKeyConfig.type config =? varjo_ChromaKeyType_Disabled);
      try destruct (ChromaKeyConfig.type config =? varjo_ChromaKeyType_HSV);
      reflexivity.
  - unfold ChromaKeyManager.setConfig, ChromaKeyManager.print,
      ChromaKeyManager.CHECK_CONFIG_LOCK, CHECK_VARJO_ERR. simpl.
    destruct locked;
      destruct (ChromaKeyConfig.type config =? varjo_ChromaKeyType_Disabled);
      try destruct (ChromaKeyConfig.type config =? varjo_ChromaKeyType_HSV);
      simpl; intros u err; destruct (err =? varjo_NoError); reflexivity.
Qed.

Lemma wp_conj {A : Type} (p : Prog A) :
  forall P Q : Outcome A -> Trace -> Prop,
    wp p P -> wp p Q -> wp p (fun o t => P o t /\ Q o t).
Proof.
  induction p as [a| |l m k IH|c k IH]; intros P Q HP HQ; simpl in *.
  - now split.
  - now split.
  - now apply IH.
  - intros r. now apply IH.
Qed.

Lemma wp_invoke_all_count (ms : list Method) :
  forall this,
    wp (invoke_all ms this)
       (fun o t =>
          count_answers t = []
          /\ exists this',
               o = Returned this'
               /\ ChromaKeyManager.m_count this' = ChromaKeyManager.m_count this).
Proof.
  induction ms as [|m ms IH]; intros this; simpl invoke_all.
  - simpl. split; [reflexivity|]. now exists this.
  - eapply wp_bind_post.
    + apply wp_conj; [apply wp_invoke|apply wp_invoke_count].
    + intros o t1 [(this1 & -> & _ & Hcount1) Hq1]. cbv beta iota.
      eapply wp_mono; [|apply IH].
      intros o t2 (Hq2 & this2 & -> & Hcount2). cbv beta.
      rewrite count_answers_app, Hq1, Hq2. split; [reflexivity|].
      exists this2. split; [reflexivity|congruence].
Qed.

(** X23. The config count is asked for once, by the constructor, as the
    first call of all; whatever the runtime answers afterwards, no sequence
    of calls on the object asks again, and the cached count stays the number
    answered at construction. *)
Theorem config_count_is_fetched_once :
  forall (St : Type) (dev : Device St) (s : St)
         (configLocked chromaKeyEnabled : bool) (ms : list Method),
    let r := run dev (this <- construct configLocked chromaKeyEnabled ;;
                      invoke_all ms this) s in
    exists count this',
      hd_error (trace r) = Some (Called varjo_MRGetChromaKeyConfigCount count)
      /\ count_answers (trace r) = [count]
      /\ outcome r = Returned this'
      /\ ChromaKeyManager.m_count this' = count.
Proof.
  intros St dev s configLocked chromaKeyEnabled ms r. subst r.
  apply (wp_sound dev _
    (fun o t =>
       exists count this',
         hd_error t = Some (Called varjo_MRGetChromaKeyConfigCount count)
         /\ count_answers t = [count]
         /\ o = Returned this'
         /\ ChromaKeyManager.m_count this' = count)).
  unfold construct. simpl bind. intros count.
  eapply wp_mono; [|apply wp_invoke_all_count].
  intros o t (Hq & this' & -> & Hcount). cbv beta.
  exists count, this'. simpl. rewrite Hq. repeat split. exact Hcount.
Qed.

(** ** Toggling twice *)

(** X24. Asking twice in a row for the same chroma keying state reaches
    the session at most once when the first call succeeds: the second call
    is then rejected without a call.  When the object already believes the
    state is the requested one, neither call reaches the session. *)
Theorem toggleChromaKeying_twice :
  forall (St : Type) (dev : Device St) (s : St)
         (this : ChromaKeyManager.ChromaKeyManager) (enabled : bool),
    let r := run dev
               (r1 <- ChromaKeyManager.toggleChromaKeying this enabled ;;
                r2 <- ChromaKeyManager.toggleChromaKeying (snd r1) enabled ;;
                Ret (fst r1, fst r2)) s in
    exists b1 b2,
      outcome r = Returned (b1, b2)
      /\ (b1 = true ->
          b2 = false
          /\ mutations (trace r)
             = [varjo_MRSetChromaKey
                  (if enabled then varjo_True else varjo_False)])
      /\ (ChromaKeyManager.m_chromaKeyEnabled this = enabled ->
          b1 = false /\ b2 = false /\ calls (trace r) = []).
Proof.
  intros St dev s this enabled r. subst r.
  apply (wp_sound dev _
    (fun o t =>
       exists b1 b2,
         o = Returned (b1, b2)
         /\ (b1 = true ->
             b2 = false
             /\ mutations t
                = [varjo_MRSetChromaKey
                     (if enabled then varjo_True else varjo_False)])
         /\ (ChromaKeyManager.m_chromaKeyEnabled this = enabled ->
             b1 = false /\ b2 = false /\ calls t = []))).
  destruct this as [count locked flag].
  unfold ChromaKeyManager.toggleChromaKeying, CHECK_VARJO_ERR. simpl.
  destruct enabled, flag; simpl;
    try (intros u err; destruct (err =? varjo_NoError) eqn:E; simpl;
         rewrite ?E; simpl);
    try (intros u2 err2; destruct (err2 =? varjo_NoError) eqn:E2; simpl;
         rewrite ?E2; simpl);
    (do 2 eexists; split; [reflexivity|]; split; intros H;
     first [discriminate H | now repeat split]).
Qed.

(** * The next value, whatever the runtime answers *)

Lemma tells_nothing_nil : tells_nothing [].
Proof. intros count rest. repeat split. Qed.

Lemma tells_nothing_app (t1 t2 : Trace) :
  tells_nothing t1 -> tells_nothing t2 -> tells_nothing (t1 ++ t2).
Proof.
  intros H1 H2 count rest. rewrite <- app_assoc.
  destruct (H1 count (t2 ++ rest)) as (-> & -> & ->). apply H2.
Qed.

Lemma tells_nothing_cons (e : Event) (t : Trace) :
  tells_nothing [e] -> tells_nothing t -> tells_nothing (e :: t).
Proof. intros H1 H2. exact (tells_nothing_app [e] t H1 H2). Qed.

Lemma tells_mode (t rest : Trace) :
  tells_nothing t -> mode_answers (t ++ rest) = mode_answers rest.
Proof. intros H. apply (H O rest). Qed.

Lemma tells_value (t rest : Trace) :
  tells_nothing t -> value_answers (t ++ rest) = value_answers rest.
Proof. intros H. apply (H O rest). Qed.

Lemma tells_fetches (t rest : Trace) (count : nat) :
  tells_nothing t -> value_fetches count (t ++ rest) = value_fetches count rest.
Proof. intros H. apply (H count rest). Qed.

Lemma wp_any {A : Type} (p : Prog A) : wp p (fun _ _ => True).
Proof.
  induction p as [a| |l m k IH|c k IH]; simpl; auto.
Qed.

Lemma wp_CHECK_VARJO_ERR_told :
  wp CHECK_VARJO_ERR
     (fun o t => (exists e, o = Returned e) /\ reads_only t
                 /\ tells_nothing t /\ calls t = [varjo_GetError]).
Proof.
  intros e. simpl. destruct (e =? varjo_NoError); simpl;
    (split; [now exists e|]); (split; [trace_class|]);
    (split; [|reflexivity]); intros count rest; repeat split.
Qed.

Ltac wp_check_told :=
  eapply wp_bind_post;
  [apply wp_CHECK_VARJO_ERR_told
  |let o := fresh "o" in let t := fresh "t" in
   let e := fresh "e" in let Hr := fresh "Hreads" in
   let Ht := fresh "Htold" in let Hc := fresh "Hcalls" in
   intros o t ([e ->] & Hr & Ht & Hc); cbv beta iota].

Lemma wp_getPropertyModeList_told (p : varjo_CameraPropertyType) :
  wp (CameraManager.getPropertyModeList p)
     (fun o t => (exists l, o = Returned l) /\ reads_only t
                 /\ tells_nothing t).
Proof.
  unfold CameraManager.getPropertyModeList.
  wp_call. wp_call. wp_check_told. simpl wp.
  split; [eauto|]. split; [trace_class|].
  rewrite app_nil_r.
  repeat (apply tells_nothing_cons;
          [intros count rest; repeat split|]).
  exact Htold.
Qed.

(** What one fetch of the value list leaves in a trace. *)
Lemma wp_getPropertyValueList_told (p : varjo_CameraPropertyType) :
  wp (CameraManager.getPropertyValueList p)
     (fun o t =>
        exists l,
          o = Returned l /\ reads_only t
          /\ forall count rest,
               mode_answers (t ++ rest) = mode_answers rest
               /\ value_answers (t ++ rest) = value_answers rest
               /\ exists count',
                    value_fetches count (t ++ rest)
                    = l :: value_fetches count' rest).
Proof.
  unfold CameraManager.getPropertyValueList.
  wp_call. rename r into conf. wp_check_told.
  destruct (conf =? varjo_CameraPropertyConfigType_List) eqn:Econf;
    simpl negb; cbv iota.
  - wp_call. rename r into n. wp_call. rename r into written.
    wp_check_told. simpl wp. eexists. split; [reflexivity|].
    split; [trace_class|]. intros count rest. simpl.
    rewrite Econf, <- !app_assoc. simpl.
    rewrite !(tells_mode _ _ Htold), !(tells_value _ _ Htold),
      !(tells_fetches _ _ _ Htold).
    simpl. rewrite <- !app_assoc. simpl.
    rewrite !(tells_mode _ _ Htold0), !(tells_value _ _ Htold0),
      !(tells_fetches _ _ _ Htold0).
    repeat split. now exists n.
  - wp_log. simpl wp. exists []. split; [reflexivity|].
    split; [trace_class|]. intros count rest. simpl.
    rewrite Econf, <- !app_assoc. simpl.
    rewrite !(tells_mode _ _ Htold), !(tells_value _ _ Htold),
      !(tells_fetches _ _ _ Htold).
    repeat split. now exists count.
Qed.

Lemma wp_setPropertyValue_told (p : varjo_CameraPropertyType) (index : Z) :
  wp (CameraManager.setPropertyValueToModuloIndex p index)
     (fun o t =>
        exists l,
          leaves_locks t
          /\ (forall count rest,
                 mode_answers (t ++ rest) = mode_answers rest
                 /\ value_answers (t ++ rest) = value_answers rest
                 /\ exists count',
                      value_fetches count (t ++ rest)
                      = l :: value_fetches count' rest)
          /\ (l <> [] ->
              o = Returned tt
              /\ mutations t
                 = [varjo_MRSetCameraPropertyValue p
                      (nth (Z.to_nat (Int.to_size_t index
                                      mod Z.of_nat (length l)))
                         l zero_value)])).
Proof.
  unfold CameraManager.setPropertyValueToModuloIndex.
  wp_helper wp_getPropertyValueList_told.
  destruct Hhelper as (l & -> & Hreads & Htold). cbv iota.
  assert (Hcase : l = [] \/ l <> [])
    by (destruct l; [left|right]; congruence).
  destruct Hcase as [->|Hne].
  - unfold modulo_index. simpl. exists []. rewrite app_nil_r.
    split; [trace_class|]. split; [exact Htold|]. intros H. now destruct H.
  - rewrite (modulo_index_in_bounds zero_value) by assumption.
    set (v := nth _ l zero_value).
    wp_ret. wp_log. wp_call. wp_check_told. simpl wp. exists l.
    split; [trace_class|]. split.
    + intros count rest. rewrite <- app_assoc.
      match goal with
      | |- context [mode_answers (t ++ ?suffix)] =>
          destruct (Htold count suffix) as (-> & -> & count' & ->)
      end.
      simpl. rewrite <- !app_assoc. simpl.
      rewrite (tells_mode _ _ Htold0), (tells_value _ _ Htold0),
        (tells_fetches _ _ _ Htold0).
      repeat split. now exists count'.
    + intros _. split; [reflexivity|]. trace_eval. reflexivity.
Qed.

Lemma wp_next_value (p : varjo_CameraPropertyType)
    (current : varjo_CameraPropertyValue)
    (values : list varjo_CameraPropertyValue) (i : Z) :
  wp (CameraManager.applyNextModeOrValue p)
     (fun o t =>
        hd_error (mode_answers t) = Some varjo_CameraPropertyMode_Manual ->
        hd_error (value_answers t) = Some current ->
        hd_error (value_fetches O t) = Some values ->
        Z.of_nat (length values) < 2 ^ 31 ->
        findPropertyValueIndex current values = i ->
        i <> -1 ->
        i + 1 < Z.of_nat (length values) ->
        exists again,
          value_fetches O t = [values; again]
          /\ (again <> [] ->
              let v := nth (Z.to_nat ((i + 1) mod Z.of_nat (length again)))
                         again zero_value in
              o = Returned tt
              /\ mutations t = [varjo_MRSetCameraPropertyValue p v]
              /\ unlocks varjo_LockType_Camera t = 1%nat
              /\ (exists before,
                    calls t
                    = before
                      ++ [varjo_Unlock varjo_LockType_Camera; varjo_GetError])
              /\ (again = values ->
                  v = nth (Z.to_nat (i + 1)) values zero_value))).
Proof.
  unfold CameraManager.applyNextModeOrValue.
  wp_call. rename r into granted. wp_check_told. wp_if.
  { wp_log. simpl wp. simpl. rewrite (tells_mode _ _ Htold). discriminate. }
  wp_call. rename r into mode.
  wp_helper wp_getPropertyModeList_told.
  destruct Hhelper as ([supportedModes ->] & Hreads1 & Htold1). cbv iota.
  destruct (mode =? varjo_CameraPropertyMode_Manual) eqn:Emode.
  2:{ eapply wp_mono; [|apply wp_any]. intros o t2 _. cbv beta. simpl.
      rewrite (tells_mode _ _ Htold). simpl. intros [= ->]. discriminate. }
  wp_call. rename r into currentValue.
  wp_helper wp_getPropertyValueList_told.
  destruct Hhelper as (supportedValues & -> & Hreads2 & Htold2). cbv iota.
  assert (Hfacts : forall t2,
    let full := Called (varjo_Lock varjo_LockType_Camera) granted
                :: t ++ Called (varjo_MRGetCameraPropertyMode p) mode
                :: t0 ++ Called (varjo_MRGetCameraPropertyValue p) currentValue
                :: t1 ++ t2 in
    hd_error (value_answers full) = Some current ->
    hd_error (value_fetches O full) = Some values ->
    current = currentValue /\ values = supportedValues
    /\ exists count',
         value_fetches O full = supportedValues :: value_fetches count' t2).
  { intros t2 full Hc Hf. subst full. simpl in *.
    rewrite (tells_value _ _ Htold) in Hc. simpl in Hc.
    rewrite (tells_value _ _ Htold1) in Hc. simpl in Hc.
    rewrite (tells_fetches _ _ _ Htold) in Hf |- *. simpl in Hf |- *.
    rewrite (tells_fetches _ _ _ Htold1) in Hf |- *. simpl in Hf |- *.
    destruct (Htold2 O t2) as (_ & _ & count' & Hfetch).
    rewrite Hfetch in Hf |- *. simpl in Hf.
    injection Hc as <-. injection Hf as <-.
    split; [reflexivity|]. split; [reflexivity|]. now exists count'. }
  destruct (findPropertyValueIndex currentValue supportedValues =? -1) eqn:Eidx.
  { eapply wp_mono; [|apply wp_any]. intros o t2 _. cbv beta.
    intros _ Hc Hf _ Hfind Hne _.
    destruct (Hfacts t2 Hc Hf) as (-> & -> & _).
    apply Z.eqb_eq in Eidx. congruence. }
  destruct (findPropertyValueIndex currentValue supportedValues + 1
            <? Int.to_int (Z.of_nat (length supportedValues))) eqn:Elt.
  2:{ eapply wp_mono; [|apply wp_any]. intros o t2 _. cbv beta.
      intros _ Hc Hf Hlen Hfind _ Hlt.
      destruct (Hfacts t2 Hc Hf) as (-> & -> & _).
      rewrite to_int_small in Elt by lia. apply Z.ltb_ge in Elt. lia. }
  wp_helper wp_setPropertyValue_told.
  destruct Hhelper as (again & Hlocks & Htold3 & Hset).
  destruct o as [[]|]; cbv iota.
  - wp_call. wp_check_told. simpl wp.
    intros _ Hc Hf Hlen Hfind Hne Hlt.
    destruct (Hfacts _ Hc Hf) as (-> & -> & count' & Hfetch).
    destruct (Htold3 count'
                (Called (varjo_Unlock varjo_LockType_Camera) r :: t3 ++ []))
      as (_ & _ & count'' & Hagain).
    exists again. split.
    { simpl in Hfetch. rewrite Hfetch, Hagain. simpl.
      rewrite (tells_fetches _ _ _ Htold0). reflexivity. }
    intros Hsome. destruct (Hset Hsome) as [_ Hmut].
    assert (Hi : 0 <= i < Z.of_nat (length supportedValues)).
    { destruct (findPropertyValueIndex_range currentValue supportedValues Hlen);
        lia. }
    rewrite Hfind in Hmut. unfold Int.to_size_t in Hmut.
    rewrite (Z.mod_small (i + 1)) in Hmut by lia.
    cbv zeta. split; [reflexivity|]. split; [|split; [|split]].
    + trace_eval. now rewrite Hmut.
    + trace_eval. reflexivity.
    + match goal with
      | |- exists before, _ :: calls ?x = _ =>
          assert (Hend : exists before,
                     calls x
                     = before
                       ++ [varjo_Unlock varjo_LockType_Camera; varjo_GetError])
      end.
      { apply calls_end_app, calls_end_cons, calls_end_app, calls_end_cons,
          calls_end_app, calls_end_app.
        exists []. simpl. now rewrite calls_app, Hcalls0. }
      destruct Hend as [before ->]. now exists (varjo_Lock varjo_LockType_Camera :: before).
    + intros ->. now rewrite Z.mod_small by lia.
  - intros _ Hc Hf Hlen Hfind Hne Hlt.
    destruct (Hfacts _ Hc Hf) as (-> & -> & count' & Hfetch).
    destruct (Htold3 count' []) as (_ & _ & count'' & Hagain).
    rewrite app_nil_r in Hagain.
    exists again. split; [simpl in Hfetch |- *; now rewrite Hfetch, Hagain|].
    intros Hsome. destruct (Hset Hsome) as [Ho _]. discriminate.
Qed.

(** A call of [applyNextModeOrValue] begins with the request for the camera
    lock; granted the lock it asks for the mode, and told the mode Manual
    it asks for the value and fetches the value list. *)
Lemma wp_applyNextModeOrValue_asks (p : varjo_CameraPropertyType) :
  wp (CameraManager.applyNextModeOrValue p)
     (fun o t =>
        hd_error (calls t) = Some (varjo_Lock varjo_LockType_Camera)
        /\ forall granted,
             hd_error (lock_answers varjo_LockType_Camera t) = Some granted ->
             granted <> varjo_False ->
             exists mode,
               hd_error (mode_answers t) = Some mode
               /\ (mode = varjo_CameraPropertyMode_Manual ->
                   exists current values,
                     hd_error (value_answers t) = Some current
                     /\ hd_error (value_fetches O t) = Some values)).
Proof.
  unfold CameraManager.applyNextModeOrValue.
  wp_call. rename r into ret. wp_check_told.
  destruct (ret =? varjo_False) eqn:Eret.
  { wp_log. simpl wp. split; [reflexivity|].
    intros granted. simpl. intros [= <-] Hgranted.
    apply Z.eqb_eq in Eret. contradiction. }
  wp_call. rename r into mode.
  wp_helper wp_getPropertyModeList_told.
  destruct Hhelper as ([supportedModes ->] & Hreads1 & Htold1). cbv iota.
  destruct (mode =? varjo_CameraPropertyMode_Manual) eqn:Emode.
  - wp_call. rename r into currentValue.
    wp_helper wp_getPropertyValueList_told.
    destruct Hhelper as (supportedValues & -> & Hreads2 & Htold2). cbv iota.
    eapply wp_mono; [|apply wp_any]. intros o t2 _. cbv beta.
    split; [reflexivity|]. intros granted _ _. exists mode. simpl.
    rewrite (tells_mode _ _ Htold), (tells_value _ _ Htold),
      (tells_fetches _ _ _ Htold). simpl.
    rewrite (tells_value _ _ Htold1), (tells_fetches _ _ _ Htold1). simpl.
    destruct (Htold2 O t2) as (_ & _ & count' & ->).
    split; [reflexivity|]. intros _. now exists currentValue, supportedValues.
  - eapply wp_mono; [|apply wp_any]. intros o t2 _. cbv beta.
    split; [reflexivity|]. intros granted _ _. exists mode. simpl.
    rewrite (tells_mode _ _ Htold). simpl.
    split; [reflexivity|]. intros ->. discriminate.
Qed.




(** * The camera lock at the undefined access *)

(** C4.  The claim fails on the code at one point.  On the session with
    modes Auto, Manual and range-typed values, in mode Auto, the call of
    [applyNextModeOrValue] is granted the camera lock, selects Manual,
    fetches an empty value list and stops at the access [v[0 % 0]]: it has
    issued no mutating call and no release, and the session still has the
    client as holder of the lock. *)
Theorem granted_lock_is_kept_at_the_undefined_access :
  let r := run Sim.device
             (body (ApplyNextModeOrValue varjo_CameraPropertyType_ExposureTime))
             auto_range in
  lock_answers varjo_LockType_Camera (trace r) = [varjo_True]
  /\ grants varjo_LockType_Camera (trace r) = 1%nat
  /\ outcome r = Crashed
  /\ unlocks varjo_LockType_Camera (trace r) = O
  /\ mutations (trace r) = []
  /\ Sim.lockHeld (final r) varjo_LockType_Camera = true.
Proof. repeat split. Qed.

(** * When the camera operations return *)

Lemma fetched_empty_app (t1 t2 : Trace) :
  fetched_empty (t1 ++ t2) = fetched_empty t1 || fetched_empty t2.
Proof.
  induction t1 as [|[c r|l m] t1 IH]; simpl; auto.
  destruct c; simpl; rewrite ?IH, ?orb_assoc; reflexivity.
Qed.

Lemma wp_CHECK_VARJO_ERR_full :
  wp CHECK_VARJO_ERR
     (fun o t => (exists e, o = Returned e) /\ fetched_empty t = false).
Proof.
  intros e. simpl. destruct (e =? varjo_NoError); simpl;
    (split; [now exists e|reflexivity]).
Qed.

Ltac wp_check_full :=
  eapply wp_bind_post;
  [apply wp_CHECK_VARJO_ERR_full
  |let o := fresh "o" in let t := fresh "t" in
   let e := fresh "e" in let Hf := fresh "Hfull" in
   intros o t ([e ->] & Hf); cbv beta iota].

Lemma filled_nonempty {A : Type} (n : nat) (dflt : A) (written : list A) :
  (n =? 0)%nat = false -> filled n dflt written <> [].
Proof.
  intros Hn Hnil. apply (f_equal (@length A)) in Hnil.
  rewrite filled_length in Hnil. simpl in Hnil. subst n. discriminate.
Qed.

Lemma wp_getPropertyModeList_full (p : varjo_CameraPropertyType) :
  wp (CameraManager.getPropertyModeList p)
     (fun o t =>
        exists l, o = Returned l /\ (fetched_empty t = false -> l <> [])).
Proof.
  unfold CameraManager.getPropertyModeList.
  wp_call. wp_call. wp_check_full. simpl wp.
  eexists. split; [reflexivity|]. simpl.
  intros H. apply orb_false_elim in H. now apply filled_nonempty.
Qed.

Lemma wp_getPropertyValueList_full (p : varjo_CameraPropertyType) :
  wp (CameraManager.getPropertyValueList p)
     (fun o t =>
        exists l, o = Returned l /\ (fetched_empty t = false -> l <> [])).
Proof.
  unfold CameraManager.getPropertyValueList.
  wp_call. rename r into conf. wp_check_full.
  destruct (conf =? varjo_CameraPropertyConfigType_List) eqn:Econf;
    simpl negb; cbv iota.
  - wp_call. wp_call. wp_check_full. simpl wp.
    eexists. split; [reflexivity|]. simpl. rewrite Econf. simpl.
    rewrite fetched_empty_app, Hfull. simpl.
    intros H. apply orb_false_elim in H. now apply filled_nonempty.
  - wp_log. simpl wp. exists []. split; [reflexivity|].
    simpl. rewrite Econf. discriminate.
Qed.

Lemma wp_setPropertyValue_full (p : varjo_CameraPropertyType) (i : Z) :
  wp (CameraManager.setPropertyValueToModuloIndex p i)
     (fun o t => fetched_empty t = false -> o = Returned tt).
Proof.
  unfold CameraManager.setPropertyValueToModuloIndex.
  wp_helper wp_getPropertyValueList_full.
  destruct Hhelper as (l & -> & Hne). cbv iota.
  destruct (fetched_empty t) eqn:F.
  - eapply wp_mono; [|apply wp_any]. intros o t2 _. cbv beta.
    rewrite fetched_empty_app, F. discriminate.
  - rewrite (modulo_index_in_bounds zero_value) by auto.
    wp_ret. wp_log. wp_call. wp_check_full. simpl wp. reflexivity.
Qed.

Lemma wp_setPropertyMode_full (p : varjo_CameraPropertyType) (i : Z) :
  wp (CameraManager.setPropertyModeToModuloIndex p i)
     (fun o t => fetched_empty t = false -> o = Returned tt).
Proof.
  unfold CameraManager.setPropertyModeToModuloIndex.
  wp_helper wp_getPropertyModeList_full.
  destruct Hhelper as (l & -> & Hne). cbv iota.
  destruct (fetched_empty t) eqn:F.
  - eapply wp_mono; [|apply wp_any]. intros o t2 _. cbv beta.
    rewrite fetched_empty_app, F. discriminate.
  - rewrite (modulo_index_in_bounds 0) by auto.
    wp_ret. wp_log.
    match goal with
    | |- context [?m =? varjo_CameraPropertyMode_Manual] =>
        destruct (m =? varjo_CameraPropertyMode_Manual)
    end.
    + wp_helper wp_setPropertyValue_full.
      destruct o as [[]|]; cbv iota.
      * wp_call. wp_check_full. simpl wp. reflexivity.
      * simpl. rewrite fetched_empty_app, F. simpl.
        intros H. discriminate (Hhelper H).
    + wp_ret. wp_call. wp_check_full. simpl wp. reflexivity.
Qed.

Lemma wp_applyNextMode_full (p : varjo_CameraPropertyType)
    (currentMode : varjo_CameraPropertyMode)
    (supportedModes : list varjo_CameraPropertyMode) :
  wp (CameraManager.applyNextMode p currentMode supportedModes)
     (fun o t => fetched_empty t = false -> o = Returned tt).
Proof.
  unfold CameraManager.applyNextMode. wp_if.
  - wp_log. wp_call. wp_check_full. simpl wp. reflexivity.
  - wp_helper wp_setPropertyMode_full.
    destruct o as [[]|]; cbv iota.
    + wp_call. wp_check_full. simpl wp. reflexivity.
    + exact Hhelper.
Qed.

Lemma wp_applyNextModeOrValue_full (p : varjo_CameraPropertyType) :
  wp (CameraManager.applyNextModeOrValue p)
     (fun o t => fetched_empty t = false -> o = Returned tt).
Proof.
  unfold CameraManager.applyNextModeOrValue.
  wp_call. wp_check_full. wp_if.
  { wp_log. simpl wp. reflexivity. }
  wp_call. wp_helper wp_getPropertyModeList_full.
  destruct Hhelper as (l & -> & _). cbv iota.
  assert (Hnext : forall m (pre : Trace -> Trace),
    (forall t2, fetched_empty (pre t2) = false -> fetched_empty t2 = false) ->
    wp (CameraManager.applyNextMode p m l)
       (fun o t2 => fetched_empty (pre t2) = false -> o = Returned tt)).
  { intros m pre Hpre. eapply wp_mono; [|apply wp_applyNextMode_full].
    intros o t2 H Hf. cbv beta in *. auto. }
  wp_if.
  - wp_call. wp_helper wp_getPropertyValueList_full.
    destruct Hhelper as (vs & -> & _). cbv iota.
    wp_if.
    + wp_log. wp_call. wp_check_full. simpl wp. reflexivity.
    + wp_if.
      * wp_helper wp_setPropertyValue_full.
        destruct o as [[]|]; cbv iota.
        -- wp_call. wp_check_full. simpl wp. reflexivity.
        -- simpl. rewrite !fetched_empty_app. simpl.
           rewrite !fetched_empty_app. simpl. rewrite !fetched_empty_app.
           intros H. repeat (apply orb_false_elim in H; destruct H as [? H]).
           discriminate (Hhelper H).
      * apply (Hnext _ (fun t2 => _ :: _ ++ _ :: _ ++ _ :: _ ++ t2)).
        intros t2. simpl. rewrite !fetched_empty_app. simpl.
        rewrite !fetched_empty_app. simpl. rewrite !fetched_empty_app.
        intros H. repeat (apply orb_false_elim in H; destruct H as [? H]).
        exact H.
  - apply (Hnext _ (fun t2 => _ :: _ ++ _ :: _ ++ t2)).
    intros t2. simpl. rewrite !fetched_empty_app. simpl.
    rewrite !fetched_empty_app.
    intros H. repeat (apply orb_false_elim in H; destruct H as [? H]).
    exact H.
Qed.

Lemma wp_body_full (op : Operation) :
  wp (body op) (fun o t => fetched_empty t = false -> o = Returned tt).
Proof.
  destruct op as [p|p|]; simpl body.
  - eapply wp_mono; [|apply wp_setAutoMode_returns]. auto.
  - apply wp_applyNextModeOrValue_full.
  - eapply wp_mono; [|apply wp_resetPropertiesToDefaults_returns]. auto.
Qed.

Lemma wp_sequence_full (ops : list Operation) :
  wp (sequence ops) (fun o t => fetched_empty t = false -> o = Returned tt).
Proof.
  induction ops as [|op ops IH]; simpl sequence.
  - simpl. reflexivity.
  - eapply wp_bind_post; [apply wp_body_full|].
    intros o t1 H1. destruct o as [[]|]; cbv beta iota.
    + eapply wp_mono; [|exact IH]. intros o t2 H2 H. cbv beta in *.
      rewrite fetched_empty_app in H. apply orb_false_elim in H. tauto.
    + intros H. exact (H1 H).
Qed.


